(** * Exam scheduler (USL-ERP): a shallow embedding

    The scheduling engine of the repository is embedded function by
    function: first the enhanced algorithm (v5.0: general-education time
    blocks, priority phases, double-unit sections), then, in module [V4],
    what the earlier two-phase variant (v4.0) does differently.

    JavaScript strings are Rocq strings over ASCII, and an array index or a
    table index past the end reads the string "undefined".  Day and slot
    indices, unit counts and year levels are natural numbers; priority
    weights are binary naturals.  The scheduling ledger ([roomUsage],
    [subjectScheduled]) and the conflict matrix, which the code only ever
    reads by key, are stdpp finite maps and sets; the JS [Map]s whose
    insertion order the code observes (the output accumulator [scheduled],
    the subject groups, the course-year groups) are association lists that
    keep insertion order.  Mutation of the ledger and of the accumulator is
    explicit state passing through a [World] record.  Console output is not
    modelled. *)

From stdpp Require Import gmap strings list fin_maps.
From Stdlib Require Import Ascii DecimalString.
From Stdlib Require DecimalNat Sorted.

Open Scope string_scope.
Open Scope list_scope.
Open Scope stdpp_scope.

(** ** Strings *)

Module Str.

Definition isLower (c : ascii) : bool :=
  let n := nat_of_ascii c in (97 <=? n)%nat && (n <=? 122)%nat.

Definition isUpper (c : ascii) : bool :=
  let n := nat_of_ascii c in (65 <=? n)%nat && (n <=? 90)%nat.

Definition isSpace (c : ascii) : bool :=
  let n := nat_of_ascii c in
  ((9 <=? n)%nat && (n <=? 13)%nat) || (n =? 32)%nat.

Definition upperChar (c : ascii) : ascii :=
  if isLower c then ascii_of_nat (nat_of_ascii c - 32) else c.

(** [String.prototype.toUpperCase] on ASCII text. *)
Fixpoint toUpperCase (s : string) : string :=
  match s with
  | EmptyString => EmptyString
  | String c r => String (upperChar c) (toUpperCase r)
  end.

Fixpoint trimStart (s : string) : string :=
  match s with
  | EmptyString => EmptyString
  | String c r => if isSpace c then trimStart r else s
  end.

Fixpoint trimEnd (s : string) : string :=
  match s with
  | EmptyString => EmptyString
  | String c r =>
      match trimEnd r with
      | EmptyString => if isSpace c then EmptyString else String c EmptyString
      | r' => String c r'
      end
  end.

(** [String.prototype.trim]. *)
Definition trim (s : string) : string := trimEnd (trimStart s).

(** [s.startsWith(p)]. *)
Definition startsWith (s p : string) : bool := String.prefix p s.

(** [s.includes(p)]. *)
Fixpoint includes (s p : string) : bool :=
  String.prefix p s ||
  match s with
  | EmptyString => false
  | String _ r => includes r p
  end.

(** A JS string used as a condition: the empty string is falsy. *)
Definition truthy (s : string) : bool :=
  match s with EmptyString => false | _ => true end.

(** Template rendering of a non-negative integer. *)
Definition ofNat (n : nat) : string := NilEmpty.string_of_uint (Nat.to_uint n).

Fixpoint takeUpper (s : string) : string :=
  match s with
  | String c r => if isUpper c then String c (takeUpper r) else EmptyString
  | EmptyString => EmptyString
  end.

Fixpoint dropUpper (s : string) : string :=
  match s with
  | String c r => if isUpper c then dropUpper r else s
  | EmptyString => EmptyString
  end.

(** [s.slice(n)]: what is left of [s] past its first [n] characters. *)
Fixpoint slice (n : nat) (s : string) : string :=
  match n, s with
  | 0, _ => s
  | S n', String _ r => slice n' r
  | S _, EmptyString => EmptyString
  end.

End Str.

(** ** Ordered maps (JS [Map], insertion order observable) *)

Module OMap.

Section Defs.
Context {V : Type}.

Fixpoint get (k : string) (m : list (string * V)) : option V :=
  match m with
  | [] => None
  | (k', v) :: r => if String.eqb k' k then Some v else get k r
  end.

(** [m.set(k, v)]: an existing key keeps its position, a new key goes last. *)
Fixpoint set (k : string) (v : V) (m : list (string * V)) : list (string * V) :=
  match m with
  | [] => [(k, v)]
  | (k', v') :: r =>
      if String.eqb k' k then (k', v) :: r else (k', v') :: set k v r
  end.

Definition keys (m : list (string * V)) : list string := map fst m.

(** [Array.from(m.values())]. *)
Definition values (m : list (string * V)) : list V := map snd m.

End Defs.

(** [if (!m.has(k)) m.set(k, []); m.get(k).push(x)]. *)
Fixpoint push {A : Type} (k : string) (x : A) (m : list (string * list A))
  : list (string * list A) :=
  match m with
  | [] => [(k, [x])]
  | (k', xs) :: r =>
      if String.eqb k' k then (k', xs ++ [x]) :: r else (k', xs) :: push k x r
  end.

(** Grouping a list by an optional key, groups in order of first occurrence. *)
Definition groupBy {A : Type} (key : A → option string) (l : list A)
  : list (string * list A) :=
  fold_left
    (λ m x, match key x with Some k => push k x m | None => m end) l [].

End OMap.

(** ** Data model *)

(** Modelled from the spec: the [Exam] interface is declared in
    [../subject-code], which is not among the sources; the fields are those
    the scheduler reads.  A course or year level that is absent
    ([undefined]/[null]) is [None]. *)
Record Exam := {
  code : string;
  subjectId : string;
  title : string;
  course : option string;
  yearLevel : option nat;
  instructor : string;
  dept : string;
  oe : nat;
  lec : nat;
  studentCount : nat;
  isRegular : bool;
  lectureRoom : option string
}.

(** Modelled from the spec: the [ScheduledExam] interface is declared in
    [../subject-code]; the fields are those [scheduleExam] writes. *)
Record ScheduledExam := {
  CODE : string;
  SUBJECT_ID : string;
  DESCRIPTIVE_TITLE : string;
  COURSE : option string;
  YEAR_LEVEL : option nat;
  INSTRUCTOR : string;
  DEPT : string;
  OE : nat;
  DAY : string;
  SLOT : string;
  ROOM : string;
  UNITS : nat;
  STUDENT_COUNT : nat;
  PRIORITY : N;
  IS_REGULAR : bool;
  LECTURE_ROOM : option string
}.

(** Modelled from the spec: [ConflictMatrix] is declared in
    [../subject-code]: course-year key, then subject, then the set of
    subjects that must not share a timeslot with it. *)
Abbreviation ConflictMatrix := (gmap string (gmap string (gset string))).

(** Modelled from the spec: [SchedulingState] is declared in
    [../subject-code].  Of its six maps the scheduler reads and writes
    [roomUsage] (day, then slot, then the set of occupied rooms) and
    [subjectScheduled] (subject to its latest day and slot); the other four
    are created empty and never touched, and are left out. *)
Record SchedulingState := {
  roomUsage : gmap string (gmap string (gset string));
  subjectScheduled : gmap string (string * string)
}.

(** The two mutable objects every scheduling function receives. *)
Record World := {
  state : SchedulingState;
  scheduled : list (string * ScheduledExam)
}.

(** ** Constants *)

Definition TIME_SLOTS : list string :=
  [ "7:30-9:00"; "9:00-10:30"; "10:30-12:00"; "12:00-1:30";
    "1:30-3:00"; "3:00-4:30"; "4:30-6:00"; "6:00-7:30" ].

Record TimeBlock := { blockDay : nat; blockSlot : nat; capacity : nat }.

Definition GEN_ED_TIME_BLOCKS : list (string * list TimeBlock) :=
  [ ("ETHC", [ {| blockDay := 0; blockSlot := 0; capacity := 14 |} ]);
    ("ENGL", [ {| blockDay := 0; blockSlot := 2; capacity := 23 |};
               {| blockDay := 2; blockSlot := 0; capacity := 34 |} ]);
    ("PHED", [ {| blockDay := 0; blockSlot := 3; capacity := 27 |};
               {| blockDay := 1; blockSlot := 0; capacity := 46 |} ]);
    ("CFED", [ {| blockDay := 0; blockSlot := 4; capacity := 46 |};
               {| blockDay := 1; blockSlot := 1; capacity := 36 |};
               {| blockDay := 1; blockSlot := 2; capacity := 44 |} ]);
    ("CONW", [ {| blockDay := 1; blockSlot := 5; capacity := 33 |} ]);
    ("LANG", [ {| blockDay := 2; blockSlot := 3; capacity := 15 |} ]);
    ("LITR", [ {| blockDay := 2; blockSlot := 4; capacity := 9 |} ]) ].

Module PRIORITY_LEVELS.
Definition GEN_ED : N := 100000%N.
Definition MATH : N := 50000%N.
Definition ARCH : N := 40000%N.
Definition MAJOR : N := 10000%N.
End PRIORITY_LEVELS.

(** [`Day ${day + 1}`]. *)
Definition dayKey (day : nat) : string := "Day " +:+ Str.ofNat (day + 1).

(** [TIME_SLOTS[slot]]; an index past the table reads [undefined]. *)
Definition slotKey (slot : nat) : string := nth slot TIME_SLOTS "undefined".

(** ** Helper functions *)

Definition getGenEdType (subjectId : string) : option string :=
  if negb (Str.truthy subjectId) then None else
  let upper := Str.toUpperCase subjectId in
  if Str.startsWith upper "ETHC" then Some "ETHC" else
  if Str.startsWith upper "ENGL" then Some "ENGL" else
  if Str.startsWith upper "PHED" then Some "PHED" else
  if Str.startsWith upper "CFED" then Some "CFED" else
  if Str.startsWith upper "CONW" then Some "CONW" else
  if Str.startsWith upper "LANG" || Str.startsWith upper "JAPN"
     || Str.startsWith upper "CHIN" || Str.startsWith upper "SPAN"
  then Some "LANG" else
  if Str.startsWith upper "LITR" then Some "LITR" else
  None.

Definition isGenEdSubject (subjectId : string) : bool :=
  match getGenEdType subjectId with Some _ => true | None => false end.

Definition isMathSubject (exam : Exam) : bool :=
  Str.startsWith (Str.toUpperCase (subjectId exam)) "MATH"
  && String.eqb (Str.toUpperCase (dept exam)) "SACE".

Definition isArchSubject (subjectId : string) : bool :=
  Str.includes (Str.toUpperCase subjectId) "ARCH".

Definition calculatePriority (exam : Exam) : N :=
  if isGenEdSubject (subjectId exam) then PRIORITY_LEVELS.GEN_ED else
  if isMathSubject exam then PRIORITY_LEVELS.MATH else
  if isArchSubject (subjectId exam) then PRIORITY_LEVELS.ARCH else
  PRIORITY_LEVELS.MAJOR.

(** [room.match(/^([A-Z]+)-/)]: the leading run of capitals, when it is not
    empty and a dash follows it; the empty string otherwise. *)
Definition getBuildingFromRoom (room : string) : string :=
  match Str.takeUpper room, Str.dropUpper room with
  | String c b, String "-"%char _ => String c b
  | _, _ => EmptyString
  end.

Definition getAvailableBuildings (dept subjectId : string) : list string :=
  if isArchSubject subjectId then ["C"; "K"] else
  let deptUpper := Str.toUpperCase dept in
  if Str.includes deptUpper "SECAP" then ["A"; "J"; "B"] else
  if Str.includes deptUpper "SABH" then ["A"] else
  if Str.includes deptUpper "SACE" then ["N"; "K"; "C"] else
  if Str.includes deptUpper "SHAS" then ["L"; "M"; "N"; "K"; "J"] else
  ["A"; "N"; "K"; "L"; "M"; "J"; "B"; "C"].

Definition is6UnitSubject (exam : Exam) : bool := (lec exam =? 6)%nat.

(** ** Conflict detection *)

(** [exam.subjectId.toUpperCase().trim()]. *)
Definition normSubject (exam : Exam) : string :=
  Str.trim (Str.toUpperCase (subjectId exam)).

(** The guard [!exam.course || !exam.yearLevel] negated, and the key
    [`${exam.course.trim()}-${exam.yearLevel}`] it protects. *)
Definition courseYearKey (exam : Exam) : option string :=
  match course exam, yearLevel exam with
  | Some c, Some y =>
      if Str.truthy c && negb (y =? 0)%nat
      then Some (Str.trim c +:+ "-" +:+ Str.ofNat y)
      else None
  | _, _ => None
  end.

(** The inner [groupExams.forEach(exam2 => ...)] for one [exam1]. *)
Definition addConflictsOf (groupExams : list Exam)
    (row : gmap string (gset string)) (exam1 : Exam) : gmap string (gset string) :=
  let subj1 := normSubject exam1 in
  let row1 := match row !! subj1 with Some _ => row | None => <[subj1 := ∅]> row end in
  fold_left
    (λ (r : gmap string (gset string)) exam2,
       let subj2 := normSubject exam2 in
       if negb (String.eqb (code exam1) (code exam2)) && negb (String.eqb subj1 subj2)
       then <[subj1 := default ∅ (r !! subj1) ∪ {[subj2]}]> r
       else r)
    groupExams row1.

Definition buildConflictMatrix (exams : list Exam) : ConflictMatrix :=
  let courseYearGroups := OMap.groupBy courseYearKey exams in
  fold_left
    (λ (matrix : ConflictMatrix) '(courseYear, groupExams),
       let row0 := default ∅ (matrix !! courseYear) in
       <[courseYear := fold_left (addConflictsOf groupExams) groupExams row0]> matrix)
    courseYearGroups ∅.

Definition hasConflict (exam : Exam) (day slot : nat)
    (st : SchedulingState) (conflictMatrix : ConflictMatrix) : bool :=
  match courseYearKey exam with
  | None => false
  | Some courseYear =>
      let subjId := normSubject exam in
      match conflictMatrix !! courseYear with
      | None => false
      | Some row =>
          match row !! subjId with
          | None => false
          | Some conflicts =>
              existsb
                (λ conflictSubj,
                   match subjectScheduled st !! conflictSubj with
                   | Some (d, s) => String.eqb d (dayKey day) && String.eqb s (slotKey slot)
                   | None => false
                   end)
                (elements conflicts)
          end
      end
  end.

(** ** Room management *)

(** [state.roomUsage.get(dayKey).get(slotKey)], empty when either level is
    absent. *)
Definition occupiedRooms (st : SchedulingState) (dk sk : string) : gset string :=
  default ∅ (default ∅ (roomUsage st !! dk) !! sk).

Definition getAvailableRooms (exam : Exam) (day slot : nat)
    (allRooms : list string) (st : SchedulingState)
    (requireConsecutive : bool) : list string :=
  let allowedBuildings := getAvailableBuildings (dept exam) (subjectId exam) in
  let available :=
    filter (λ room, getBuildingFromRoom room ∈ allowedBuildings) allRooms in
  let occupied := occupiedRooms st (dayKey day) (slotKey slot) in
  let occupied :=
    if requireConsecutive && (slot <? length TIME_SLOTS - 1)%nat
    then occupied ∪ occupiedRooms st (dayKey day) (slotKey (slot + 1))
    else occupied in
  filter (λ room, room ∉ occupied) available.

(** ** Scheduling operations *)

Definition mkScheduledExam (exam : Exam) (dk sk room : string) : ScheduledExam :=
  {| CODE := code exam;
     SUBJECT_ID := subjectId exam;
     DESCRIPTIVE_TITLE := title exam;
     COURSE := course exam;
     YEAR_LEVEL := yearLevel exam;
     INSTRUCTOR := instructor exam;
     DEPT := dept exam;
     OE := oe exam;
     DAY := dk;
     SLOT := sk;
     ROOM := room;
     UNITS := lec exam;
     STUDENT_COUNT := studentCount exam;
     PRIORITY := calculatePriority exam;
     IS_REGULAR := isRegular exam;
     LECTURE_ROOM := lectureRoom exam |}.

(** The three statements that update [state.roomUsage]. *)
Definition claimRoom (dk sk room : string)
    (usage : gmap string (gmap string (gset string)))
  : gmap string (gmap string (gset string)) :=
  let dayUsage := default ∅ (usage !! dk) in
  <[dk := <[sk := default ∅ (dayUsage !! sk) ∪ {[room]}]> dayUsage]> usage.

(** The key [exam.code + '-' + slotKey] of the output accumulator. *)
Definition scheduledKey (c sk : string) : string := c +:+ "-" +:+ sk.

Definition scheduleExam (exam : Exam) (day slot : nat) (room : string)
    (w : World) (isSecondSlotOf6Unit : bool) : World :=
  let dk := dayKey day in
  let sk := slotKey slot in
  let scheduledExam := mkScheduledExam exam dk sk room in
  let usage := claimRoom dk sk room (roomUsage (state w)) in
  let subjects :=
    if isSecondSlotOf6Unit then subjectScheduled (state w)
    else <[normSubject exam := (dk, sk)]> (subjectScheduled (state w)) in
  {| state := {| roomUsage := usage; subjectScheduled := subjects |};
     scheduled := OMap.set (scheduledKey (code exam) sk) scheduledExam (scheduled w) |}.

Definition schedule6UnitExam (exam : Exam) (day slot : nat) (room : string)
    (w : World) : bool * World :=
  if (length TIME_SLOTS - 1 <=? slot)%nat then (false, w) else
  let w1 := scheduleExam exam day slot room w false in
  let w2 := scheduleExam exam day (slot + 1) room w1 true in
  (true, w2).

(** ** Group scheduling *)

Definition groupExamsBySubject (exams : list Exam) : list (string * list Exam) :=
  OMap.groupBy (λ exam, Some (normSubject exam)) exams.

(** The loop [for (let i = 0; i < examGroup.length; i++)] of
    [tryScheduleGroup], entered at index [i] with the sections and the
    rooms from [i] on; [availableRooms[i]] past the end reads [undefined]. *)
Fixpoint scheduleAll (examGroup : list Exam) (day slot : nat)
    (availableRooms : list string) (w : World) : bool * World :=
  match examGroup with
  | [] => (true, w)
  | exam :: rest =>
      let room := hd "undefined" availableRooms in
      if is6UnitSubject exam then
        match schedule6UnitExam exam day slot room w with
        | (false, w') => (false, w')
        | (true, w') => scheduleAll rest day slot (tl availableRooms) w'
        end
      else
        scheduleAll rest day slot (tl availableRooms)
          (scheduleExam exam day slot room w false)
  end.

Definition tryScheduleGroup (examGroup : list Exam) (day slot : nat)
    (allRooms : list string) (conflictMatrix : ConflictMatrix)
    (w : World) : bool * World :=
  match examGroup with
  | [] => (true, w)
  | first :: _ =>
      let has6Unit := existsb is6UnitSubject examGroup in
      if existsb (λ exam, hasConflict exam day slot (state w) conflictMatrix) examGroup
      then (false, w) else
      let availableRooms :=
        getAvailableRooms first day slot allRooms (state w) has6Unit in
      if (length availableRooms <? length examGroup)%nat then (false, w) else
      scheduleAll examGroup day slot availableRooms w
  end.

(** ** Grid scans *)

(** The cells visited by
    [for (day = 0; day < numDays && !placed; day++)
       for (slot = 0; slot < TIME_SLOTS.length && !placed; slot++)],
    in visiting order. *)
Definition gridCells (numDays : nat) : list (nat * nat) :=
  day ← seq 0 numDays; slot ← seq 0 (length TIME_SLOTS); [(day, slot)].

(** A scan that stops at the first cell where the attempt reports success;
    what a failed attempt did to the world is kept. *)
Fixpoint scanCells (attempt : nat → nat → World → bool * World)
    (cells : list (nat * nat)) (w : World) : bool * World :=
  match cells with
  | [] => (false, w)
  | (day, slot) :: rest =>
      match attempt day slot w with
      | (true, w') => (true, w')
      | (false, w') => scanCells attempt rest w'
      end
  end.

(** What a phase hands back: its counter, its deferred sections, and the
    world it leaves. *)
Record PhaseResult := {
  scheduledCount : nat;
  failed : list Exam;
  world : World
}.

(** The body shared by every [forEach((group, subjectId) => ...)] of phases
    1 to 3: scan [cells], then count the group or defer it. *)
Definition placeGroup (cells : list (nat * nat)) (allRooms : list string)
    (conflictMatrix : ConflictMatrix) (acc : PhaseResult) (group : list Exam)
  : PhaseResult :=
  match scanCells (λ day slot, tryScheduleGroup group day slot allRooms conflictMatrix)
          cells (world acc) with
  | (true, w') =>
      {| scheduledCount := scheduledCount acc + length group;
         failed := failed acc; world := w' |}
  | (false, w') =>
      {| scheduledCount := scheduledCount acc;
         failed := failed acc ++ group; world := w' |}
  end.

(** ** Phase 1: general-education time blocks *)

(** The blocks a pinned scan really tries: [block.day < numDays]. *)
Definition blockCells (numDays : nat) (timeBlocks : list TimeBlock) : list (nat * nat) :=
  map (λ b, (blockDay b, blockSlot b))
      (filter (λ b, (blockDay b < numDays)%nat) timeBlocks).

Definition scheduleGenEdType (allRooms : list string)
    (conflictMatrix : ConflictMatrix) (numDays : nat)
    (acc : PhaseResult) (entry : string * list Exam) : PhaseResult :=
  let '(genEdType, genEdExams) := entry in
  let subjectGroups := groupExamsBySubject genEdExams in
  let timeBlocks := default [] (OMap.get genEdType GEN_ED_TIME_BLOCKS) in
  let cells :=
    match timeBlocks with
    | [] => gridCells numDays
    | _ => blockCells numDays timeBlocks
    end in
  fold_left (placeGroup cells allRooms conflictMatrix) (OMap.values subjectGroups) acc.

Definition scheduleGenEdTimeBlocks (exams : list Exam) (allRooms : list string)
    (conflictMatrix : ConflictMatrix) (numDays : nat) (w : World) : PhaseResult :=
  let genEdsByType := OMap.groupBy (λ exam, getGenEdType (subjectId exam)) exams in
  fold_left (scheduleGenEdType allRooms conflictMatrix numDays) genEdsByType
    {| scheduledCount := 0; failed := []; world := w |}.

(** ** Phase 2: mathematics, then architecture *)

Definition scheduleHighPriority (exams : list Exam) (allRooms : list string)
    (conflictMatrix : ConflictMatrix) (numDays : nat) (w : World) : PhaseResult :=
  let mathExams := filter (λ e, isMathSubject e) exams in
  let archExams := filter (λ e, isArchSubject (subjectId e)) exams in
  let mathGroups := groupExamsBySubject mathExams in
  let acc :=
    fold_left (placeGroup (gridCells numDays) allRooms conflictMatrix)
      (OMap.values mathGroups)
      {| scheduledCount := 0; failed := []; world := w |} in
  let archGroups := groupExamsBySubject archExams in
  fold_left (placeGroup (gridCells numDays) allRooms conflictMatrix)
    (OMap.values archGroups) acc.

(** ** Phase 3: major subjects *)

(** [Array.prototype.sort] with the comparator
    [(a, b) => a[1].length - b[1].length]: stable, ascending group size. *)
Fixpoint insertBySize (g : string * list Exam) (sorted : list (string * list Exam))
  : list (string * list Exam) :=
  match sorted with
  | [] => [g]
  | h :: r =>
      if (length (snd g) <? length (snd h))%nat then g :: h :: r
      else h :: insertBySize g r
  end.

Definition sortBySize (groups : list (string * list Exam)) : list (string * list Exam) :=
  fold_left (λ sorted g, insertBySize g sorted) groups [].

Definition scheduleMajorSubjects (exams : list Exam) (allRooms : list string)
    (conflictMatrix : ConflictMatrix) (numDays : nat) (w : World) : PhaseResult :=
  let subjectGroups := groupExamsBySubject exams in
  let sortedGroups := sortBySize subjectGroups in
  fold_left (placeGroup (gridCells numDays) allRooms conflictMatrix)
    (OMap.values sortedGroups)
    {| scheduledCount := 0; failed := []; world := w |}.

(** ** Phase 4: individual scheduling *)

(** One iteration of the inner loop of [scheduleIndividually]. *)
Definition tryScheduleAlone (exam : Exam) (allRooms : list string)
    (conflictMatrix : ConflictMatrix) (day slot : nat) (w : World) : bool * World :=
  if hasConflict exam day slot (state w) conflictMatrix then (false, w) else
  let availableRooms :=
    getAvailableRooms exam day slot allRooms (state w) (is6UnitSubject exam) in
  match availableRooms with
  | [] => (false, w)
  | room :: _ =>
      if is6UnitSubject exam then schedule6UnitExam exam day slot room w
      else (true, scheduleExam exam day slot room w false)
  end.

Definition scheduleIndividually (exams : list Exam) (allRooms : list string)
    (conflictMatrix : ConflictMatrix) (numDays : nat) (w : World) : nat * World :=
  fold_left
    (λ '(scheduledCount, w) exam,
       match scanCells (tryScheduleAlone exam allRooms conflictMatrix)
               (gridCells numDays) w with
       | (true, w') => (scheduledCount + 1, w')
       | (false, w') => (scheduledCount, w')
       end)
    exams (0, w).

(** ** Main entry point *)

Definition emptyWorld : World :=
  {| state := {| roomUsage := ∅; subjectScheduled := ∅ |}; scheduled := [] |}.

(** [exams.filter(e => e.dept.toUpperCase() !== 'SAS')]. *)
Definition eligibleExams (exams : list Exam) : list Exam :=
  filter (λ e, negb (String.eqb (Str.toUpperCase (dept e)) "SAS")) exams.

(** The body of [generateExamSchedule] up to the end of phase 4: the world
    the four phases leave behind. *)
Definition runPhases (exams : list Exam) (rooms : list string) (numDays : nat) : World :=
  let eligible := eligibleExams exams in
  let conflictMatrix := buildConflictMatrix eligible in
  let genEds := filter (λ e, isGenEdSubject (subjectId e)) eligible in
  let mathSubjects := filter (λ e, isMathSubject e) eligible in
  let archSubjects := filter (λ e, isArchSubject (subjectId e)) eligible in
  let majorSubjects :=
    filter (λ e, negb (isGenEdSubject (subjectId e)) && negb (isMathSubject e)
                 && negb (isArchSubject (subjectId e))) eligible in
  let phase1 := scheduleGenEdTimeBlocks genEds rooms conflictMatrix numDays emptyWorld in
  let phase2 :=
    scheduleHighPriority (mathSubjects ++ archSubjects) rooms conflictMatrix numDays
      (world phase1) in
  let phase3 :=
    scheduleMajorSubjects majorSubjects rooms conflictMatrix numDays (world phase2) in
  let allFailed := failed phase1 ++ failed phase2 ++ failed phase3 in
  snd (scheduleIndividually allFailed rooms conflictMatrix numDays (world phase3)).

Definition generateExamSchedule (exams : list Exam) (rooms : list string)
    (numDays : nat) : list ScheduledExam :=
  OMap.values (scheduled (runPhases exams rooms numDays)).

(** ** The earlier variant ([exam-scheduler-algorithm.ts], v4.0)

    The second source file schedules in two phases: subject groups in
    ascending size (large groups in batches), then the sections of groups
    that failed, one by one.  [TIME_SLOTS], [getBuildingFromRoom],
    [buildConflictMatrix], [hasConflict] and [groupExamsBySubject] read
    there exactly as in v5.0 and are shared; what differs is embedded
    here. *)

Module V4.

Definition isGenEdSubject (subjectId : string) : bool :=
  if negb (Str.truthy subjectId) then false else
  let upper := Str.toUpperCase subjectId in
  existsb (λ p, Str.startsWith upper p)
    ["CFED"; "PHED"; "ENGL"; "CONW"; "LANG"; "JAPN"; "CHIN"; "SPAN"; "LITR";
     "ETHC"; "RESM"].

Definition getAvailableBuildings (dept subjectId : string) : list string :=
  if Str.includes (Str.toUpperCase subjectId) "ARCH" then ["C"; "K"] else
  let deptUpper := Str.toUpperCase dept in
  if Str.includes deptUpper "SECAP" || Str.includes deptUpper "ACCT"
     || Str.includes deptUpper "ECON" || Str.includes deptUpper "BSBA"
  then ["A"; "J"; "B"] else
  if Str.includes deptUpper "SABH" || Str.includes deptUpper "NURS"
     || Str.includes deptUpper "SBH"
  then ["A"] else
  if Str.includes deptUpper "SACE" || Str.includes deptUpper "SCE"
     || Str.includes deptUpper "CENG" || Str.includes deptUpper "ENG"
  then ["N"; "K"; "C"] else
  if Str.includes deptUpper "SHAS" || Str.includes deptUpper "HUMSS"
     || Str.includes deptUpper "HUM"
  then ["L"; "M"; "N"; "K"; "J"] else
  ["A"; "N"; "K"; "L"; "M"; "J"; "B"; "C"].

Definition buildConflictMatrix (exams : list Exam) : ConflictMatrix :=
  let courseYearGroups := OMap.groupBy courseYearKey exams in
  fold_left
    (λ (matrix : ConflictMatrix) '(courseYear, groupExams),
       let row0 := default ∅ (matrix !! courseYear) in
       <[courseYear := fold_left (addConflictsOf groupExams) groupExams row0]> matrix)
    courseYearGroups ∅.

Definition getAvailableRooms (exam : Exam) (day slot : nat)
    (allRooms : list string) (st : SchedulingState) : list string :=
  let allowedBuildings := getAvailableBuildings (dept exam) (subjectId exam) in
  let available :=
    filter (λ room, getBuildingFromRoom room ∈ allowedBuildings) allRooms in
  let occupied := occupiedRooms st (dayKey day) (slotKey slot) in
  filter (λ room, room ∉ occupied) available.

Definition mkScheduledExam (exam : Exam) (dk sk room : string) : ScheduledExam :=
  {| CODE := code exam;
     SUBJECT_ID := subjectId exam;
     DESCRIPTIVE_TITLE := title exam;
     COURSE := course exam;
     YEAR_LEVEL := yearLevel exam;
     INSTRUCTOR := instructor exam;
     DEPT := dept exam;
     OE := oe exam;
     DAY := dk;
     SLOT := sk;
     ROOM := room;
     UNITS := lec exam;
     STUDENT_COUNT := studentCount exam;
     PRIORITY := 0;
     IS_REGULAR := isRegular exam;
     LECTURE_ROOM := lectureRoom exam |}.

Definition scheduleExam (exam : Exam) (day slot : nat) (room : string)
    (w : World) : World :=
  let dk := dayKey day in
  let sk := slotKey slot in
  let scheduledExam := mkScheduledExam exam dk sk room in
  {| state :=
       {| roomUsage := claimRoom dk sk room (roomUsage (state w));
          subjectScheduled :=
            <[normSubject exam := (dk, sk)]> (subjectScheduled (state w)) |};
     scheduled := OMap.set (scheduledKey (code exam) sk) scheduledExam (scheduled w) |}.

(** One iteration of the inner loop of [tryScheduleExam]. *)
Definition tryScheduleExamAt (exam : Exam) (allRooms : list string)
    (conflictMatrix : ConflictMatrix) (day slot : nat) (w : World) : bool * World :=
  if hasConflict exam day slot (state w) conflictMatrix then (false, w) else
  match getAvailableRooms exam day slot allRooms (state w) with
  | [] => (false, w)
  | room :: _ => (true, scheduleExam exam day slot room w)
  end.

Definition tryScheduleExam (exam : Exam) (allRooms : list string)
    (conflictMatrix : ConflictMatrix) (numDays : nat) (w : World) : bool * World :=
  scanCells (tryScheduleExamAt exam allRooms conflictMatrix) (gridCells numDays) w.

(** The loop [for (let i = 0; i < examGroup.length; i++)] of
    [tryScheduleGroup], with the sections and the rooms from [i] on. *)
Fixpoint scheduleAll (examGroup : list Exam) (day slot : nat)
    (availableRooms : list string) (w : World) : World :=
  match examGroup with
  | [] => w
  | exam :: rest =>
      scheduleAll rest day slot (tl availableRooms)
        (scheduleExam exam day slot (hd "undefined" availableRooms) w)
  end.

Definition tryScheduleGroup (examGroup : list Exam) (day slot : nat)
    (allRooms : list string) (conflictMatrix : ConflictMatrix)
    (w : World) : bool * World :=
  match examGroup with
  | [] => (true, w)
  | first :: _ =>
      if existsb (λ exam, hasConflict exam day slot (state w) conflictMatrix) examGroup
      then (false, w) else
      let availableRooms := getAvailableRooms first day slot allRooms (state w) in
      if (length availableRooms <? length examGroup)%nat then (false, w) else
      (true, scheduleAll examGroup day slot availableRooms w)
  end.

Definition maxBatchSize : nat := 35.

(** The batches [examGroup.slice(i, Math.min(i + maxBatchSize, length))]
    for [i = 0, maxBatchSize, 2 * maxBatchSize, ...] below the length. *)
Definition batches (examGroup : list Exam) : list (list Exam) :=
  map (λ j, take maxBatchSize (drop (j * maxBatchSize) examGroup))
      (seq 0 ((length examGroup + (maxBatchSize - 1)) / maxBatchSize)).

Definition tryScheduleGroupAnywhere (examGroup : list Exam)
    (allRooms : list string) (conflictMatrix : ConflictMatrix)
    (numDays : nat) (w : World) : bool * World :=
  if (length examGroup <=? maxBatchSize)%nat then
    scanCells (λ day slot, tryScheduleGroup examGroup day slot allRooms conflictMatrix)
      (gridCells numDays) w
  else
    fold_left
      (λ '(allScheduled, w) batch,
         match scanCells
                 (λ day slot, tryScheduleGroup batch day slot allRooms conflictMatrix)
                 (gridCells numDays) w with
         | (true, w') => (allScheduled, w')
         | (false, w') => (false, w')
         end)
      (batches examGroup) (true, w).

(** The body of [generateExamSchedule] up to the end of phase 2. *)
Definition runPhases (exams : list Exam) (rooms : list string) (numDays : nat) : World :=
  let eligible := eligibleExams exams in
  let conflictMatrix := buildConflictMatrix eligible in
  let subjectGroups := groupExamsBySubject eligible in
  let sortedGroups := sortBySize subjectGroups in
  let phase1 :=
    fold_left
      (λ '(phase1Fail, w) examGroup,
         match tryScheduleGroupAnywhere examGroup rooms conflictMatrix numDays w with
         | (true, w') => (phase1Fail, w')
         | (false, w') => (phase1Fail ++ examGroup, w')
         end)
      (OMap.values sortedGroups) ([], emptyWorld) in
  fold_left
    (λ w exam, (tryScheduleExam exam rooms conflictMatrix numDays w).2)
    phase1.1 phase1.2.

Definition generateExamSchedule (exams : list Exam) (rooms : list string)
    (numDays : nat) : list ScheduledExam :=
  OMap.values (scheduled (runPhases exams rooms numDays)).

End V4.

(** ** Specification vocabulary *)

(** [B] is listed among the conflicts of [A] under course-year key [k]. *)
Definition inMatrix (cm : ConflictMatrix) (k A B : string) : Prop :=
  ∃ row conflicts, cm !! k = Some row ∧ row !! A = Some conflicts ∧ B ∈ conflicts.

(** The edge relation in the words of the specification: two sections that
    share the course-year key [k], with differing section codes and
    differing normalized subject identifiers [A] and [B]. *)
Definition conflictEdge (exams : list Exam) (k A B : string) : Prop :=
  ∃ e1 e2, e1 ∈ exams ∧ e2 ∈ exams
    ∧ courseYearKey e1 = Some k ∧ courseYearKey e2 = Some k
    ∧ normSubject e1 = A ∧ normSubject e2 = B
    ∧ code e1 ≠ code e2 ∧ A ≠ B.

(** One row of the matrix read as a relation. *)
Definition rowEdge (row : gmap string (gset string)) (A B : string) : Prop :=
  ∃ conflicts, row !! A = Some conflicts ∧ B ∈ conflicts.

(** The conflict check in the words of the specification: no subject that
    the matrix lists as a conflict of the section's subject, under the
    section's course-year key, has this day and slot as its recorded
    placement. *)
Definition conflictFreeAt (cm : ConflictMatrix) (st : SchedulingState)
    (exam : Exam) (day slot : nat) : Prop :=
  ∀ k other, courseYearKey exam = Some k →
    inMatrix cm k (normSubject exam) other →
    subjectScheduled st !! other ≠ Some (dayKey day, slotKey slot).

(** The course-year key a record carries. *)
Definition recordKey (x : ScheduledExam) : option string :=
  match COURSE x, YEAR_LEVEL x with
  | Some c, Some y =>
      if Str.truthy c && negb (y =? 0)%nat
      then Some (Str.trim c +:+ "-" +:+ Str.ofNat y)
      else None
  | _, _ => None
  end.

(** The normalized subject a record carries. *)
Definition recordSubject (x : ScheduledExam) : string :=
  Str.trim (Str.toUpperCase (SUBJECT_ID x)).

(** Two records of one cohort whose subjects the matrix marks as mutual
    conflicts and that share day and slot. *)
Definition clash (cm : ConflictMatrix) (x y : ScheduledExam) : Prop :=
  ∃ k, recordKey x = Some k ∧ recordKey y = Some k
       ∧ inMatrix cm k (recordSubject x) (recordSubject y)
       ∧ inMatrix cm k (recordSubject y) (recordSubject x)
       ∧ DAY x = DAY y ∧ SLOT x = SLOT y.

(** Conflict-freedom of the whole output. *)
Definition conflictFreeOutput (exams : list Exam) (rooms : list string)
    (numDays : nat) : Prop :=
  ∀ x y, x ∈ generateExamSchedule exams rooms numDays →
         y ∈ generateExamSchedule exams rooms numDays →
         ¬ clash (buildConflictMatrix (eligibleExams exams)) x y.

(** The day, slot and room a record books. *)
Definition booking (x : ScheduledExam) : string * string * string :=
  (DAY x, SLOT x, ROOM x).

(** No two distinct output entries book the same day, slot and room. *)
Definition noDoubleBooking (output : list ScheduledExam) : Prop :=
  ∀ i j x y, i ≠ j → output !! i = Some x → output !! j = Some y →
             booking x ≠ booking y.

(** The section code and slot label of a record. *)
Definition codeAndSlot (x : ScheduledExam) : string * string := (CODE x, SLOT x).

(** The two records one call of [schedule6UnitExam] writes for a section:
    one day, two consecutive slots, one room. *)
Definition doubleSlotPair (output : list (string * ScheduledExam)) (exam : Exam)
    (day slot : nat) (room : string) : Prop :=
  slot + 1 < length TIME_SLOTS
  ∧ OMap.get (scheduledKey (code exam) (slotKey slot)) output
    = Some (mkScheduledExam exam (dayKey day) (slotKey slot) room)
  ∧ OMap.get (scheduledKey (code exam) (slotKey (slot + 1))) output
    = Some (mkScheduledExam exam (dayKey day) (slotKey (slot + 1)) room).

(** Every eligible section of [subject] belongs to the cohort [k]. *)
Definition soleCohort (eligible : list Exam) (subject k : string) : Prop :=
  ∀ e, e ∈ eligible → normSubject e = subject → courseYearKey e = Some k.

(** The record sits where the ledger records its subject. *)
Definition currentPlacement (w : World) (x : ScheduledExam) : Prop :=
  subjectScheduled (state w) !! recordSubject x = Some (DAY x, SLOT x).

(** ** Worlds the scheduler can reach *)

(** The worlds a run can be in: the empty world, and what a commit makes of
    a reachable world.  A commit places one eligible section, a single-slot
    section by one [scheduleExam], a double-unit section by the two of
    [schedule6UnitExam].  Every commit happens at a day and slot that pass
    the conflict check in the ledger as it stands, and, when the room list
    repeats no identifier, into a room that is free in each slot it claims. *)
Inductive Reachable (eligible : list Exam) (rooms : list string)
    (cm : ConflictMatrix) : World → Prop :=
  | Reachable_empty : Reachable eligible rooms cm emptyWorld
  | Reachable_single exam day slot room w :
      Reachable eligible rooms cm w →
      exam ∈ eligible → is6UnitSubject exam = false →
      slot < length TIME_SLOTS → room ∈ rooms →
      hasConflict exam day slot (state w) cm = false →
      (NoDup rooms →
       room ∉ occupiedRooms (state w) (dayKey day) (slotKey slot)) →
      Reachable eligible rooms cm (scheduleExam exam day slot room w false)
  | Reachable_double exam day slot room w :
      Reachable eligible rooms cm w →
      exam ∈ eligible → is6UnitSubject exam = true →
      slot + 1 < length TIME_SLOTS → room ∈ rooms →
      hasConflict exam day slot (state w) cm = false →
      (NoDup rooms →
       (room ∉ occupiedRooms (state w) (dayKey day) (slotKey slot))
       ∧ room ∉ occupiedRooms (state w) (dayKey day) (slotKey (slot + 1))) →
      Reachable eligible rooms cm
        (scheduleExam exam day (slot + 1) room
           (scheduleExam exam day slot room w false) true).

(** One commit, as a step from the world before it to the world after
    it, with the guards of [Reachable]: a single-slot section by one
    [scheduleExam], a double-unit section by the two of
    [schedule6UnitExam], the conflict check having passed at the day and
    slot of the attempt in the ledger of the world before.  A run is a
    chain of such steps ([rtc CommitStep]) from the empty world. *)
Inductive CommitStep (eligible : list Exam) (rooms : list string)
    (cm : ConflictMatrix) (w : World) : World → Prop :=
  | CommitStep_single exam day slot room :
      exam ∈ eligible → is6UnitSubject exam = false →
      slot < length TIME_SLOTS → room ∈ rooms →
      hasConflict exam day slot (state w) cm = false →
      (NoDup rooms →
       room ∉ occupiedRooms (state w) (dayKey day) (slotKey slot)) →
      CommitStep eligible rooms cm w (scheduleExam exam day slot room w false)
  | CommitStep_double exam day slot room :
      exam ∈ eligible → is6UnitSubject exam = true →
      slot + 1 < length TIME_SLOTS → room ∈ rooms →
      hasConflict exam day slot (state w) cm = false →
      (NoDup rooms →
       (room ∉ occupiedRooms (state w) (dayKey day) (slotKey slot))
       ∧ room ∉ occupiedRooms (state w) (dayKey day) (slotKey (slot + 1))) →
      CommitStep eligible rooms cm w
        (scheduleExam exam day (slot + 1) room
           (scheduleExam exam day slot room w false) true).

(** What every phase maintains of its result: a reachable world and
    eligible deferred sections. *)
Definition phaseOK (eligible : list Exam) (rooms : list string)
    (cm : ConflictMatrix) (acc : PhaseResult) : Prop :=
  Reachable eligible rooms cm (world acc) ∧ ∀ e, e ∈ failed acc → e ∈ eligible.

(** ** Sample sections and inputs *)

(** A section given by the fields the scheduler decides on. *)
Definition sampleExam (c subj : string) (crs : option string) (yr : option nat)
    (d : string) (units : nat) : Exam :=
  {| code := c; subjectId := subj; title := "Exam"; course := crs;
     yearLevel := yr; instructor := "Staff"; dept := d; oe := 0; lec := units;
     studentCount := 30; isRegular := true; lectureRoom := None |}.

(** What identifies an output record in the examples. *)
Definition placement (x : ScheduledExam) : string * string * string * string :=
  (CODE x, DAY x, SLOT x, ROOM x).

(** A subject that is mathematics and architecture at once, in lower case. *)
Definition examMathArch : Exam :=
  sampleExam "m1" "matharch1" (Some "BSCE") (Some 2) "sace" 3.

(** A section without a course. *)
Definition examNoCourse : Exam :=
  sampleExam "n1" "CS101" None (Some 1) "SACE" 3.

(** Three sections, one of them of the student-affairs department. *)
Definition examsWithSAS : list Exam :=
  [ sampleExam "c1" "CS101" (Some "BSIT") (Some 1) "SACE" 3;
    sampleExam "s1" "NSTP1" (Some "BSIT") (Some 1) "sas" 3;
    sampleExam "c2" "CS102" (Some "BSIT") (Some 1) "SACE" 3 ].

(** A double-unit section and a single-unit section of the same cohort. *)
Definition examsDoubleThenSingle : list Exam :=
  [ sampleExam "x1" "CS201" (Some "BSIT") (Some 1) "SACE" 6;
    sampleExam "y1" "CS202" (Some "BSIT") (Some 1) "SACE" 3 ].

(** Two sections of one subject. *)
Definition examsTwoSections : list Exam :=
  [ sampleExam "p1" "CS301" None None "SACE" 3;
    sampleExam "q1" "CS301" None None "SACE" 3 ].

(** A single-unit and a double-unit section of one subject. *)
Definition examsMixedUnits : list Exam :=
  [ sampleExam "a1" "CS101" (Some "BSIT") (Some 1) "SACE" 3;
    sampleExam "b1" "CS101" (Some "BSIT") (Some 1) "SACE" 6 ].

(** Seven single-section subjects of one cohort, then a subject with a
    single-unit section of that cohort and a double-unit section. *)
Definition examsPartialFailure : list Exam :=
  [ sampleExam "y1" "IT201" (Some "BSIT") (Some 2) "SACE" 3;
    sampleExam "y2" "IT202" (Some "BSIT") (Some 2) "SACE" 3;
    sampleExam "y3" "IT203" (Some "BSIT") (Some 2) "SACE" 3;
    sampleExam "y4" "IT204" (Some "BSIT") (Some 2) "SACE" 3;
    sampleExam "y5" "IT205" (Some "BSIT") (Some 2) "SACE" 3;
    sampleExam "y6" "IT206" (Some "BSIT") (Some 2) "SACE" 3;
    sampleExam "y7" "IT207" (Some "BSIT") (Some 2) "SACE" 3;
    sampleExam "a1" "IT210" (Some "BSIT") (Some 2) "SACE" 3;
    sampleExam "b1" "IT210" None None "SACE" 6 ].

(** A double-unit section whose subject identifier starts with a
    general-education prefix and contains ARCH. *)
Definition examLiteratureResearch : Exam :=
  sampleExam "r1" "LITR-RESEARCH" (Some "BSED") (Some 3) "SHAS" 6.

(** A double-unit section that is a mathematics subject and an
    architecture subject at once. *)
Definition examMathForArchitecture : Exam :=
  sampleExam "m6" "MATHARCH1" (Some "BSAR") (Some 1) "SACE" 6.

(** The section of scenario A, owned by another department. *)
Definition examEthics : Exam :=
  sampleExam "e1" "ETHC101" (Some "BSIT") (Some 1) "SHAS" 3.

(** The section of scenario A, owned by the student-affairs department. *)
Definition examEthicsSAS : Exam :=
  sampleExam "e1" "ETHC101" (Some "BSIT") (Some 1) "SAS" 3.

(** ** The reported total *)

(** The counter [totalScheduled] of [generateExamSchedule]: the sum of
    what the four phases report as scheduled. *)
Definition totalScheduled (exams : list Exam) (rooms : list string) (numDays : nat) : nat :=
  let eligible := eligibleExams exams in
  let conflictMatrix := buildConflictMatrix eligible in
  let genEds := filter (λ e, isGenEdSubject (subjectId e)) eligible in
  let mathSubjects := filter (λ e, isMathSubject e) eligible in
  let archSubjects := filter (λ e, isArchSubject (subjectId e)) eligible in
  let majorSubjects :=
    filter (λ e, negb (isGenEdSubject (subjectId e)) && negb (isMathSubject e)
                 && negb (isArchSubject (subjectId e))) eligible in
  let phase1 := scheduleGenEdTimeBlocks genEds rooms conflictMatrix numDays emptyWorld in
  let phase2 :=
    scheduleHighPriority (mathSubjects ++ archSubjects) rooms conflictMatrix numDays
      (world phase1) in
  let phase3 :=
    scheduleMajorSubjects majorSubjects rooms conflictMatrix numDays (world phase2) in
  let allFailed := failed phase1 ++ failed phase2 ++ failed phase3 in
  let phase4Count :=
    fst (scheduleIndividually allFailed rooms conflictMatrix numDays (world phase3)) in
  scheduledCount phase1 + scheduledCount phase2 + scheduledCount phase3 + phase4Count.

(** ** Vocabulary for commits, scans and phases *)

(** The slot a commit writes: the slot of the attempt, or the next one for
    the second record of a double-unit section. *)
Definition commitSlot (slot : nat) (isSecondSlotOf6Unit : bool) : nat :=
  if isSecondSlotOf6Unit then slot + 1 else slot.

(** A record written into a time block of its general-education type: on
    the block's day, in the block's slot or, for a double-unit section, in
    the slot after it. *)
Definition inTimeBlock (numDays : nat) (x : ScheduledExam) : Prop :=
  ∃ genEdType blocks b,
    getGenEdType (SUBJECT_ID x) = Some genEdType
    ∧ OMap.get genEdType GEN_ED_TIME_BLOCKS = Some blocks
    ∧ b ∈ blocks ∧ blockDay b < numDays
    ∧ DAY x = dayKey (blockDay b)
    ∧ (SLOT x = slotKey (blockSlot b)
       ∨ (UNITS x = 6 ∧ SLOT x = slotKey (blockSlot b + 1))).

(** What a phase has accounted for when the sections it counted as
    scheduled and the sections it deferred are together the sections
    [given], each as often. *)
Definition accountsFor (result : PhaseResult) (given : list Exam) : Prop :=
  ∃ placed, scheduledCount result = length placed
            ∧ placed ++ failed result ≡ₚ given.

(** The cell [(d, s)] comes before the cell [(day, slot)] in the scan of
    the grid: an earlier day, or the same day and an earlier slot. *)
Definition earlierCell (d s day slot : nat) : Prop :=
  s < length TIME_SLOTS ∧ (d < day ∨ (d = day ∧ s < slot)).

(** An individual attempt has nothing to offer at a cell: the section has
    a conflict there, or no allowed room is free, or it is a double-unit
    section and the cell is in the last slot of the day. *)
Definition refusedAlone (exam : Exam) (allRooms : list string)
    (conflictMatrix : ConflictMatrix) (day slot : nat) (w : World) : Prop :=
  hasConflict exam day slot (state w) conflictMatrix = true
  ∨ getAvailableRooms exam day slot allRooms (state w) (is6UnitSubject exam) = []
  ∨ (is6UnitSubject exam = true ∧ (length TIME_SLOTS ≤ slot + 1)%nat).

(** A group call has nothing to offer at a cell: a member has a conflict
    there, or fewer rooms are available to the first member than the group
    has sections. *)
Definition refusedGroup (examGroup : list Exam) (allRooms : list string)
    (conflictMatrix : ConflictMatrix) (day slot : nat) (w : World) : Prop :=
  (∃ e, e ∈ examGroup ∧ hasConflict e day slot (state w) conflictMatrix = true)
  ∨ ∃ first rest, examGroup = first :: rest
      ∧ (length (getAvailableRooms first day slot allRooms (state w)
                   (existsb is6UnitSubject examGroup))
         < length examGroup)%nat.

(** The same two refusals in the earlier variant. *)
Definition refusedAloneV4 (exam : Exam) (allRooms : list string)
    (conflictMatrix : ConflictMatrix) (day slot : nat) (w : World) : Prop :=
  hasConflict exam day slot (state w) conflictMatrix = true
  ∨ V4.getAvailableRooms exam day slot allRooms (state w) = [].

Definition refusedGroupV4 (examGroup : list Exam) (allRooms : list string)
    (conflictMatrix : ConflictMatrix) (day slot : nat) (w : World) : Prop :=
  (∃ e, e ∈ examGroup ∧ hasConflict e day slot (state w) conflictMatrix = true)
  ∨ ∃ first rest, examGroup = first :: rest
      ∧ (length (V4.getAvailableRooms first day slot allRooms (state w))
         < length examGroup)%nat.

(** The world [w'] holds everything [w] holds: the keys of the output
    accumulator of [w] head those of [w'] in the same order, every room
    booked in [w] is booked in [w'], and every subject with a recorded
    placement in [w] has one in [w']. *)
Definition extends (w w' : World) : Prop :=
  OMap.keys (scheduled w) `prefix_of` OMap.keys (scheduled w')
  ∧ (∀ dk sk room, room ∈ occupiedRooms (state w) dk sk →
                   room ∈ occupiedRooms (state w') dk sk)
  ∧ (∀ subject, is_Some (subjectScheduled (state w) !! subject) →
                is_Some (subjectScheduled (state w') !! subject)).

(** ** More sample inputs *)

(** A run for an architecture subject: its section, in lower case, and a
    room list in which a room of another building comes first. *)
Definition examsArchitecture : list Exam :=
  [ sampleExam "a1" "arch101" (Some "BSAR") (Some 1) "SACE" 3 ].

Definition roomsArchitecture : list string := ["N-1"; "C-1"; "K-1"].

(** What the earlier variant gives for [examsTwoSections] with two rooms
    and one day. *)
Definition examsTwoSectionsOutputV4 : list ScheduledExam :=
  [ V4.mkScheduledExam (sampleExam "p1" "CS301" None None "SACE" 3)
      "Day 1" "7:30-9:00" "N-1";
    V4.mkScheduledExam (sampleExam "q1" "CS301" None None "SACE" 3)
      "Day 1" "7:30-9:00" "N-2" ].

(** * Properties *)

(** ** Ordered maps *)

Lemma OMap_push_keys {A} k (x : A) m :
  OMap.keys (OMap.push k x m) = if bool_decide (k ∈ OMap.keys m) then OMap.keys m else OMap.keys m ++ [k].
Proof.
  induction m as [|[k' xs] m IH]; simpl; [done|].
  destruct (String.eqb_spec k' k) as [->|Hne]; simpl.
  - rewrite bool_decide_eq_true_2; [done|left].
  - rewrite IH. unfold OMap.keys in *.
    destruct (bool_decide_reflect (k ∈ map fst m)) as [Hin|Hin].
    + rewrite bool_decide_eq_true_2; [done|by right].
    + rewrite bool_decide_eq_false_2; [done|].
      rewrite elem_of_cons. naive_solver.
Qed.

Lemma OMap_push_NoDup {A} k (x : A) m :
  NoDup (OMap.keys m) → NoDup (OMap.keys (OMap.push k x m)).
Proof.
  intros Hnd. rewrite OMap_push_keys. case_bool_decide; [done|].
  apply NoDup_app. split_and!; [done| |apply NoDup_singleton].
  intros y Hy Hy'. apply list_elem_of_singleton in Hy'. by subst.
Qed.

Lemma OMap_get_push {A} k (x : A) m k' :
  OMap.get k' (OMap.push k x m)
  = if decide (k' = k) then Some (default [] (OMap.get k m) ++ [x]) else OMap.get k' m.
Proof.
  induction m as [|[k0 xs] m IH]; simpl.
  - destruct (String.eqb_spec k k') as [->|Hne]; case_decide; naive_solver.
  - destruct (String.eqb_spec k0 k) as [->|Hne]; simpl.
    + destruct (String.eqb_spec k k') as [->|Hne']; case_decide; naive_solver.
    + destruct (String.eqb_spec k0 k') as [->|Hne'].
      * case_decide; [congruence|done].
      * apply IH.
Qed.

Lemma OMap_get_elem {V} k (v : V) m : OMap.get k m = Some v → (k, v) ∈ m.
Proof.
  induction m as [|[k0 v0] m IH]; simpl; [done|].
  destruct (String.eqb_spec k0 k) as [->|Hne].
  - intros [= ->]. left.
  - intros H. right. by apply IH.
Qed.

Lemma OMap_elem_get {V} k (v : V) m :
  NoDup (OMap.keys m) → (k, v) ∈ m → OMap.get k m = Some v.
Proof.
  induction m as [|[k0 v0] m IH]; simpl.
  - by intros _ ?%elem_of_nil.
  - intros [Hk0 Hnd]%NoDup_cons [Heq|Hin]%elem_of_cons.
    + inversion Heq; subst. by rewrite String.eqb_refl.
    + destruct (String.eqb_spec k0 k) as [->|Hne]; [|by apply IH].
      exfalso. apply Hk0. unfold OMap.keys.
      apply list_elem_of_fmap. by exists (k, v).
Qed.

(** ** Grouping *)

Section GroupBy.
Context {A : Type} (key : A → option string).

Lemma groupBy_snoc l x :
  OMap.groupBy key (l ++ [x])
  = match key x with
    | Some k => OMap.push k x (OMap.groupBy key l)
    | None => OMap.groupBy key l
    end.
Proof. unfold OMap.groupBy. by rewrite fold_left_app. Qed.

Lemma groupBy_NoDup l : NoDup (OMap.keys (OMap.groupBy key l)).
Proof.
  induction l as [|x l IH] using rev_ind; [constructor|].
  rewrite groupBy_snoc. destruct (key x); [by apply OMap_push_NoDup|done].
Qed.

Lemma groupBy_get l k :
  OMap.get k (OMap.groupBy key l)
  = match filter (λ x, key x = Some k) l with [] => None | g => Some g end.
Proof.
  induction l as [|x l IH] using rev_ind; [done|].
  rewrite groupBy_snoc, filter_app.
  destruct (key x) as [kx|] eqn:Hkx.
  - rewrite OMap_get_push. case_decide as Hk.
    + subst kx. rewrite IH, filter_cons_True by done. simpl.
      destruct (filter _ l); done.
    + rewrite IH, filter_cons_False by congruence.
      simpl. by rewrite app_nil_r.
  - rewrite IH, filter_cons_False by congruence.
    simpl. by rewrite app_nil_r.
Qed.

Lemma groupBy_elem l k g :
  (k, g) ∈ OMap.groupBy key l ↔ g = filter (λ x, key x = Some k) l ∧ g ≠ [].
Proof.
  split.
  - intros Hin. apply OMap_elem_get in Hin; [|apply groupBy_NoDup].
    rewrite groupBy_get in Hin. destruct (filter _ l); naive_solver.
  - intros [-> Hne]. apply OMap_get_elem. rewrite groupBy_get.
    by destruct (filter _ l).
Qed.

Lemma groupBy_member l k g x :
  (k, g) ∈ OMap.groupBy key l → x ∈ g → x ∈ l ∧ key x = Some k.
Proof.
  intros [-> _]%groupBy_elem Hx. by apply list_elem_of_filter in Hx as [? ?].
Qed.

End GroupBy.

(** ** The conflict matrix *)

Lemma rowEdge_insert_union (row : gmap string (gset string)) s1 s2 A B :
  rowEdge (<[s1 := default ∅ (row !! s1) ∪ {[s2]}]> row) A B
  ↔ rowEdge row A B ∨ (A = s1 ∧ B = s2).
Proof.
  unfold rowEdge. destruct (decide (A = s1)) as [->|Hne].
  - rewrite lookup_insert_eq. split.
    + intros (c & [= <-] & [Hin|Hin]%elem_of_union).
      * left. destruct (row !! s1) as [c0|]; [by exists c0|set_solver].
      * right. set_solver.
    + intros [(c & Hc & Hin)|[_ ->]]; eexists; (split; [done|]).
      * rewrite Hc. set_solver.
      * set_solver.
  - rewrite lookup_insert_ne by done. naive_solver.
Qed.

Lemma rowEdge_init (row : gmap string (gset string)) s1 A B :
  rowEdge (match row !! s1 with Some _ => row | None => <[s1 := ∅]> row end) A B
  ↔ rowEdge row A B.
Proof.
  destruct (row !! s1) eqn:Hs1; [done|]. unfold rowEdge.
  destruct (decide (A = s1)) as [->|Hne].
  - rewrite lookup_insert_eq, Hs1. split; [|naive_solver].
    intros (c & [= <-] & Hin). set_solver.
  - by rewrite lookup_insert_ne.
Qed.

Lemma addConflictsOf_edge groupExams row exam1 A B :
  rowEdge (addConflictsOf groupExams row exam1) A B
  ↔ rowEdge row A B
    ∨ (A = normSubject exam1
       ∧ ∃ exam2, exam2 ∈ groupExams ∧ normSubject exam2 = B
                  ∧ code exam1 ≠ code exam2 ∧ A ≠ B).
Proof.
  unfold addConflictsOf.
  rewrite <- (rowEdge_init row (normSubject exam1) A B).
  generalize (match row !! normSubject exam1 with
              | Some _ => row | None => <[normSubject exam1 := ∅]> row end).
  induction groupExams as [|e2 l IH]; intros r; simpl.
  - split; [by left|]. intros [?|(_ & ? & []%elem_of_nil & _)]; done.
  - rewrite IH. clear IH.
    destruct (String.eqb_spec (code exam1) (code e2)) as [Hc|Hc]; simpl.
    { split; [intros [?|(? & x & ? & ?)]; [by left|right]|].
      - split; [done|]. exists x. split; [by right|done].
      - intros [?|(? & x & [->|?]%elem_of_cons & ? & ? & ?)]; [by left|done|].
        right. split; [done|by exists x]. }
    destruct (String.eqb_spec (normSubject exam1) (normSubject e2)) as [Hs|Hs]; simpl.
    { split; [intros [?|(? & x & ? & ?)]; [by left|right]|].
      - split; [done|]. exists x. split; [by right|done].
      - intros [?|(? & x & [->|?]%elem_of_cons & ? & ? & ?)]; [by left|congruence|].
        right. split; [done|by exists x]. }
    rewrite rowEdge_insert_union. split.
    + intros [[?|[-> ->]]|(? & x & ? & ?)]; [by left|right..].
      * split; [done|]. exists e2. split; [left|done].
      * split; [done|]. exists x. split; [by right|done].
    + intros [?|(-> & x & [->|?]%elem_of_cons & ? & ? & ?)].
      * by left; left.
      * left; right. done.
      * right. split; [done|]. by exists x.
Qed.

Lemma addConflicts_fold_edge groupExams l row A B :
  rowEdge (fold_left (addConflictsOf groupExams) l row) A B
  ↔ rowEdge row A B
    ∨ ∃ exam1 exam2, exam1 ∈ l ∧ exam2 ∈ groupExams
        ∧ normSubject exam1 = A ∧ normSubject exam2 = B
        ∧ code exam1 ≠ code exam2 ∧ A ≠ B.
Proof.
  revert row. induction l as [|e1 l IH]; intros row; simpl.
  - split; [by left|]. intros [?|(? & ? & []%elem_of_nil & _)]. done.
  - rewrite IH, addConflictsOf_edge. split.
    + intros [[?|(-> & x & ? & ? & ? & ?)]|(x1 & x2 & ? & ?)]; [by left|right..].
      * exists e1, x. split; [left|done].
      * exists x1, x2. split; [by right|done].
    + intros [?|(x1 & x2 & [->|?]%elem_of_cons & ? & ? & ? & ? & ?)].
      * by left; left.
      * left; right. split; [done|]. by exists x2.
      * right. by exists x1, x2.
Qed.

Lemma rowEdge_empty A B : ¬ rowEdge ∅ A B.
Proof. intros (c & Hc & _). by rewrite lookup_empty in Hc. Qed.

(** The row the builder stores for one course-year group. *)
Lemma buildConflictMatrix_fold groups (matrix : ConflictMatrix) k :
  NoDup (OMap.keys groups) →
  fold_left
    (λ (matrix : ConflictMatrix) '(courseYear, groupExams),
       let row0 := default ∅ (matrix !! courseYear) in
       <[courseYear := fold_left (addConflictsOf groupExams) groupExams row0]> matrix)
    groups matrix !! k
  = match OMap.get k groups with
    | Some g => Some (fold_left (addConflictsOf g) g (default ∅ (matrix !! k)))
    | None => matrix !! k
    end.
Proof.
  revert matrix. induction groups as [|[k0 g0] groups IH]; intros matrix Hnd; simpl; [done|].
  apply NoDup_cons in Hnd as [Hk0 Hnd]. rewrite IH by done.
  destruct (String.eqb_spec k0 k) as [->|Hne].
  - destruct (OMap.get k groups) as [g|] eqn:Hg.
    + exfalso. apply Hk0. apply OMap_get_elem in Hg.
      unfold OMap.keys. apply list_elem_of_fmap. by exists (k, g).
    + by rewrite lookup_insert_eq.
  - by rewrite lookup_insert_ne.
Qed.

Lemma buildConflictMatrix_lookup exams k :
  buildConflictMatrix exams !! k
  = match filter (λ e, courseYearKey e = Some k) exams with
    | [] => None
    | g => Some (fold_left (addConflictsOf g) g ∅)
    end.
Proof.
  unfold buildConflictMatrix.
  rewrite buildConflictMatrix_fold by apply groupBy_NoDup.
  rewrite groupBy_get, lookup_empty. by destruct (filter _ exams).
Qed.

(** The matrix holds exactly the edges the specification describes. *)
Lemma buildConflictMatrix_edges exams k A B :
  inMatrix (buildConflictMatrix exams) k A B ↔ conflictEdge exams k A B.
Proof.
  unfold inMatrix, conflictEdge. rewrite buildConflictMatrix_lookup.
  set (g := filter (λ e, courseYearKey e = Some k) exams).
  assert (Hg : ∀ e, e ∈ g ↔ courseYearKey e = Some k ∧ e ∈ exams)
    by (intros e; unfold g; by rewrite list_elem_of_filter).
  split.
  - intros (row & c & Hrow & Hc & Hin).
    assert (Hedge : rowEdge (fold_left (addConflictsOf g) g ∅) A B).
    { destruct g; [done|]. injection Hrow as <-. by exists c. }
    apply addConflicts_fold_edge in Hedge as [[]%rowEdge_empty|Hedge].
    destruct Hedge as (e1 & e2 & [? ?]%Hg & [? ?]%Hg & ?). by exists e1, e2.
  - intros (e1 & e2 & He1 & He2 & Hk1 & Hk2 & Hrest).
    assert (Hedge : rowEdge (fold_left (addConflictsOf g) g ∅) A B).
    { apply addConflicts_fold_edge. right. exists e1, e2.
      split; [by apply Hg|]. split; [by apply Hg|done]. }
    destruct Hedge as (c & Hc & Hin).
    assert (g ≠ []) as Hne.
    { intros Hnil. assert (e1 ∈ g) as Hin1 by by apply Hg.
      rewrite Hnil in Hin1. by apply elem_of_nil in Hin1. }
    exists (fold_left (addConflictsOf g) g ∅), c. by destruct g.
Qed.

Lemma buildConflictMatrix_irrefl exams k A :
  ¬ inMatrix (buildConflictMatrix exams) k A A.
Proof. intros (? & ? & ? & ? & ? & ? & ? & ? & ? & ?)%buildConflictMatrix_edges. done. Qed.

Lemma groupBy_skip {A} (key : A → option string) l1 x l2 :
  key x = None → OMap.groupBy key (l1 ++ x :: l2) = OMap.groupBy key (l1 ++ l2).
Proof. intros Hx. unfold OMap.groupBy. rewrite !fold_left_app. simpl. by rewrite Hx. Qed.

Lemma hasConflict_no_key exam day slot st cm :
  courseYearKey exam = None → hasConflict exam day slot st cm = false.
Proof. intros H. unfold hasConflict. by rewrite H. Qed.

Lemma courseYearKey_missing exam :
  course exam = None ∨ yearLevel exam = None → courseYearKey exam = None.
Proof. unfold courseYearKey. intros [->| ->]; [done|by destruct (course exam)]. Qed.

(** ** Strings *)

Lemma append_cons c p q : String c p +:+ q = String c (p +:+ q).
Proof. reflexivity. Qed.

Lemma prefix_spec p s : String.prefix p s = true ↔ ∃ post, s = p +:+ post.
Proof.
  revert s. induction p as [|c p IH]; intros s.
  - destruct s; split; eauto.
  - destruct s as [|c' s]; cbn [String.prefix];
      [split; [done|by intros [? ?]]|].
    destruct (Ascii.ascii_dec c c') as [->|Hne].
    + rewrite IH. split; intros [post Hpost]; exists post;
        rewrite append_cons in *; congruence.
    + split; [done|]. intros [post Hpost].
      rewrite append_cons in Hpost. congruence.
Qed.

Lemma includes_unfold s p :
  Str.includes s p
  = String.prefix p s
    || match s with EmptyString => false | String _ r => Str.includes r p end.
Proof. by destruct s. Qed.

Lemma includes_spec s p :
  Str.includes s p = true ↔ ∃ pre post, s = pre +:+ p +:+ post.
Proof.
  induction s as [|c s IH]; rewrite includes_unfold.
  - rewrite orb_false_r, prefix_spec. split.
    + intros [post ->]. by exists EmptyString, post.
    + intros ([|? pre] & post & Heq); [by exists post|done].
  - rewrite orb_true_iff, IH, prefix_spec. split.
    + intros [[post ->]|(pre & post & ->)].
      * by exists EmptyString, post.
      * by exists (String c pre), post.
    + intros ([|c' pre] & post & Heq).
      * left. by exists post.
      * right. rewrite append_cons in Heq. injection Heq as -> ->. by exists pre, post.
Qed.

(** ** The classifier *)

(** C7.  For every section, [calculatePriority] tests the tiers in the
    order general-education, mathematics, architecture, major: a
    general-education section gets the general-education weight whatever
    else it matches; a section that is not general-education but is
    mathematics (upper-cased subject identifier starts with MATH and
    upper-cased department is SACE) gets the mathematics weight; a section
    that is neither but is architecture (upper-cased subject identifier
    contains ARCH somewhere) gets the architecture weight; every other
    section gets the major weight.  The weights are 100000, 50000, 40000
    and 10000, strictly descending in that order. *)
Theorem calculatePriority_tier_order exam :
  (isGenEdSubject (subjectId exam) = true →
     calculatePriority exam = PRIORITY_LEVELS.GEN_ED)
  ∧ (isGenEdSubject (subjectId exam) = false → isMathSubject exam = true →
     calculatePriority exam = PRIORITY_LEVELS.MATH)
  ∧ (isGenEdSubject (subjectId exam) = false → isMathSubject exam = false →
     isArchSubject (subjectId exam) = true →
     calculatePriority exam = PRIORITY_LEVELS.ARCH)
  ∧ (isGenEdSubject (subjectId exam) = false → isMathSubject exam = false →
     isArchSubject (subjectId exam) = false →
     calculatePriority exam = PRIORITY_LEVELS.MAJOR)
  ∧ (isMathSubject exam = true ↔
     (∃ rest, Str.toUpperCase (subjectId exam) = "MATH" +:+ rest)
     ∧ Str.toUpperCase (dept exam) = "SACE")
  ∧ (isArchSubject (subjectId exam) = true ↔
     ∃ pre post, Str.toUpperCase (subjectId exam) = pre +:+ "ARCH" +:+ post)
  ∧ PRIORITY_LEVELS.GEN_ED = 100000%N ∧ PRIORITY_LEVELS.MATH = 50000%N
  ∧ PRIORITY_LEVELS.ARCH = 40000%N ∧ PRIORITY_LEVELS.MAJOR = 10000%N
  ∧ (PRIORITY_LEVELS.MAJOR < PRIORITY_LEVELS.ARCH < PRIORITY_LEVELS.MATH)%N
  ∧ (PRIORITY_LEVELS.MATH < PRIORITY_LEVELS.GEN_ED)%N.
Proof.
  unfold calculatePriority. split_and!; try reflexivity.
  - by intros ->.
  - by intros -> ->.
  - by intros -> -> ->.
  - by intros -> -> ->.
  - unfold isMathSubject, Str.startsWith.
    by rewrite andb_true_iff, prefix_spec, String.eqb_eq.
  - unfold isArchSubject. apply includes_spec.
Qed.

Lemma calculatePriority_tier_order_witness :
  calculatePriority examMathArch = PRIORITY_LEVELS.MATH.
Proof.
  apply (calculatePriority_tier_order examMathArch); reflexivity.
Defined.

(** ** Symmetry of the conflict matrix *)

(** C6.  For every exam list the matrix built by [buildConflictMatrix] is
    symmetric (B is listed under A for key k exactly when A is listed under
    B for k), and B is listed under A for k exactly when two sections of
    the list share key k, have different section codes, and have the
    different normalized subject identifiers A and B.  The builder of the
    earlier variant is the same function. *)
Theorem buildConflictMatrix_symmetric exams k A B :
  (inMatrix (buildConflictMatrix exams) k A B
   ↔ inMatrix (buildConflictMatrix exams) k B A)
  ∧ (inMatrix (buildConflictMatrix exams) k A B ↔ conflictEdge exams k A B)
  ∧ V4.buildConflictMatrix exams = buildConflictMatrix exams.
Proof.
  split_and!; [|apply buildConflictMatrix_edges|done].
  rewrite !buildConflictMatrix_edges. unfold conflictEdge.
  split; intros (e1 & e2 & ? & ? & ? & ? & ? & ? & ? & ?);
    exists e2, e1; split_and!; done.
Qed.

(** ** Sections without course or year level *)

(** C8.  A section whose course or year level is missing takes no part in
    conflict computation: the matrix built from a list that contains it is
    the matrix built from the list without it, every edge of a matrix comes
    from two sections that both carry a course-year key, and [hasConflict]
    answers false for it at every day and slot, whatever the ledger and the
    matrix. *)
Theorem missing_course_year_excluded exam :
  course exam = None ∨ yearLevel exam = None →
  (∀ before after,
     buildConflictMatrix (before ++ exam :: after)
     = buildConflictMatrix (before ++ after))
  ∧ (∀ exams k A B,
       inMatrix (buildConflictMatrix exams) k A B →
       ∃ e1 e2, e1 ∈ exams ∧ e2 ∈ exams ∧ e1 ≠ exam ∧ e2 ≠ exam
                ∧ normSubject e1 = A ∧ normSubject e2 = B)
  ∧ (∀ day slot st cm, hasConflict exam day slot st cm = false).
Proof.
  intros Hkey%courseYearKey_missing. split_and!.
  - intros before after. unfold buildConflictMatrix. by rewrite groupBy_skip.
  - intros exams k A B (e1 & e2 & ? & ? & ? & ? & ? & ? & _)%buildConflictMatrix_edges.
    exists e1, e2. split_and!; try done; congruence.
  - intros. by apply hasConflict_no_key.
Qed.

Lemma missing_course_year_excluded_witness :
  hasConflict examNoCourse 0 0 (state emptyWorld) (buildConflictMatrix [examNoCourse]) = false.
Proof.
  apply (missing_course_year_excluded examNoCourse). left. reflexivity.
Defined.

(** ** The ledger *)

Lemma slotKey_inj s s' :
  s < length TIME_SLOTS → s' < length TIME_SLOTS → slotKey s = slotKey s' → s = s'.
Proof.
  simpl. intros Hs Hs'.
  do 8 (destruct s as [|s]; [do 8 (destruct s' as [|s']; [done|]); lia|]). lia.
Qed.

Lemma occupiedRooms_claimRoom st dk sk room subjects dk' sk' :
  occupiedRooms {| roomUsage := claimRoom dk sk room (roomUsage st);
                   subjectScheduled := subjects |} dk' sk'
  = if decide (dk' = dk ∧ sk' = sk)
    then occupiedRooms st dk sk ∪ {[room]}
    else occupiedRooms st dk' sk'.
Proof.
  unfold occupiedRooms, claimRoom. simpl.
  destruct (decide (dk' = dk)) as [->|Hd].
  - rewrite lookup_insert_eq. simpl. destruct (decide (sk' = sk)) as [->|Hs].
    + rewrite lookup_insert_eq. by rewrite decide_True.
    + rewrite lookup_insert_ne by done. rewrite decide_False by naive_solver. done.
  - rewrite lookup_insert_ne by done. rewrite decide_False by naive_solver. done.
Qed.

Lemma occupiedRooms_scheduleExam exam day slot room w b dk sk :
  occupiedRooms (state (scheduleExam exam day slot room w b)) dk sk
  = if decide (dk = dayKey day ∧ sk = slotKey slot)
    then occupiedRooms (state w) (dayKey day) (slotKey slot) ∪ {[room]}
    else occupiedRooms (state w) dk sk.
Proof. unfold scheduleExam. simpl. apply occupiedRooms_claimRoom. Qed.

Lemma existsb_false_elem {A} (f : A → bool) l :
  existsb f l = false ↔ ∀ x, x ∈ l → f x = false.
Proof.
  induction l as [|x l IH]; simpl.
  - split; [|done]. by intros _ ? ?%elem_of_nil.
  - rewrite orb_false_iff, IH. split.
    + intros [? ?] y [->|?]%elem_of_cons; auto.
    + intros H. split; [apply H; left|]. intros y Hy. apply H. by right.
Qed.

(** The boolean check and its reading as a property of the ledger. *)
Lemma hasConflict_false exam day slot st cm :
  hasConflict exam day slot st cm = false ↔ conflictFreeAt cm st exam day slot.
Proof.
  unfold hasConflict, conflictFreeAt, inMatrix.
  destruct (courseYearKey exam) as [k|]; [|naive_solver].
  destruct (cm !! k) as [row|] eqn:Hrow; [|naive_solver].
  destruct (row !! normSubject exam) as [c|] eqn:Hc.
  2:{ split; [|done]. intros _ k' other [= <-] (row' & c' & ? & ? & ?). naive_solver. }
  rewrite existsb_false_elem. split.
  - intros H k' other [= <-] (row' & c' & Hrow' & Hc' & Hin) Hsched.
    assert (row' = row) as -> by congruence. assert (c' = c) as -> by congruence.
    specialize (H other). rewrite Hsched in H.
    rewrite elem_of_elements in H. specialize (H Hin).
    by rewrite !String.eqb_refl in H.
  - intros H other Hin%elem_of_elements.
    destruct (subjectScheduled st !! other) as [[d s]|] eqn:Hsched; [|done].
    destruct (String.eqb_spec d (dayKey day)) as [->|]; [|done].
    destruct (String.eqb_spec s (slotKey slot)) as [->|]; [|done].
    exfalso. eapply (H k other); [done| |done]. by exists row, c.
Qed.

(** Placing a section leaves the check of its group-mates as it was: a
    subject is never listed among its own conflicts. *)
Lemma conflictFreeAt_scheduleExam cm exam' day' slot' room w b exam day slot :
  (∀ k A, ¬ inMatrix cm k A A) →
  normSubject exam' = normSubject exam →
  conflictFreeAt cm (state w) exam day slot →
  conflictFreeAt cm (state (scheduleExam exam' day' slot' room w b)) exam day slot.
Proof.
  intros Hirr Hsubj Hfree k other Hk Hin. unfold scheduleExam. simpl.
  destruct b; [by eapply Hfree|].
  rewrite lookup_insert_ne; [by eapply Hfree|].
  intros <-. rewrite Hsubj in Hin. by eapply Hirr.
Qed.

Lemma occupiedRooms_scheduleExam_other exam day slot room w b dk sk r :
  r ≠ room → r ∉ occupiedRooms (state w) dk sk →
  r ∉ occupiedRooms (state (scheduleExam exam day slot room w b)) dk sk.
Proof.
  intros Hne Hfree. rewrite occupiedRooms_scheduleExam.
  case_decide as Hcell; [|done]. destruct Hcell as [-> ->]. set_solver.
Qed.

Lemma getAvailableRooms_elem exam day slot allRooms st consecutive r :
  r ∈ getAvailableRooms exam day slot allRooms st consecutive →
  r ∈ allRooms
  ∧ (r ∉ occupiedRooms st (dayKey day) (slotKey slot))
  ∧ (consecutive = true → slot + 1 < length TIME_SLOTS →
     r ∉ occupiedRooms st (dayKey day) (slotKey (slot + 1))).
Proof.
  unfold getAvailableRooms.
  intros [Hfree [_ Hin]%list_elem_of_filter]%list_elem_of_filter.
  split; [done|]. destruct consecutive; simpl in Hfree.
  - destruct (Nat.ltb_spec slot 7) as [Hlt|Hge].
    + split; [set_solver|]. intros _ _. set_solver.
    + split; [done|]. simpl. lia.
  - by split.
Qed.

Lemma getAvailableRooms_NoDup exam day slot allRooms st consecutive :
  NoDup allRooms → NoDup (getAvailableRooms exam day slot allRooms st consecutive).
Proof. intros Hnd. unfold getAvailableRooms. by do 2 apply NoDup_filter. Qed.

Lemma scanCells_preserves (P : World → Prop) attempt cells w :
  (∀ day slot w', (day, slot) ∈ cells → P w' → P (attempt day slot w').2) →
  P w → P (scanCells attempt cells w).2.
Proof.
  revert w. induction cells as [|[day slot] cells IH]; intros w Hstep Hw; [done|].
  simpl. specialize (Hstep day slot w) as Hnow.
  destruct (attempt day slot w) as [[] w'].
  - apply Hnow; [left|done].
  - apply IH; [|apply Hnow; [left|done]].
    intros d s w'' Hin. apply Hstep. by right.
Qed.

(** ** Every phase keeps the world reachable *)

Section Reach.
Context (eligible : list Exam) (rooms : list string) (cm : ConflictMatrix).
Hypothesis cm_irrefl : ∀ k A, ¬ inMatrix cm k A A.

Local Abbreviation Reach := (Reachable eligible rooms cm).

Lemma scheduleAll_Reachable subject consecutive day slot group :
  ∀ avail w,
  Reach w →
  slot < length TIME_SLOTS →
  (∀ e, e ∈ group →
     e ∈ eligible ∧ normSubject e = subject
     ∧ conflictFreeAt cm (state w) e day slot
     ∧ (is6UnitSubject e = true → consecutive = true)) →
  (length group ≤ length avail)%nat →
  (∀ r, r ∈ avail → r ∈ rooms) →
  (NoDup rooms →
   NoDup avail
   ∧ ∀ r, r ∈ avail →
       (r ∉ occupiedRooms (state w) (dayKey day) (slotKey slot))
       ∧ (consecutive = true → slot + 1 < length TIME_SLOTS →
          r ∉ occupiedRooms (state w) (dayKey day) (slotKey (slot + 1)))) →
  Reach (scheduleAll group day slot avail w).2.
Proof.
  induction group as [|e group IH]; intros avail w Hw Hslot Hgroup Hlen Hrooms Hfree;
    [done|].
  destruct avail as [|room avail]; [simpl in Hlen; lia|].
  destruct (Hgroup e) as (He & Hsubj & Hcf & H6); [left|].
  assert (Hrest : ∀ w',
    Reach w' →
    (∀ e', e' ∈ group → conflictFreeAt cm (state w') e' day slot) →
    (NoDup rooms → ∀ r, r ∈ avail →
       (r ∉ occupiedRooms (state w') (dayKey day) (slotKey slot))
       ∧ (consecutive = true → slot + 1 < length TIME_SLOTS →
          r ∉ occupiedRooms (state w') (dayKey day) (slotKey (slot + 1)))) →
    Reach (scheduleAll group day slot avail w').2).
  { intros w' Hw' Hcf' Hfree'. apply IH; try done.
    - intros e' He'. destruct (Hgroup e') as (? & ? & _ & ?); [by right|].
      split_and!; auto.
    - simpl in Hlen. lia.
    - intros r Hr. apply Hrooms. by right.
    - intros Hnd. destruct (Hfree Hnd) as [Hnd' _].
      apply NoDup_cons in Hnd' as [_ Hnd']. split; [done|]. by apply Hfree'. }
  assert (Hother : NoDup rooms → ∀ r, r ∈ avail → r ≠ room).
  { intros Hnd r Hr ->. destruct (Hfree Hnd) as [[Hnotin _]%NoDup_cons _]. done. }
  simpl. destruct (is6UnitSubject e) eqn:Hsix.
  - unfold schedule6UnitExam.
    destruct (Nat.leb_spec (length TIME_SLOTS - 1) slot) as [Hlast|Hnotlast]; [done|].
    simpl in Hnotlast. apply Hrest.
    + apply Reachable_double; try done.
      * simpl. lia.
      * apply Hrooms. left.
      * by apply hasConflict_false.
      * intros Hnd. destruct (Hfree Hnd) as [_ Hf]. destruct (Hf room) as [? Hnext]; [left|].
        split; [done|]. apply Hnext; [auto|simpl; lia].
    + intros e' He'. destruct (Hgroup e') as (_ & Hsubj' & Hcf' & _); [by right|].
      do 2 (apply conflictFreeAt_scheduleExam; [done|congruence|]). done.
    + intros Hnd r Hr. destruct (Hfree Hnd) as [_ Hf].
      destruct (Hf r) as [? Hnext]; [by right|].
      split; [|intros ? ?];
        do 2 (apply occupiedRooms_scheduleExam_other; [by apply Hother|]); auto.
  - apply Hrest.
    + apply Reachable_single; try done.
      * apply Hrooms. left.
      * by apply hasConflict_false.
      * intros Hnd. destruct (Hfree Hnd) as [_ Hf]. destruct (Hf room) as [? _]; [left|done].
    + intros e' He'. destruct (Hgroup e') as (_ & Hsubj' & Hcf' & _); [by right|].
      apply conflictFreeAt_scheduleExam; [done|congruence|done].
    + intros Hnd r Hr. destruct (Hfree Hnd) as [_ Hf].
      destruct (Hf r) as [? Hnext]; [by right|].
      split; [|intros ? ?];
        (apply occupiedRooms_scheduleExam_other; [by apply Hother|]); auto.
Qed.

Lemma tryScheduleGroup_Reachable subject group day slot w :
  Reach w →
  slot < length TIME_SLOTS →
  (∀ e, e ∈ group → e ∈ eligible ∧ normSubject e = subject) →
  Reach (tryScheduleGroup group day slot rooms cm w).2.
Proof.
  intros Hw Hslot Hgroup. unfold tryScheduleGroup.
  destruct group as [|first rest] eqn:Hg; [done|]. rewrite <- Hg in *.
  destruct (existsb _ group) eqn:Hconf; [done|].
  destruct (Nat.ltb_spec
              (length (getAvailableRooms first day slot rooms (state w)
                         (existsb is6UnitSubject group)))
              (length group)) as [Hfew|Henough]; [done|].
  eapply scheduleAll_Reachable with (consecutive := existsb is6UnitSubject group);
    try done.
  - intros e He. destruct (Hgroup e He) as [? ?]. split_and!; try done.
    + apply hasConflict_false.
      by apply (proj1 (existsb_false_elem _ _) Hconf).
    + intros Hsix. apply existsb_exists. exists e. split; [|done].
      by apply list_elem_of_In.
  - intros r Hr. by apply getAvailableRooms_elem in Hr as [? _].
  - intros Hnd. split; [by apply getAvailableRooms_NoDup|].
    intros r Hr. by apply getAvailableRooms_elem in Hr as [_ ?].
Qed.

Lemma tryScheduleAlone_Reachable exam day slot w :
  Reach w → slot < length TIME_SLOTS → exam ∈ eligible →
  Reach (tryScheduleAlone exam rooms cm day slot w).2.
Proof.
  intros Hw Hslot He. unfold tryScheduleAlone.
  destruct (hasConflict exam day slot (state w) cm) eqn:Hconf; [done|].
  destruct (getAvailableRooms _ _ _ _ _ _) as [|room avail] eqn:Havail; [done|].
  assert (Hroom : room ∈ getAvailableRooms exam day slot rooms (state w)
                           (is6UnitSubject exam)) by (rewrite Havail; left).
  apply getAvailableRooms_elem in Hroom as (Hin & Hfree & Hnext).
  destruct (is6UnitSubject exam) eqn:Hsix.
  - unfold schedule6UnitExam.
    destruct (Nat.leb_spec (length TIME_SLOTS - 1) slot) as [Hlast|Hnotlast]; [done|].
    simpl in Hnotlast. apply Reachable_double; try done; [simpl; lia|].
    intros _. split; [done|]. apply Hnext; [done|simpl; lia].
  - by apply Reachable_single.
Qed.

Lemma scanCells_Reachable attempt cells w :
  (∀ day slot w', (day, slot) ∈ cells → Reach w' → Reach (attempt day slot w').2) →
  Reach w → Reach (scanCells attempt cells w).2.
Proof. apply scanCells_preserves. Qed.

End Reach.

Lemma gridCells_slot numDays day slot :
  (day, slot) ∈ gridCells numDays → slot < length TIME_SLOTS.
Proof.
  unfold gridCells. intros (d & Hin & _)%list_elem_of_bind.
  apply list_elem_of_bind in Hin as (s & [= _ <-]%list_elem_of_singleton & Hs).
  apply elem_of_seq in Hs. lia.
Qed.

Lemma GEN_ED_TIME_BLOCKS_slots :
  Forall (λ entry : string * list TimeBlock,
            Forall (λ b, blockSlot b < length TIME_SLOTS) entry.2)
         GEN_ED_TIME_BLOCKS.
Proof. unfold GEN_ED_TIME_BLOCKS. repeat constructor; simpl; lia. Qed.

Lemma blockCells_slot numDays genEdType day slot :
  (day, slot) ∈ blockCells numDays (default [] (OMap.get genEdType GEN_ED_TIME_BLOCKS)) →
  slot < length TIME_SLOTS.
Proof.
  unfold blockCells. intros (b & [= _ ->] & [_ Hb]%list_elem_of_filter)%list_elem_of_fmap.
  destruct (OMap.get genEdType GEN_ED_TIME_BLOCKS) as [blocks|] eqn:Hget;
    [|by apply elem_of_nil in Hb].
  apply OMap_get_elem in Hget.
  pose proof (proj1 (Forall_forall _ _) GEN_ED_TIME_BLOCKS_slots _ Hget) as Hall.
  by apply (proj1 (Forall_forall _ _) Hall).
Qed.

Lemma values_elem {V} (m : list (string * V)) v :
  v ∈ OMap.values m ↔ ∃ k, (k, v) ∈ m.
Proof.
  unfold OMap.values. rewrite list_elem_of_fmap. split.
  - intros ([k v'] & -> & Hin). by exists k.
  - intros [k Hin]. by exists (k, v).
Qed.

Lemma insertBySize_elem g sorted x :
  x ∈ insertBySize g sorted ↔ x = g ∨ x ∈ sorted.
Proof.
  induction sorted as [|h r IH]; simpl.
  - rewrite list_elem_of_singleton, elem_of_nil. naive_solver.
  - destruct (length g.2 <? length h.2)%nat.
    + by rewrite elem_of_cons.
    + rewrite !elem_of_cons, IH. naive_solver.
Qed.

Lemma sortBySize_elem groups x : x ∈ sortBySize groups ↔ x ∈ groups.
Proof.
  unfold sortBySize.
  assert (∀ acc, x ∈ fold_left (λ sorted g, insertBySize g sorted) groups acc
                 ↔ x ∈ groups ∨ x ∈ acc) as H.
  { induction groups as [|g groups IH]; intros acc; simpl.
    - rewrite elem_of_nil. naive_solver.
    - rewrite IH, insertBySize_elem, elem_of_cons. naive_solver. }
  rewrite H, elem_of_nil. naive_solver.
Qed.

Section Phases.
Context (eligible : list Exam) (rooms : list string) (cm : ConflictMatrix).
Hypothesis cm_irrefl : ∀ k A, ¬ inMatrix cm k A A.

Local Abbreviation OK := (phaseOK eligible rooms cm).

Lemma placeGroup_OK cells acc group subject :
  (∀ day slot, (day, slot) ∈ cells → slot < length TIME_SLOTS) →
  (∀ e, e ∈ group → e ∈ eligible ∧ normSubject e = subject) →
  OK acc → OK (placeGroup cells rooms cm acc group).
Proof.
  intros Hcells Hgroup [Hw Hfailed]. unfold placeGroup.
  pose proof (scanCells_Reachable eligible rooms cm
                (λ day slot, tryScheduleGroup group day slot rooms cm)
                cells (world acc)) as Hscan.
  destruct (scanCells _ cells (world acc)) as [[] w'];
    (split; simpl;
     [apply Hscan; [|done]; intros day slot w'' Hin Hw'';
      eapply tryScheduleGroup_Reachable; eauto|]); [done|].
  intros e [?|?]%elem_of_app; [auto|]. by apply Hgroup.
Qed.

Lemma placeGroups_OK cells groups acc :
  (∀ day slot, (day, slot) ∈ cells → slot < length TIME_SLOTS) →
  (∀ group, group ∈ groups →
     ∃ subject, ∀ e, e ∈ group → e ∈ eligible ∧ normSubject e = subject) →
  OK acc → OK (fold_left (placeGroup cells rooms cm) groups acc).
Proof.
  intros Hcells. revert acc.
  induction groups as [|group groups IH]; intros acc Hgroups Hacc; [done|].
  simpl. apply IH; [intros g Hg; apply Hgroups; by right|].
  destruct (Hgroups group) as [subject Hgroup]; [left|].
  by eapply placeGroup_OK.
Qed.

Lemma subjectGroups_OK cells exams acc :
  (∀ day slot, (day, slot) ∈ cells → slot < length TIME_SLOTS) →
  (∀ e, e ∈ exams → e ∈ eligible) →
  OK acc →
  OK (fold_left (placeGroup cells rooms cm)
        (OMap.values (groupExamsBySubject exams)) acc).
Proof.
  intros Hcells Hsub Hacc. apply placeGroups_OK; try done.
  intros group [k Hin]%values_elem. exists k. intros e He.
  apply (groupBy_member (λ exam, Some (normSubject exam)) _ _ _ _ Hin) in He as [? ?].
  split; [auto|congruence].
Qed.

Lemma scheduleGenEdTimeBlocks_OK exams numDays w :
  (∀ e, e ∈ exams → e ∈ eligible) →
  Reachable eligible rooms cm w →
  OK (scheduleGenEdTimeBlocks exams rooms cm numDays w).
Proof.
  intros Hsub Hw. unfold scheduleGenEdTimeBlocks.
  set (byType := OMap.groupBy _ exams).
  assert (Htypes : ∀ ty g, (ty, g) ∈ byType → ∀ e, e ∈ g → e ∈ eligible).
  { intros ty g Hin e He. apply Hsub.
    by eapply (groupBy_member (λ exam, getGenEdType (subjectId exam))) in He as [? _]. }
  assert (Hinit : OK {| scheduledCount := 0; failed := []; world := w |}).
  { split; [done|]. by intros e ?%elem_of_nil. }
  revert Hinit. generalize {| scheduledCount := 0; failed := []; world := w |}.
  clearbody byType.
  induction byType as [|[ty g] byType IH]; intros acc Hacc; [done|].
  simpl. apply IH; [intros ty' g' Hin; apply (Htypes ty' g'); by right|].
  apply subjectGroups_OK; try done.
  - intros day slot. destruct (default [] _) eqn:Hblocks.
    + apply gridCells_slot.
    + rewrite <- Hblocks. apply blockCells_slot.
  - apply (Htypes ty g). left.
Qed.

Lemma scheduleHighPriority_OK exams numDays w :
  (∀ e, e ∈ exams → e ∈ eligible) →
  Reachable eligible rooms cm w →
  OK (scheduleHighPriority exams rooms cm numDays w).
Proof.
  intros Hsub Hw. unfold scheduleHighPriority.
  apply subjectGroups_OK; [apply gridCells_slot| |].
  { intros e [_ ?]%list_elem_of_filter. auto. }
  apply subjectGroups_OK; [apply gridCells_slot| |].
  { intros e [_ ?]%list_elem_of_filter. auto. }
  split; [done|]. by intros e ?%elem_of_nil.
Qed.

Lemma scheduleMajorSubjects_OK exams numDays w :
  (∀ e, e ∈ exams → e ∈ eligible) →
  Reachable eligible rooms cm w →
  OK (scheduleMajorSubjects exams rooms cm numDays w).
Proof.
  intros Hsub Hw. unfold scheduleMajorSubjects.
  apply placeGroups_OK; [apply gridCells_slot| |].
  - intros group [k Hin]%values_elem. exists k. intros e He.
    apply (proj1 (sortBySize_elem _ _)) in Hin.
    apply (groupBy_member (λ exam, Some (normSubject exam)) _ _ _ _ Hin) in He as [? ?].
    split; [auto|congruence].
  - split; [done|]. by intros e ?%elem_of_nil.
Qed.

Lemma scheduleIndividually_Reachable exams numDays w :
  (∀ e, e ∈ exams → e ∈ eligible) →
  Reachable eligible rooms cm w →
  Reachable eligible rooms cm (scheduleIndividually exams rooms cm numDays w).2.
Proof.
  intros Hsub Hw. unfold scheduleIndividually.
  change w with (0, w).2 in Hw. revert Hw. generalize (0, w).
  induction exams as [|e exams IH]; intros [n w'] Hw'; [done|].
  simpl. apply IH; [intros e' He'; apply Hsub; by right|].
  pose proof (scanCells_Reachable eligible rooms cm
                (tryScheduleAlone e rooms cm) (gridCells numDays) w') as Hscan.
  destruct (scanCells _ _ w') as [[] w'']; simpl;
    (apply Hscan; [|done]; intros day slot w3 Hin Hw3;
     apply tryScheduleAlone_Reachable; [done|by eapply gridCells_slot|apply Hsub; left]).
Qed.

End Phases.

(** The world the four phases leave is reachable. *)
Lemma runPhases_Reachable exams rooms numDays :
  Reachable (eligibleExams exams) rooms
    (buildConflictMatrix (eligibleExams exams)) (runPhases exams rooms numDays).
Proof.
  unfold runPhases. cbv zeta.
  set (eligible := eligibleExams exams).
  set (cm := buildConflictMatrix eligible).
  assert (Hirr : ∀ k A, ¬ inMatrix cm k A A)
    by (intros k A; apply buildConflictMatrix_irrefl).
  assert (Hfilter : ∀ (P : Exam → Prop) `{∀ x, Decision (P x)} e,
            e ∈ filter P eligible → e ∈ eligible).
  { intros P ? e [_ ?]%list_elem_of_filter. done. }
  set (p1 := scheduleGenEdTimeBlocks _ rooms cm numDays emptyWorld).
  set (p2 := scheduleHighPriority _ rooms cm numDays (world p1)).
  set (p3 := scheduleMajorSubjects _ rooms cm numDays (world p2)).
  assert (phaseOK eligible rooms cm p1) as [Hw1 Hf1].
  { apply scheduleGenEdTimeBlocks_OK; [done|apply Hfilter|constructor]. }
  assert (phaseOK eligible rooms cm p2) as [Hw2 Hf2].
  { apply scheduleHighPriority_OK; [done| |done].
    intros e [?|?]%elem_of_app; by eapply Hfilter. }
  assert (phaseOK eligible rooms cm p3) as [Hw3 Hf3].
  { apply scheduleMajorSubjects_OK; [done|apply Hfilter|done]. }
  apply scheduleIndividually_Reachable; [|done].
  intros e [?|[?|?]%elem_of_app]%elem_of_app; auto.
Qed.

(** ** The output accumulator *)

Lemma OMap_set_elem {V} k (v : V) m k' v' :
  (k', v') ∈ OMap.set k v m → (k' = k ∧ v' = v) ∨ (k', v') ∈ m.
Proof.
  induction m as [|[k0 v0] m IH]; simpl.
  - intros [= -> ->]%list_elem_of_singleton. by left.
  - destruct (String.eqb_spec k0 k) as [->|Hne].
    + intros [[= -> ->]|?]%elem_of_cons; [by left|right; by right].
    + intros [[= -> ->]|Hin]%elem_of_cons; [right; left|].
      destruct (IH Hin) as [?|?]; [by left|right; by right].
Qed.

Lemma OMap_set_keys {V} k (v : V) m :
  OMap.keys (OMap.set k v m)
  = if bool_decide (k ∈ OMap.keys m) then OMap.keys m else OMap.keys m ++ [k].
Proof.
  induction m as [|[k0 v0] m IH]; simpl; [done|].
  destruct (String.eqb_spec k0 k) as [->|Hne]; simpl.
  - rewrite bool_decide_eq_true_2; [done|left].
  - rewrite IH. unfold OMap.keys in *.
    destruct (bool_decide_reflect (k ∈ map fst m)) as [Hin|Hin].
    + rewrite bool_decide_eq_true_2; [done|by right].
    + rewrite bool_decide_eq_false_2; [done|].
      rewrite elem_of_cons. intros [?|?]; done.
Qed.

Lemma OMap_set_NoDup {V} k (v : V) m :
  NoDup (OMap.keys m) → NoDup (OMap.keys (OMap.set k v m)).
Proof.
  intros Hnd. rewrite OMap_set_keys. case_bool_decide; [done|].
  apply NoDup_app. split_and!; [done| |apply NoDup_singleton].
  intros y Hy Hy'. apply list_elem_of_singleton in Hy'. by subst.
Qed.

Lemma OMap_get_set {V} k (v : V) m k' :
  OMap.get k' (OMap.set k v m) = if decide (k' = k) then Some v else OMap.get k' m.
Proof.
  induction m as [|[k0 v0] m IH]; simpl.
  - destruct (String.eqb_spec k k') as [->|Hne]; case_decide; done.
  - destruct (String.eqb_spec k0 k) as [->|Hne]; simpl.
    + destruct (String.eqb_spec k k') as [->|Hne']; case_decide; done.
    + destruct (String.eqb_spec k0 k') as [->|Hne'].
      * case_decide; [congruence|done].
      * apply IH.
Qed.

(** Writing a record whose image under [f] is new keeps the images of the
    records pairwise different. *)
Lemma OMap_set_NoDup_image {V B} (f : V → B) k (v : V) m :
  NoDup (f <$> OMap.values m) → f v ∉ f <$> OMap.values m →
  NoDup (f <$> OMap.values (OMap.set k v m)).
Proof.
  unfold OMap.values. induction m as [|[k0 v0] m IH]; simpl.
  - intros _ _. apply NoDup_singleton.
  - intros [Hv0 Hnd]%NoDup_cons Hfresh.
    apply not_elem_of_cons in Hfresh as [Hne Hfresh].
    destruct (String.eqb_spec k0 k) as [->|Hk]; simpl.
    + apply NoDup_cons. done.
    + apply NoDup_cons. split; [|by apply IH].
      intros (x & Hx & Hin)%list_elem_of_fmap.
      apply list_elem_of_fmap in Hin as ([k1 x1] & -> & Hin).
      apply OMap_set_elem in Hin as [[_ ->]|Hin]; [done|].
      apply Hv0. rewrite Hx. apply list_elem_of_fmap. exists x1. split; [done|].
      apply list_elem_of_fmap. by exists (k1, x1).
Qed.

Lemma NoDup_fmap_compose {A B C} (f : A → B) (g : B → C) (l : list A) :
  NoDup ((g ∘ f) <$> l) → NoDup (f <$> l).
Proof.
  rewrite list_fmap_compose. apply NoDup_fmap_1.
Qed.

Lemma occupiedRooms_scheduleExam_other_slot exam day slot room w b dk sk r :
  sk ≠ slotKey slot → r ∉ occupiedRooms (state w) dk sk →
  r ∉ occupiedRooms (state (scheduleExam exam day slot room w b)) dk sk.
Proof.
  intros Hne Hfree. rewrite occupiedRooms_scheduleExam.
  case_decide as Hcell; [|done]. by destruct Hcell as [_ ->].
Qed.

(** ** Invariants of reachable worlds *)

Section Invariants.
Context (eligible : list Exam) (rooms : list string) (cm : ConflictMatrix).

Lemma Reachable_ind_commits (P : World → Prop) :
  P emptyWorld →
  (∀ exam day slot room w b,
     P w → exam ∈ eligible → slot < length TIME_SLOTS →
     (NoDup rooms → room ∉ occupiedRooms (state w) (dayKey day) (slotKey slot)) →
     P (scheduleExam exam day slot room w b)) →
  ∀ w, Reachable eligible rooms cm w → P w.
Proof.
  intros Hempty Hstep w Hw. induction Hw as
    [|exam day slot room w Hw IH He Hsix Hslot Hroom Hconf Hfree
     |exam day slot room w Hw IH He Hsix Hslot Hroom Hconf Hfree]; [done|..].
  - by apply Hstep.
  - apply Hstep; [apply Hstep| | |]; try done; [lia|naive_solver|].
    intros Hnd. apply occupiedRooms_scheduleExam_other_slot; [|naive_solver].
    intros Heq%slotKey_inj; lia.
Qed.

End Invariants.

Lemma occupiedRooms_scheduleExam_mono exam day slot room w b dk sk r :
  r ∈ occupiedRooms (state w) dk sk →
  r ∈ occupiedRooms (state (scheduleExam exam day slot room w b)) dk sk.
Proof.
  intros Hin. rewrite occupiedRooms_scheduleExam.
  case_decide as Hcell; [|done]. destruct Hcell as [-> ->]. set_solver.
Qed.

Lemma occupiedRooms_scheduleExam_claimed exam day slot room w b :
  room ∈ occupiedRooms (state (scheduleExam exam day slot room w b))
           (dayKey day) (slotKey slot).
Proof. rewrite occupiedRooms_scheduleExam, decide_True by done. set_solver. Qed.

(** Every record was written for an eligible section. *)
Lemma Reachable_records eligible rooms cm w k x :
  Reachable eligible rooms cm w → (k, x) ∈ scheduled w →
  ∃ exam dk sk room, exam ∈ eligible ∧ x = mkScheduledExam exam dk sk room.
Proof.
  intros Hw. revert k x.
  induction Hw using Reachable_ind_commits.
  - by intros k x ?%elem_of_nil.
  - intros k x [[_ ->]|Hin]%OMap_set_elem; [|by eauto].
    by eexists _, _, _, _.
Qed.

(** Records sit under the key made of their code and slot, and keys are
    not repeated. *)
Lemma Reachable_keys eligible rooms cm w :
  Reachable eligible rooms cm w →
  NoDup (OMap.keys (scheduled w))
  ∧ ∀ k x, (k, x) ∈ scheduled w → k = scheduledKey (CODE x) (SLOT x).
Proof.
  intros Hw. induction Hw as [|exam day slot room w b [Hnd Hkey] _ _ _]
    using Reachable_ind_commits.
  - split; [constructor|]. by intros k x ?%elem_of_nil.
  - split; [by apply OMap_set_NoDup|].
    intros k x [[-> ->]|Hin]%OMap_set_elem; [done|by apply Hkey].
Qed.

(** With a room list that repeats no identifier, every record's room is
    booked in the ledger and no two records book the same room. *)
Lemma Reachable_bookings eligible rooms cm w :
  NoDup rooms →
  Reachable eligible rooms cm w →
  (∀ k x, (k, x) ∈ scheduled w →
     ROOM x ∈ occupiedRooms (state w) (DAY x) (SLOT x))
  ∧ NoDup (booking <$> OMap.values (scheduled w)).
Proof.
  intros Hrooms Hw.
  induction Hw as [|exam day slot room w b [Hbooked Hnd] _ _ Hfree]
    using Reachable_ind_commits.
  - split; [by intros k x ?%elem_of_nil|constructor].
  - specialize (Hfree Hrooms). split.
    + intros k x [[_ ->]|Hin]%OMap_set_elem.
      * apply occupiedRooms_scheduleExam_claimed.
      * apply occupiedRooms_scheduleExam_mono. by eapply Hbooked.
    + apply OMap_set_NoDup_image; [done|].
      intros (x & Hx & [k Hin]%values_elem)%list_elem_of_fmap.
      apply Hfree. apply Hbooked in Hin.
      unfold booking in Hx. simpl in Hx. injection Hx as Hd Hs Hr.
      by rewrite Hd, Hs, Hr.
Qed.

(** A reachable world is the end of a chain of commits from the empty
    world, and conversely. *)
Lemma Reachable_chain eligible rooms cm w :
  Reachable eligible rooms cm w ↔ rtc (CommitStep eligible rooms cm) emptyWorld w.
Proof.
  split.
  - induction 1 as
      [|exam day slot room w Hw IH He Hsix Hslot Hroom Hconf Hfree
       |exam day slot room w Hw IH He Hsix Hslot Hroom Hconf Hfree].
    + apply rtc_refl.
    + eapply rtc_r; [exact IH|]. by apply CommitStep_single.
    + eapply rtc_r; [exact IH|]. by apply CommitStep_double.
  - revert w. apply rtc_ind_r; [constructor|].
    intros w1 w2 _ Hstep Hw1.
    destruct Hstep; [by apply Reachable_single|by apply Reachable_double].
Qed.

(** Every record was written by a commit of the chain that leads to the
    world: the world [before] the commit is itself reachable, the conflict
    check passed at the day and slot of the attempt in the ledger of
    [before], and the world is reached from the world right after that
    commit by the later commits.  The second-slot record of a double-unit
    section was written by the commit that wrote its first-slot record. *)
Lemma Reachable_record_checked eligible rooms cm w k x :
  Reachable eligible rooms cm w → (k, x) ∈ scheduled w →
  ∃ before exam day slot room,
    Reachable eligible rooms cm before ∧ exam ∈ eligible
    ∧ hasConflict exam day slot (state before) cm = false
    ∧ conflictFreeAt cm (state before) exam day slot
    ∧ ((is6UnitSubject exam = false
        ∧ x = mkScheduledExam exam (dayKey day) (slotKey slot) room
        ∧ rtc (CommitStep eligible rooms cm)
            (scheduleExam exam day slot room before false) w)
       ∨ (is6UnitSubject exam = true ∧ slot + 1 < length TIME_SLOTS
          ∧ (x = mkScheduledExam exam (dayKey day) (slotKey slot) room
             ∨ x = mkScheduledExam exam (dayKey day) (slotKey (slot + 1)) room)
          ∧ rtc (CommitStep eligible rooms cm)
              (scheduleExam exam day (slot + 1) room
                 (scheduleExam exam day slot room before false) true) w)).
Proof.
  intros Hw. revert k x. induction Hw as
    [|exam day slot room w Hw IH He Hsix Hslot Hroom Hconf Hfree
     |exam day slot room w Hw IH He Hsix Hslot Hroom Hconf Hfree]; intros k x.
  - by intros ?%elem_of_nil.
  - intros [[_ ->]|Hin]%OMap_set_elem.
    + exists w, exam, day, slot, room. split_and!; try done;
        [by apply hasConflict_false|]. left. split_and!; [done|done|apply rtc_refl].
    + destruct (IH _ _ Hin)
        as (before & exam' & day' & slot' & room' & ? & ? & ? & ? & Hcases).
      exists before, exam', day', slot', room'. split_and!; try done.
      destruct Hcases as [(? & ? & Hchain)|(? & ? & ? & Hchain)]; [left|right];
        split_and!; try done;
        (eapply rtc_r; [exact Hchain|]; by apply CommitStep_single).
  - intros [[_ ->]|[[_ ->]|Hin]%OMap_set_elem]%OMap_set_elem.
    + exists w, exam, day, slot, room. split_and!; try done;
        [by apply hasConflict_false|]. right.
      split_and!; [done|done|by right|apply rtc_refl].
    + exists w, exam, day, slot, room. split_and!; try done;
        [by apply hasConflict_false|]. right.
      split_and!; [done|done|by left|apply rtc_refl].
    + destruct (IH _ _ Hin)
        as (before & exam' & day' & slot' & room' & ? & ? & ? & ? & Hcases).
      exists before, exam', day', slot', room'. split_and!; try done.
      destruct Hcases as [(? & ? & Hchain)|(? & ? & ? & Hchain)]; [left|right];
        split_and!; try done;
        (eapply rtc_r; [exact Hchain|]; by apply CommitStep_double).
Qed.

(** What the conflict check leaves true of the ledger.  Whenever a subject
    is recorded at a day and slot, one of its sections vouches for it:
    every other subject recorded there that the matrix lists as its
    conflict under that section's key has itself a section under whose key
    the matrix does not list the first subject. *)
Lemma Reachable_ledger eligible rooms cm w subject position :
  (∀ k A, ¬ inMatrix cm k A A) →
  Reachable eligible rooms cm w →
  subjectScheduled (state w) !! subject = Some position →
  ∃ f, f ∈ eligible ∧ normSubject f = subject
    ∧ ∀ other k, other ≠ subject →
        subjectScheduled (state w) !! other = Some position →
        courseYearKey f = Some k → inMatrix cm k subject other →
        ∃ e, e ∈ eligible ∧ normSubject e = other
          ∧ ∀ k', courseYearKey e = Some k' → ¬ inMatrix cm k' other subject.
Proof.
  intros Hirr Hw. revert subject position.
  induction Hw as
    [|exam day slot room w Hw IH He Hsix Hslot Hroom Hconf Hfree
     |exam day slot room w Hw IH He Hsix Hslot Hroom Hconf Hfree];
    intros subject position.
  - simpl. by rewrite lookup_empty.
  - apply hasConflict_false in Hconf.
    unfold scheduleExam. cbn [state subjectScheduled].
    destruct (decide (subject = normSubject exam)) as [->|Hne].
    + rewrite lookup_insert_eq. intros [= <-].
      exists exam. split_and!; try done.
      intros other k Hother Hat Hk Hin. exfalso.
      rewrite lookup_insert_ne in Hat by done. by eapply Hconf.
    + rewrite lookup_insert_ne by done. intros Hat.
      destruct (IH _ _ Hat) as (f & Hf & Hsubj & Hvouch).
      exists f. split_and!; try done.
      intros other k Hother Hat' Hk Hin.
      destruct (decide (other = normSubject exam)) as [->|Hne'].
      * rewrite lookup_insert_eq in Hat'. injection Hat' as <-.
        exists exam. split_and!; try done.
        intros k' Hk' Hin'. by eapply Hconf.
      * rewrite lookup_insert_ne in Hat' by done. by eapply Hvouch.
  - apply hasConflict_false in Hconf.
    unfold scheduleExam. cbn [state subjectScheduled].
    destruct (decide (subject = normSubject exam)) as [->|Hne].
    + rewrite lookup_insert_eq. intros [= <-].
      exists exam. split_and!; try done.
      intros other k Hother Hat Hk Hin. exfalso.
      rewrite lookup_insert_ne in Hat by done. by eapply Hconf.
    + rewrite lookup_insert_ne by done. intros Hat.
      destruct (IH _ _ Hat) as (f & Hf & Hsubj & Hvouch).
      exists f. split_and!; try done.
      intros other k Hother Hat' Hk Hin.
      destruct (decide (other = normSubject exam)) as [->|Hne'].
      * rewrite lookup_insert_eq in Hat'. injection Hat' as <-.
        exists exam. split_and!; try done.
        intros k' Hk' Hin'. by eapply Hconf.
      * rewrite lookup_insert_ne in Hat' by done. by eapply Hvouch.
Qed.

(** Two subjects, each with sections of one cohort only and listed as
    conflicts under it, are never both recorded at one day and slot. *)
Lemma Reachable_ledger_free eligible rooms cm w S T k position :
  (∀ k A, ¬ inMatrix cm k A A) →
  Reachable eligible rooms cm w →
  soleCohort eligible S k → soleCohort eligible T k →
  inMatrix cm k S T → inMatrix cm k T S →
  subjectScheduled (state w) !! S = Some position →
  subjectScheduled (state w) !! T = Some position →
  False.
Proof.
  intros Hirr Hw HS HT HST HTS HatS HatT.
  assert (S ≠ T) as Hne by (intros ->; by eapply Hirr).
  destruct (Reachable_ledger _ _ _ _ _ _ Hirr Hw HatT) as (f & Hf & Hsubj & Hvouch).
  destruct (Hvouch S k) as (e & He & HsubjE & Hnot); try done; [by apply HT|].
  eapply Hnot; [by apply HS|done].
Qed.

Lemma eligibleExams_idemp exams : eligibleExams (eligibleExams exams) = eligibleExams exams.
Proof.
  unfold eligibleExams. induction exams as [|e exams IH]; [done|].
  rewrite filter_cons. case_decide as He.
  - rewrite filter_cons, decide_True by done. by rewrite IH.
  - done.
Qed.

Lemma eligibleExams_elem exams e :
  e ∈ eligibleExams exams ↔ e ∈ exams ∧ Str.toUpperCase (dept e) ≠ "SAS".
Proof.
  unfold eligibleExams. rewrite list_elem_of_filter.
  destruct (String.eqb_spec (Str.toUpperCase (dept e)) "SAS"); simpl; naive_solver.
Qed.

(** ** Conflict-freedom *)

Lemma examsWithSAS_output :
  generateExamSchedule examsWithSAS ["N-1"; "N-2"] 1
  = [ mkScheduledExam (sampleExam "c1" "CS101" (Some "BSIT") (Some 1) "SACE" 3)
        "Day 1" "7:30-9:00" "N-1";
      mkScheduledExam (sampleExam "c2" "CS102" (Some "BSIT") (Some 1) "SACE" 3)
        "Day 1" "9:00-10:30" "N-1" ].
Proof. vm_compute. reflexivity. Qed.

Lemma examsDoubleThenSingle_output :
  generateExamSchedule examsDoubleThenSingle ["N-1"; "N-2"] 1
  = [ mkScheduledExam (sampleExam "x1" "CS201" (Some "BSIT") (Some 1) "SACE" 6)
        "Day 1" "7:30-9:00" "N-1";
      mkScheduledExam (sampleExam "x1" "CS201" (Some "BSIT") (Some 1) "SACE" 6)
        "Day 1" "9:00-10:30" "N-1";
      mkScheduledExam (sampleExam "y1" "CS202" (Some "BSIT") (Some 1) "SACE" 3)
        "Day 1" "9:00-10:30" "N-2" ].
Proof. vm_compute. reflexivity. Qed.

(** C2, as stated, fails: a double-unit section is recorded in the
    subject-placement ledger at its first slot only, so a conflicting
    subject of the same cohort is placed beside its second slot. *)
Lemma conflictFreeOutput_counterexample :
  ¬ conflictFreeOutput examsDoubleThenSingle ["N-1"; "N-2"] 1.
Proof.
  unfold conflictFreeOutput. rewrite examsDoubleThenSingle_output.
  replace (eligibleExams examsDoubleThenSingle) with examsDoubleThenSingle
    by (vm_compute; reflexivity).
  intros Hfree.
  apply (Hfree
    (mkScheduledExam (sampleExam "x1" "CS201" (Some "BSIT") (Some 1) "SACE" 6)
       "Day 1" "9:00-10:30" "N-1")
    (mkScheduledExam (sampleExam "y1" "CS202" (Some "BSIT") (Some 1) "SACE" 3)
       "Day 1" "9:00-10:30" "N-2")).
  - right. left.
  - right. right. left.
  - exists "BSIT-1". split_and!; try (vm_compute; reflexivity).
    + apply buildConflictMatrix_edges.
      exists (sampleExam "x1" "CS201" (Some "BSIT") (Some 1) "SACE" 6),
             (sampleExam "y1" "CS202" (Some "BSIT") (Some 1) "SACE" 3).
      split_and!; try (vm_compute; reflexivity); try discriminate.
      * left.
      * right. left.
    + apply buildConflictMatrix_edges.
      exists (sampleExam "y1" "CS202" (Some "BSIT") (Some 1) "SACE" 3),
             (sampleExam "x1" "CS201" (Some "BSIT") (Some 1) "SACE" 6).
      split_and!; try (vm_compute; reflexivity); try discriminate.
      * right. left.
      * left.
Qed.

(** C2, amended.  For every exam list, room list and day count: (a) the
    world [generateExamSchedule] ends in is the end of a chain of commits
    that starts from the empty ledger and the empty output; every commit
    places an eligible section, by one record or, for a double-unit
    section, by its two records, at a day and slot where the conflict
    check passes in the ledger as it stands before that commit; (b) every
    entry of the output was written by a commit of such a chain: the world
    before that commit is itself the end of a chain from the empty world,
    in its ledger no subject that the matrix lists as a conflict of the
    section's subject under the section's course-year key is recorded at
    the day and slot of the attempt, the entry is the record of that
    attempt or, for a double-unit section, the record of the slot after
    it, and the final world is reached from the world right after that
    commit by the later commits; (c) no two entries of the output that sit
    where the subject-placement ledger records their subjects share day
    label and slot label when their subjects are marked as conflicts under
    a course-year key to which all eligible sections of both subjects
    belong.  (The second-slot record of a double-unit section is written
    without a check of its own and without a ledger entry, and the ledger
    keeps only the latest first-slot placement of a subject, so entries
    that are not current placements need not be free of conflicts.) *)
Theorem generateExamSchedule_conflict_checked exams rooms numDays :
  rtc (CommitStep (eligibleExams exams) rooms
         (buildConflictMatrix (eligibleExams exams)))
    emptyWorld (runPhases exams rooms numDays)
  ∧ (∀ x, x ∈ generateExamSchedule exams rooms numDays →
       ∃ before exam day slot room,
         rtc (CommitStep (eligibleExams exams) rooms
                (buildConflictMatrix (eligibleExams exams))) emptyWorld before
         ∧ exam ∈ eligibleExams exams
         ∧ hasConflict exam day slot (state before)
             (buildConflictMatrix (eligibleExams exams)) = false
         ∧ conflictFreeAt (buildConflictMatrix (eligibleExams exams))
             (state before) exam day slot
         ∧ ((is6UnitSubject exam = false
             ∧ x = mkScheduledExam exam (dayKey day) (slotKey slot) room
             ∧ rtc (CommitStep (eligibleExams exams) rooms
                      (buildConflictMatrix (eligibleExams exams)))
                 (scheduleExam exam day slot room before false)
                 (runPhases exams rooms numDays))
            ∨ (is6UnitSubject exam = true ∧ slot + 1 < length TIME_SLOTS
               ∧ (x = mkScheduledExam exam (dayKey day) (slotKey slot) room
                  ∨ x = mkScheduledExam exam (dayKey day) (slotKey (slot + 1)) room)
               ∧ rtc (CommitStep (eligibleExams exams) rooms
                        (buildConflictMatrix (eligibleExams exams)))
                   (scheduleExam exam day (slot + 1) room
                      (scheduleExam exam day slot room before false) true)
                   (runPhases exams rooms numDays))))
  ∧ (∀ x y k,
       x ∈ generateExamSchedule exams rooms numDays →
       y ∈ generateExamSchedule exams rooms numDays →
       currentPlacement (runPhases exams rooms numDays) x →
       currentPlacement (runPhases exams rooms numDays) y →
       soleCohort (eligibleExams exams) (recordSubject x) k →
       soleCohort (eligibleExams exams) (recordSubject y) k →
       inMatrix (buildConflictMatrix (eligibleExams exams)) k
         (recordSubject x) (recordSubject y) →
       ¬ (DAY x = DAY y ∧ SLOT x = SLOT y)).
Proof.
  split_and!.
  - apply Reachable_chain, runPhases_Reachable.
  - intros x [k Hin]%values_elem.
    eapply Reachable_record_checked in Hin
      as (before & exam & day & slot & room & Hbefore & He & Hconf & Hfree & Hx);
      [|apply runPhases_Reachable].
    exists before, exam, day, slot, room. split_and!; try done.
    by apply Reachable_chain.
  - intros x y k _ _ Hx Hy HS HT Hconf [Hday Hslot].
    unfold currentPlacement in Hx, Hy. rewrite <- Hday, <- Hslot in Hy.
    eapply (Reachable_ledger_free _ _ _ _ (recordSubject x) (recordSubject y));
      try done.
    + intros k' A. apply buildConflictMatrix_irrefl.
    + apply runPhases_Reachable.
    + apply buildConflictMatrix_edges.
      apply buildConflictMatrix_edges in Hconf
        as (e1 & e2 & ? & ? & ? & ? & ? & ? & ? & ?).
      exists e2, e1. split_and!; done.
Qed.

(** The premises of part (c) can be met: the two computing subjects of
    [examsWithSAS], both of cohort BSIT-1 only, sit at their recorded
    placements, and these differ. *)
Lemma generateExamSchedule_conflict_checked_witness :
  let x := mkScheduledExam (sampleExam "c1" "CS101" (Some "BSIT") (Some 1) "SACE" 3)
             "Day 1" "7:30-9:00" "N-1" in
  let y := mkScheduledExam (sampleExam "c2" "CS102" (Some "BSIT") (Some 1) "SACE" 3)
             "Day 1" "9:00-10:30" "N-1" in
  x ∈ generateExamSchedule examsWithSAS ["N-1"; "N-2"] 1
  ∧ y ∈ generateExamSchedule examsWithSAS ["N-1"; "N-2"] 1
  ∧ currentPlacement (runPhases examsWithSAS ["N-1"; "N-2"] 1) x
  ∧ currentPlacement (runPhases examsWithSAS ["N-1"; "N-2"] 1) y
  ∧ soleCohort (eligibleExams examsWithSAS) "CS101" "BSIT-1"
  ∧ soleCohort (eligibleExams examsWithSAS) "CS102" "BSIT-1"
  ∧ inMatrix (buildConflictMatrix (eligibleExams examsWithSAS)) "BSIT-1" "CS101" "CS102"
  ∧ ¬ (DAY x = DAY y ∧ SLOT x = SLOT y).
Proof.
  intros x y.
  assert (Helig : eligibleExams examsWithSAS
                  = [ sampleExam "c1" "CS101" (Some "BSIT") (Some 1) "SACE" 3;
                      sampleExam "c2" "CS102" (Some "BSIT") (Some 1) "SACE" 3 ])
    by (vm_compute; reflexivity).
  assert (Hsole : ∀ subject,
            soleCohort (eligibleExams examsWithSAS) subject "BSIT-1").
  { intros subject e. rewrite Helig.
    intros [->|[->|[]%elem_of_nil]%elem_of_cons]%elem_of_cons _;
      vm_compute; reflexivity. }
  assert (Hmatrix : inMatrix (buildConflictMatrix (eligibleExams examsWithSAS))
                      "BSIT-1" "CS101" "CS102").
  { apply buildConflictMatrix_edges. rewrite Helig.
    exists (sampleExam "c1" "CS101" (Some "BSIT") (Some 1) "SACE" 3),
           (sampleExam "c2" "CS102" (Some "BSIT") (Some 1) "SACE" 3).
    split_and!; try (vm_compute; reflexivity); try discriminate; [left|right; left]. }
  assert (Hx : x ∈ generateExamSchedule examsWithSAS ["N-1"; "N-2"] 1)
    by (rewrite examsWithSAS_output; left).
  assert (Hy : y ∈ generateExamSchedule examsWithSAS ["N-1"; "N-2"] 1)
    by (rewrite examsWithSAS_output; right; left).
  assert (Hcx : currentPlacement (runPhases examsWithSAS ["N-1"; "N-2"] 1) x)
    by (vm_compute; reflexivity).
  assert (Hcy : currentPlacement (runPhases examsWithSAS ["N-1"; "N-2"] 1) y)
    by (vm_compute; reflexivity).
  split_and!;
    [exact Hx|exact Hy|exact Hcx|exact Hcy|apply Hsole|apply Hsole|exact Hmatrix|].
  exact (proj2 (proj2 (generateExamSchedule_conflict_checked
                         examsWithSAS ["N-1"; "N-2"] 1))
           x y "BSIT-1" Hx Hy Hcx Hcy (Hsole _) (Hsole _) Hmatrix).
Defined.

(** ** No double booking *)

Lemma examsTwoSections_output :
  generateExamSchedule examsTwoSections ["N-1"; "N-1"] 1
  = [ mkScheduledExam (sampleExam "p1" "CS301" None None "SACE" 3)
        "Day 1" "7:30-9:00" "N-1";
      mkScheduledExam (sampleExam "q1" "CS301" None None "SACE" 3)
        "Day 1" "7:30-9:00" "N-1" ].
Proof. vm_compute. reflexivity. Qed.

(** C3, as stated, fails for a room list that names a room twice: the two
    sections of one subject are both put in that room at one day and slot. *)
Lemma noDoubleBooking_counterexample :
  ¬ noDoubleBooking (generateExamSchedule examsTwoSections ["N-1"; "N-1"] 1).
Proof.
  rewrite examsTwoSections_output. intros Hno.
  by eapply (Hno 0 1); [|reflexivity..].
Qed.

(** C3, amended.  For every exam list, every room list that repeats no
    room identifier and every day count, no two distinct entries of the
    output of [generateExamSchedule] share day label, slot label and room
    identifier. *)
Theorem generateExamSchedule_no_double_booking exams rooms numDays :
  NoDup rooms →
  noDoubleBooking (generateExamSchedule exams rooms numDays).
Proof.
  intros Hrooms.
  destruct (Reachable_bookings _ _ _ _ Hrooms (runPhases_Reachable exams rooms numDays))
    as [_ Hnd].
  intros i j x y Hij Hx Hy Heq. apply Hij.
  eapply NoDup_lookup; [exact Hnd| |].
  - unfold generateExamSchedule in Hx. by rewrite list_lookup_fmap, Hx.
  - unfold generateExamSchedule in Hy. by rewrite list_lookup_fmap, Hy, Heq.
Qed.

Lemma generateExamSchedule_no_double_booking_witness :
  noDoubleBooking (generateExamSchedule examsTwoSections ["N-1"; "N-2"] 1).
Proof.
  apply (generateExamSchedule_no_double_booking examsTwoSections ["N-1"; "N-2"] 1).
  apply (bool_decide_unpack _). vm_compute. exact I.
Defined.

(** ** Sample runs and keyed records *)

Lemma examsPartialFailure_run :
  placement <$> generateExamSchedule examsPartialFailure ["N-1"; "N-2"] 1
  = [ ("y1", "Day 1", "7:30-9:00", "N-1"); ("y2", "Day 1", "9:00-10:30", "N-1");
      ("y3", "Day 1", "10:30-12:00", "N-1"); ("y4", "Day 1", "12:00-1:30", "N-1");
      ("y5", "Day 1", "1:30-3:00", "N-1"); ("y6", "Day 1", "3:00-4:30", "N-1");
      ("y7", "Day 1", "4:30-6:00", "N-1"); ("a1", "Day 1", "6:00-7:30", "N-2");
      ("b1", "Day 1", "7:30-9:00", "N-2"); ("b1", "Day 1", "9:00-10:30", "N-2") ]
  ∧ occupiedRooms (state (runPhases examsPartialFailure ["N-1"; "N-2"] 1))
      "Day 1" "6:00-7:30"
    = {["N-1"; "N-2"]}.
Proof. split; vm_compute; reflexivity. Qed.

Lemma keyed_NoDup (m : list (string * ScheduledExam)) :
  NoDup (OMap.keys m) →
  (∀ k x, (k, x) ∈ m → k = scheduledKey (CODE x) (SLOT x)) →
  NoDup (codeAndSlot <$> OMap.values m).
Proof.
  unfold OMap.keys, OMap.values.
  induction m as [|[k x] m IH]; simpl; [constructor|].
  intros [Hk Hnd]%NoDup_cons Hkey. apply NoDup_cons. split.
  - intros (x' & Hx' & Hin)%list_elem_of_fmap.
    apply list_elem_of_fmap in Hin as ([k' x''] & -> & Hin).
    apply Hk. apply list_elem_of_fmap. exists (k', x''). split; [|done].
    rewrite (Hkey k x) by left. rewrite (Hkey k' x'') by (by right).
    unfold codeAndSlot in Hx'. simpl in *. congruence.
  - apply IH; [done|]. intros k' x' Hin. apply Hkey. by right.
Qed.

Lemma scheduled_scheduleExam exam day slot room w b :
  scheduled (scheduleExam exam day slot room w b)
  = OMap.set (scheduledKey (code exam) (slotKey slot))
      (mkScheduledExam exam (dayKey day) (slotKey slot) room) (scheduled w).
Proof. done. Qed.

(** ** Failure of a group placement *)

Lemma scheduleAll_succeeds group day slot avail w :
  slot + 1 < length TIME_SLOTS ∨ existsb is6UnitSubject group = false →
  (scheduleAll group day slot avail w).1 = true.
Proof.
  revert avail w. induction group as [|e group IH]; intros avail w Hcond; [done|].
  simpl. destruct (is6UnitSubject e) eqn:Hsix.
  - destruct Hcond as [Hslot|Hnone]; [|simpl in Hnone; by rewrite Hsix in Hnone].
    unfold schedule6UnitExam.
    destruct (Nat.leb_spec (length TIME_SLOTS - 1) slot) as [Hlast|_];
      [simpl in *; lia|].
    apply IH. by left.
  - apply IH. destruct Hcond as [?|Hnone]; [by left|right].
    simpl in Hnone. by rewrite Hsix in Hnone.
Qed.

(** Where the atomicity of the Group Scheduler does hold: before the last
    slot of the day, or for a group without double-unit sections, a failed
    call leaves the world as it was. *)
Lemma tryScheduleGroup_failure_unchanged group day slot rooms cm w :
  slot + 1 < length TIME_SLOTS ∨ existsb is6UnitSubject group = false →
  (tryScheduleGroup group day slot rooms cm w).1 = false →
  (tryScheduleGroup group day slot rooms cm w).2 = w.
Proof.
  intros Hcond. unfold tryScheduleGroup.
  destruct group as [|first rest] eqn:Hg; [done|]. rewrite <- Hg in *.
  destruct (existsb (λ exam, hasConflict exam day slot (state w) cm) group); [done|].
  destruct (_ <? _)%nat; [done|].
  by rewrite scheduleAll_succeeds.
Qed.

(** C1 is broken by the code.  At the last slot of the day a group whose
    single-unit section precedes a double-unit section passes the conflict
    and room checks; the loop then commits the single-unit section and
    only afterwards [schedule6UnitExam] refuses the double-unit one:
    [tryScheduleGroup] answers false although a room has been claimed and
    a record emitted. *)
Theorem tryScheduleGroup_partial_commit :
  let result :=
    tryScheduleGroup examsMixedUnits 0 7 ["N-1"; "N-2"]
      (buildConflictMatrix examsMixedUnits) emptyWorld in
  result.1 = false
  ∧ placement <$> OMap.values (scheduled result.2)
    = [("a1", "Day 1", "6:00-7:30", "N-1")]
  ∧ occupiedRooms (state result.2) "Day 1" "6:00-7:30" = {["N-1"]}
  ∧ subjectScheduled (state result.2) !! "CS101" = Some ("Day 1", "6:00-7:30")
  ∧ result.2 ≠ emptyWorld.
Proof.
  split_and!; try (vm_compute; reflexivity).
  intros Heq. apply (f_equal (λ w, length (scheduled w))) in Heq.
  vm_compute in Heq. discriminate Heq.
Qed.

(** ** Double-unit sections *)

(** C4 is broken by the code.  The category lists of
    [generateExamSchedule] overlap: a section whose subject is both
    general-education and architecture is scheduled by phase 1 and again by
    phase 2, and a section that is both mathematics and architecture enters
    phase 2 twice.  A double-unit section of the first kind ends with four
    output entries, on two days; one of the second kind, with a single
    eligible room, ends with eight entries, the whole day. *)
Theorem double_unit_section_scheduled_twice :
  is6UnitSubject examLiteratureResearch = true
  ∧ placement <$> generateExamSchedule [examLiteratureResearch] ["C-101"] 3
    = [ ("r1", "Day 3", "1:30-3:00", "C-101");
        ("r1", "Day 3", "3:00-4:30", "C-101");
        ("r1", "Day 1", "7:30-9:00", "C-101");
        ("r1", "Day 1", "9:00-10:30", "C-101") ]
  ∧ is6UnitSubject examMathForArchitecture = true
  ∧ placement <$> generateExamSchedule [examMathForArchitecture] ["C-101"] 1
    = [ ("m6", "Day 1", "7:30-9:00", "C-101");
        ("m6", "Day 1", "9:00-10:30", "C-101");
        ("m6", "Day 1", "10:30-12:00", "C-101");
        ("m6", "Day 1", "12:00-1:30", "C-101");
        ("m6", "Day 1", "1:30-3:00", "C-101");
        ("m6", "Day 1", "3:00-4:30", "C-101");
        ("m6", "Day 1", "4:30-6:00", "C-101");
        ("m6", "Day 1", "6:00-7:30", "C-101") ].
Proof. split_and!; vm_compute; reflexivity. Qed.

(** ** Scenario A *)

Lemma tryScheduleGroup_single exam day slot rooms cm w room rest :
  is6UnitSubject exam = false →
  hasConflict exam day slot (state w) cm = false →
  getAvailableRooms exam day slot rooms (state w) false = room :: rest →
  tryScheduleGroup [exam] day slot rooms cm w
  = (true, scheduleExam exam day slot room w false).
Proof.
  intros Hsix Hconf Havail. unfold tryScheduleGroup.
  cbn [existsb]. rewrite Hsix, Hconf. cbn [orb]. rewrite Havail.
  cbn [length Nat.ltb Nat.leb scheduleAll hd]. by rewrite Hsix.
Qed.

(** Phase 1 on the section of scenario A alone, from any world. *)
Lemma scheduleGenEdTimeBlocks_ethics exam rooms cm numDays w room rest :
  subjectId exam = "ETHC101" → lec exam = 3 → 0 < numDays →
  hasConflict exam 0 0 (state w) cm = false →
  getAvailableRooms exam 0 0 rooms (state w) false = room :: rest →
  scheduleGenEdTimeBlocks [exam] rooms cm numDays w
  = {| scheduledCount := 1; failed := [];
       world := scheduleExam exam 0 0 room w false |}.
Proof.
  intros Hsubj Hlec Hdays Hconf Havail.
  assert (Hsix : is6UnitSubject exam = false) by (unfold is6UnitSubject; by rewrite Hlec).
  unfold scheduleGenEdTimeBlocks, OMap.groupBy. cbn [fold_left].
  rewrite Hsubj.
  replace (getGenEdType "ETHC101") with (Some "ETHC") by (vm_compute; reflexivity).
  cbn [OMap.push fold_left scheduleGenEdType].
  unfold groupExamsBySubject, OMap.groupBy. cbn [fold_left OMap.push OMap.values map snd].
  replace (OMap.get "ETHC" GEN_ED_TIME_BLOCKS)
    with (Some [ {| blockDay := 0; blockSlot := 0; capacity := 14 |} ])
    by (vm_compute; reflexivity).
  cbn [default from_option id]. unfold blockCells.
  rewrite filter_cons, decide_True by (simpl; lia).
  rewrite filter_nil. cbn [map blockDay blockSlot fold_left].
  unfold placeGroup. cbn [scanCells world].
  rewrite (tryScheduleGroup_single _ _ _ _ _ _ room rest) by done.
  done.
Qed.

Lemma hasConflict_empty_ledger exam day slot st cm :
  subjectScheduled st = ∅ → hasConflict exam day slot st cm = false.
Proof.
  intros Hempty. apply hasConflict_false. intros k other _ _.
  by rewrite Hempty, lookup_empty.
Qed.

Lemma filter_singleton_true {A} (P : A → Prop) `{∀ x, Decision (P x)} x :
  P x → filter P [x] = [x].
Proof. intros HP. by rewrite filter_cons, decide_True. Qed.

Lemma filter_singleton_false {A} (P : A → Prop) `{∀ x, Decision (P x)} x :
  ¬ P x → filter P [x] = [].
Proof. intros HP. by rewrite filter_cons, decide_False. Qed.

(** The run on the section of scenario A alone. *)
Lemma runPhases_ethics exam rooms numDays room rest :
  subjectId exam = "ETHC101" → lec exam = 3 →
  Str.toUpperCase (dept exam) ≠ "SAS" →
  0 < numDays →
  getAvailableRooms exam 0 0 rooms (state emptyWorld) false = room :: rest →
  runPhases [exam] rooms numDays = scheduleExam exam 0 0 room emptyWorld false.
Proof.
  intros Hsubj Hlec Hdept Hdays Havail. unfold runPhases, eligibleExams. cbv zeta.
  rewrite (filter_singleton_true _ exam)
    by (by destruct (String.eqb_spec (Str.toUpperCase (dept exam)) "SAS")).
  rewrite (filter_singleton_true (λ e, isGenEdSubject (subjectId e)) exam)
    by (rewrite Hsubj; vm_compute; exact I).
  rewrite (filter_singleton_false (λ e, isMathSubject e) exam)
    by (unfold isMathSubject; rewrite Hsubj;
        replace (Str.startsWith (Str.toUpperCase "ETHC101") "MATH") with false
          by (vm_compute; reflexivity); simpl; tauto).
  rewrite (filter_singleton_false (λ e, isArchSubject (subjectId e)) exam)
    by (rewrite Hsubj; vm_compute; tauto).
  rewrite (filter_singleton_false
             (λ e, negb (isGenEdSubject (subjectId e)) && negb (isMathSubject e)
                   && negb (isArchSubject (subjectId e))) exam).
  2:{ rewrite Hsubj.
      replace (isGenEdSubject "ETHC101") with true by (vm_compute; reflexivity).
      simpl. tauto. }
  rewrite (scheduleGenEdTimeBlocks_ethics exam rooms _ numDays emptyWorld room rest)
    by first [done | by apply hasConflict_empty_ledger].
  done.
Qed.

(** C5, as stated, fails when the section of scenario A belongs to the
    student-affairs department: the premises hold and the output is empty. *)
Lemma scenarioA_counterexample :
  subjectId examEthicsSAS = "ETHC101" ∧ course examEthicsSAS = Some "BSIT"
  ∧ yearLevel examEthicsSAS = Some 1 ∧ lec examEthicsSAS = 3
  ∧ 0 < 1
  ∧ hasConflict examEthicsSAS 0 0 (state emptyWorld)
      (buildConflictMatrix (eligibleExams [examEthicsSAS])) = false
  ∧ getAvailableRooms examEthicsSAS 0 0 ["A-101"] (state emptyWorld) false = ["A-101"]
  ∧ generateExamSchedule [examEthicsSAS] ["A-101"] 1 = [].
Proof. split_and!; try (vm_compute; reflexivity); lia. Qed.

(** C5, amended.  For a section with subject ETHC101, course BSIT, year
    level 1 and 3 lecture units whose department is not the student-affairs
    one, with at least one day in the grid: (a) from any ledger in which
    the pinned block of ETHC, day 1 and first slot, passes the conflict
    check for the section and has a building-eligible room free, phase 1
    run on the section alone places it at that block, in the first such
    room; (b) [generateExamSchedule] on the input made of that section
    alone, with a building-eligible room in the room list, returns exactly
    one entry, at Day 1 and the first slot. *)
Theorem scenarioA_pinned_block exam rooms numDays :
  subjectId exam = "ETHC101" → course exam = Some "BSIT" →
  yearLevel exam = Some 1 → lec exam = 3 →
  Str.toUpperCase (dept exam) ≠ "SAS" →
  0 < numDays →
  (∀ cm w room rest,
     hasConflict exam 0 0 (state w) cm = false →
     getAvailableRooms exam 0 0 rooms (state w) false = room :: rest →
     scheduleGenEdTimeBlocks [exam] rooms cm numDays w
     = {| scheduledCount := 1; failed := [];
          world := scheduleExam exam 0 0 room w false |})
  ∧ (∀ room rest,
       getAvailableRooms exam 0 0 rooms (state emptyWorld) false = room :: rest →
       generateExamSchedule [exam] rooms numDays
       = [mkScheduledExam exam "Day 1" "7:30-9:00" room]).
Proof.
  intros Hsubj Hcourse Hyear Hlec Hdept Hdays. split.
  - intros cm w room rest Hconf Havail. by eapply scheduleGenEdTimeBlocks_ethics.
  - intros room rest Havail. unfold generateExamSchedule.
    by rewrite (runPhases_ethics exam rooms numDays room rest).
Qed.

Lemma scenarioA_pinned_block_witness :
  generateExamSchedule [examEthics] ["A-101"; "L-201"; "M-3"] 2
  = [mkScheduledExam examEthics "Day 1" "7:30-9:00" "L-201"].
Proof.
  apply (scenarioA_pinned_block examEthics ["A-101"; "L-201"; "M-3"] 2)
    with (rest := ["M-3"]);
    try reflexivity; try (vm_compute; reflexivity).
  - vm_compute. discriminate.
  - lia.
Defined.

(** ** Keys of the output accumulator *)

Lemma length_append a b : String.length (a +:+ b) = String.length a + String.length b.
Proof.
  induction a as [|c a IH]; [done|]. rewrite append_cons. simpl. by rewrite IH.
Qed.

Lemma slice_length_append c k t : Str.slice (String.length c + k) (c +:+ t) = Str.slice k t.
Proof. induction c as [|a c IH]; [done|]. rewrite append_cons. simpl. apply IH. Qed.

(** Two ways of cutting one string: the shorter tail is the end of the
    longer one. *)
Lemma append_tail c t c' t' :
  c +:+ t = c' +:+ t' → (String.length t ≤ String.length t')%nat →
  t = Str.slice (String.length t' - String.length t) t'
  ∧ (String.length t = String.length t' → c = c').
Proof.
  intros Heq Hlen.
  assert (Hc : String.length c = String.length c' + (String.length t' - String.length t)).
  { apply (f_equal String.length) in Heq. rewrite !length_append in Heq. lia. }
  split.
  - rewrite <- (slice_length_append c' _ t'), <- Heq, <- Hc.
    rewrite <- (Nat.add_0_r (String.length c)). by rewrite slice_length_append.
  - intros Hsame. clear Hlen. revert c' Heq Hc.
    induction c as [|a c IH]; intros [|a' c'] Heq Hc; simpl in Hc; try lia; [done|].
    rewrite !append_cons in Heq. injection Heq as -> Heq.
    f_equal. apply IH; [done|lia].
Qed.

Lemma scheduledKey_inj c c' s s' :
  s < length TIME_SLOTS → s' < length TIME_SLOTS →
  scheduledKey c (slotKey s) = scheduledKey c' (slotKey s') →
  c = c' ∧ s = s'.
Proof.
  unfold scheduledKey. simpl. intros Hs Hs' Heq.
  destruct (Nat.le_ge_cases (String.length ("-" +:+ slotKey s))
                            (String.length ("-" +:+ slotKey s'))) as [Hle|Hle].
  - destruct (append_tail _ _ _ _ Heq Hle) as [Htail Hc]. revert Htail Hc. clear Heq Hle.
    do 8 (destruct s as [|s];
          [do 8 (destruct s' as [|s'];
                 [vm_compute; intros Htail Hc;
                  first [discriminate Htail | split; [by apply Hc|done]]|]); lia|]).
    lia.
  - symmetry in Heq.
    destruct (append_tail _ _ _ _ Heq Hle) as [Htail Hc]. revert Htail Hc. clear Heq Hle.
    do 8 (destruct s as [|s];
          [do 8 (destruct s' as [|s'];
                 [vm_compute; intros Htail Hc;
                  first [discriminate Htail | split; [symmetry; by apply Hc|done]]|]); lia|]).
    lia.
Qed.

Lemma get_scheduleExam_other exam day slot room w b c s :
  s < length TIME_SLOTS → slot < length TIME_SLOTS →
  (code exam ≠ c ∨ slot ≠ s) →
  OMap.get (scheduledKey c (slotKey s)) (scheduled (scheduleExam exam day slot room w b))
  = OMap.get (scheduledKey c (slotKey s)) (scheduled w).
Proof.
  intros Hs Hslot Hne. rewrite scheduled_scheduleExam, OMap_get_set.
  case_decide as Hkey; [|done].
  apply scheduledKey_inj in Hkey as [-> ->]; [|done..]. by destruct Hne.
Qed.

Lemma get_scheduleExam_same exam day slot room w b :
  OMap.get (scheduledKey (code exam) (slotKey slot))
    (scheduled (scheduleExam exam day slot room w b))
  = Some (mkScheduledExam exam (dayKey day) (slotKey slot) room).
Proof. rewrite scheduled_scheduleExam, OMap_get_set. by rewrite decide_True. Qed.

(** What the output keeps of a double-unit section whose code no
    single-unit section shares: as soon as the output has a record with its
    code, it has the pair written by the latest placement of that code. *)
Lemma Reachable_double_unit_pair eligible rooms cm w c :
  (∀ e, e ∈ eligible → code e = c → is6UnitSubject e = true) →
  Reachable eligible rooms cm w →
  (∃ k x, (k, x) ∈ scheduled w ∧ CODE x = c) →
  ∃ exam day slot room,
    exam ∈ eligible ∧ code exam = c ∧ doubleSlotPair (scheduled w) exam day slot room.
Proof.
  intros Hcode Hw. unfold doubleSlotPair. induction Hw as
    [|exam0 day0 slot0 room0 w Hw IH He Hsix Hslot Hroom Hconf Hfree
     |exam0 day0 slot0 room0 w Hw IH He Hsix Hslot Hroom Hconf Hfree].
  - intros (k & x & []%elem_of_nil & _).
  - assert (Hother : code exam0 ≠ c).
    { intros Hc. specialize (Hcode exam0 He Hc). congruence. }
    intros (k & x & [[_ ->]|Hin]%OMap_set_elem & Hx); [done|].
    destruct IH as (exam & day & slot & room & ? & <- & Hs & Hfst & Hsnd); [by eauto|].
    exists exam, day, slot, room. split_and!; try done.
    + rewrite get_scheduleExam_other; [done|lia|done|by left].
    + rewrite get_scheduleExam_other; [done|lia|done|by left].
  - destruct (decide (code exam0 = c)) as [<-|Hother].
    + intros _. exists exam0, day0, slot0, room0. split_and!; try done.
      * rewrite get_scheduleExam_other; [|lia|lia|right; lia].
        apply get_scheduleExam_same.
      * apply get_scheduleExam_same.
    + intros (k & x & [[_ ->]|[[_ ->]|Hin]%OMap_set_elem]%OMap_set_elem & Hx);
        [done..|].
      destruct IH as (exam & day & slot & room & ? & <- & Hs & Hfst & Hsnd); [by eauto|].
      exists exam, day, slot, room. split_and!; try done.
      * rewrite !get_scheduleExam_other; [done|lia..|by left|lia|lia|by left].
      * rewrite !get_scheduleExam_other; [done|lia..|by left|lia|lia|by left].
Qed.

(** X29.  Where the contiguity of double-unit sections does hold.  Let the
    code of a double-unit section be shared with no single-unit section of
    the input.  If the output has any entry with that code, it has two entries
    with that code on one day, in two consecutive slots and in one room:
    those of the latest placement of the section. *)
Lemma generateExamSchedule_double_unit_pair exams rooms numDays c :
  (∀ e, e ∈ eligibleExams exams → code e = c → is6UnitSubject e = true) →
  (∃ x, x ∈ generateExamSchedule exams rooms numDays ∧ CODE x = c) →
  ∃ x y slot,
    x ∈ generateExamSchedule exams rooms numDays
    ∧ y ∈ generateExamSchedule exams rooms numDays
    ∧ CODE x = c ∧ CODE y = c ∧ UNITS x = 6 ∧ UNITS y = 6
    ∧ DAY x = DAY y ∧ ROOM x = ROOM y
    ∧ slot + 1 < length TIME_SLOTS
    ∧ SLOT x = slotKey slot ∧ SLOT y = slotKey (slot + 1).
Proof.
  intros Hcode (x & [k Hin]%values_elem & Hx).
  destruct (Reachable_double_unit_pair _ _ _ _ c Hcode
              (runPhases_Reachable exams rooms numDays))
    as (exam & day & slot & room & He & Hc & Hs & Hfst & Hsnd); [by eauto|].
  apply OMap_get_elem in Hfst, Hsnd.
  exists (mkScheduledExam exam (dayKey day) (slotKey slot) room),
         (mkScheduledExam exam (dayKey day) (slotKey (slot + 1)) room), slot.
  assert (lec exam = 6) as Hlec.
  { specialize (Hcode exam He Hc). unfold is6UnitSubject in Hcode.
    by apply Nat.eqb_eq in Hcode. }
  split_and!; try done; apply values_elem; eauto.
Qed.

Lemma generateExamSchedule_double_unit_pair_witness :
  ∃ x y slot,
    x ∈ generateExamSchedule examsDoubleThenSingle ["N-1"; "N-2"] 1
    ∧ y ∈ generateExamSchedule examsDoubleThenSingle ["N-1"; "N-2"] 1
    ∧ CODE x = "x1" ∧ CODE y = "x1" ∧ UNITS x = 6 ∧ UNITS y = 6
    ∧ DAY x = DAY y ∧ ROOM x = ROOM y
    ∧ slot + 1 < length TIME_SLOTS
    ∧ SLOT x = slotKey slot ∧ SLOT y = slotKey (slot + 1).
Proof.
  apply (generateExamSchedule_double_unit_pair examsDoubleThenSingle ["N-1"; "N-2"] 1 "x1").
  - intros e He.
    assert (Helig : eligibleExams examsDoubleThenSingle = examsDoubleThenSingle)
      by (vm_compute; reflexivity).
    rewrite Helig in He.
    apply elem_of_cons in He as [->|He]; [reflexivity|].
    apply elem_of_cons in He as [->|He]; [discriminate|].
    by apply elem_of_nil in He.
  - exists (mkScheduledExam (sampleExam "x1" "CS201" (Some "BSIT") (Some 1) "SACE" 6)
              "Day 1" "7:30-9:00" "N-1").
    split; [|reflexivity]. rewrite examsDoubleThenSingle_output. left.
Defined.

(** ** The earlier variant *)

Section V4.
Context (eligible : list Exam) (rooms : list string) (cm : ConflictMatrix).
Context (P : World → Prop).
Hypothesis P_step : ∀ exam day slot room w,
  exam ∈ eligible → P w → P (V4.scheduleExam exam day slot room w).

Lemma V4_scheduleAll_preserves group day slot avail w :
  (∀ e, e ∈ group → e ∈ eligible) → P w →
  P (V4.scheduleAll group day slot avail w).
Proof.
  revert avail w. induction group as [|e group IH]; intros avail w Hsub Hw; [done|].
  simpl. apply IH; [intros e' He'; apply Hsub; by right|].
  apply P_step; [apply Hsub; left|done].
Qed.

Lemma V4_tryScheduleGroup_preserves group day slot w :
  (∀ e, e ∈ group → e ∈ eligible) → P w →
  P (V4.tryScheduleGroup group day slot rooms cm w).2.
Proof.
  intros Hsub Hw. unfold V4.tryScheduleGroup.
  destruct group as [|first rest] eqn:Hg; [done|]. rewrite <- Hg in *.
  destruct (existsb _ group); [done|].
  destruct (_ <? _)%nat; [done|].
  by apply V4_scheduleAll_preserves.
Qed.

Lemma V4_batches_elem group batch e :
  batch ∈ V4.batches group → e ∈ batch → e ∈ group.
Proof.
  unfold V4.batches. intros (j & -> & _)%list_elem_of_fmap He.
  eapply elem_of_sublist; [|apply sublist_drop].
  eapply elem_of_sublist; [exact He|apply sublist_take].
Qed.

Lemma V4_tryScheduleGroupAnywhere_preserves group numDays w :
  (∀ e, e ∈ group → e ∈ eligible) → P w →
  P (V4.tryScheduleGroupAnywhere group rooms cm numDays w).2.
Proof.
  intros Hsub Hw. unfold V4.tryScheduleGroupAnywhere.
  destruct (_ <=? _)%nat.
  - apply scanCells_preserves; [|done].
    intros day slot w' _ Hw'. by apply V4_tryScheduleGroup_preserves.
  - assert (Hbatches : ∀ batch, batch ∈ V4.batches group →
                         ∀ e, e ∈ batch → e ∈ eligible).
    { intros batch Hb e He. apply Hsub. by eapply V4_batches_elem. }
    change w with (true, w).2 in Hw. revert Hw Hbatches.
    generalize (true, w). generalize (V4.batches group).
    intros bs. induction bs as [|batch bs IH]; intros [ok w'] Hw' Hbs; [done|].
    simpl. apply IH; [|intros b Hb; apply Hbs; by right].
    pose proof (scanCells_preserves P
                  (λ day slot, V4.tryScheduleGroup batch day slot rooms cm)
                  (gridCells numDays) w') as Hscan.
    destruct (scanCells _ _ w') as [[] w'']; simpl;
      (apply Hscan; [|done]; intros day slot w3 _ Hw3;
       apply V4_tryScheduleGroup_preserves; [|done]; apply Hbs; left).
Qed.

Lemma V4_tryScheduleExam_preserves exam numDays w :
  exam ∈ eligible → P w → P (V4.tryScheduleExam exam rooms cm numDays w).2.
Proof.
  intros He Hw. unfold V4.tryScheduleExam. apply scanCells_preserves; [|done].
  intros day slot w' _ Hw'. unfold V4.tryScheduleExamAt.
  destruct (hasConflict _ _ _ _ _); [done|].
  destruct (V4.getAvailableRooms _ _ _ _ _); [done|]. by apply P_step.
Qed.

End V4.

(** Whatever every commit of an eligible section preserves holds of the
    world the two phases of the earlier variant leave. *)
Lemma V4_runPhases_preserves (P : World → Prop) exams rooms numDays :
  P emptyWorld →
  (∀ exam day slot room w,
     exam ∈ eligibleExams exams → P w → P (V4.scheduleExam exam day slot room w)) →
  P (V4.runPhases exams rooms numDays).
Proof.
  intros Hempty Hstep. unfold V4.runPhases. cbv zeta.
  set (eligible := eligibleExams exams).
  set (cm := V4.buildConflictMatrix eligible).
  assert (Hgroups : ∀ group, group ∈ OMap.values (sortBySize (groupExamsBySubject eligible)) →
                      ∀ e, e ∈ group → e ∈ eligible).
  { intros group [k Hin]%values_elem e He.
    apply (proj1 (sortBySize_elem _ _)) in Hin.
    by apply (groupBy_member (λ exam, Some (normSubject exam)) _ _ _ _ Hin) in He as [? _]. }
  revert Hgroups. generalize (OMap.values (sortBySize (groupExamsBySubject eligible))).
  intros groups Hgroups.
  assert (Hphase1 : ∀ acc : list Exam * World,
            (∀ e, e ∈ acc.1 → e ∈ eligible) → P acc.2 →
            let phase1 :=
              fold_left
                (λ '(phase1Fail, w) examGroup,
                   match V4.tryScheduleGroupAnywhere examGroup rooms cm numDays w with
                   | (true, w') => (phase1Fail, w')
                   | (false, w') => (phase1Fail ++ examGroup, w')
                   end) groups acc in
            (∀ e, e ∈ phase1.1 → e ∈ eligible) ∧ P phase1.2).
  { induction groups as [|group groups IH]; intros [fails w] Hfails Hw; [done|].
    simpl. apply IH; [intros g Hg; apply Hgroups; by right|..];
      pose proof (V4_tryScheduleGroupAnywhere_preserves eligible rooms cm P Hstep
                    group numDays w (Hgroups group ltac:(left)) Hw) as Hany;
      destruct (V4.tryScheduleGroupAnywhere group rooms cm numDays w) as [[] w'];
      simpl in *; try done.
    intros e [?|?]%elem_of_app; [auto|]. eapply Hgroups; [left|done]. }
  destruct (Hphase1 ([], emptyWorld)) as [Hfails Hw1];
    [by intros e ?%elem_of_nil|done|].
  revert Hfails Hw1. cbv zeta.
  generalize (fold_left
                (λ '(phase1Fail, w) examGroup,
                   match V4.tryScheduleGroupAnywhere examGroup rooms cm numDays w with
                   | (true, w') => (phase1Fail, w')
                   | (false, w') => (phase1Fail ++ examGroup, w')
                   end) groups ([], emptyWorld)).
  intros [fails w1]. simpl. clear Hphase1. revert w1.
  induction fails as [|e fails IH]; intros w1 Hfails Hw1; [done|].
  simpl. apply IH; [intros e' He'; apply Hfails; by right|].
  apply (V4_tryScheduleExam_preserves eligible); [done|apply Hfails; left|done].
Qed.

Lemma V4_records exams rooms numDays k x :
  (k, x) ∈ scheduled (V4.runPhases exams rooms numDays) →
  ∃ exam dk sk room,
    exam ∈ eligibleExams exams ∧ x = V4.mkScheduledExam exam dk sk room.
Proof.
  revert k x. apply V4_runPhases_preserves.
  - by intros k x ?%elem_of_nil.
  - intros exam day slot room w He IH k x [[_ ->]|Hin]%OMap_set_elem; [|by eauto].
    by eexists _, _, _, _.
Qed.

Lemma V4_keys exams rooms numDays :
  NoDup (OMap.keys (scheduled (V4.runPhases exams rooms numDays)))
  ∧ ∀ k x, (k, x) ∈ scheduled (V4.runPhases exams rooms numDays) →
           k = scheduledKey (CODE x) (SLOT x).
Proof.
  apply (V4_runPhases_preserves
           (λ w, NoDup (OMap.keys (scheduled w))
                 ∧ ∀ k x, (k, x) ∈ scheduled w → k = scheduledKey (CODE x) (SLOT x))).
  - split; [constructor|]. by intros k x ?%elem_of_nil.
  - intros exam day slot room w _ [Hnd Hkey]. split; [by apply OMap_set_NoDup|].
    intros k x [[-> ->]|Hin]%OMap_set_elem; [done|by apply Hkey].
Qed.

(** ** Student-affairs sections *)

(** C9.  For every input, every entry of the output of
    [generateExamSchedule] is the record of a section of the input whose
    upper-cased department is not SAS, so no student-affairs section
    appears in the output; the whole run, conflict matrix included, is the
    run on the input without its student-affairs sections; and every edge
    of the matrix used for the conflict checks joins two sections whose
    department is not SAS.  The same holds of the earlier variant. *)
Theorem generateExamSchedule_excludes_SAS exams rooms numDays :
  (∀ x, x ∈ generateExamSchedule exams rooms numDays →
     Str.toUpperCase (DEPT x) ≠ "SAS"
     ∧ ∃ exam dk sk room,
         exam ∈ exams ∧ Str.toUpperCase (dept exam) ≠ "SAS"
         ∧ x = mkScheduledExam exam dk sk room)
  ∧ runPhases exams rooms numDays = runPhases (eligibleExams exams) rooms numDays
  ∧ (∀ k A B,
       inMatrix (buildConflictMatrix (eligibleExams exams)) k A B →
       ∃ e1 e2, e1 ∈ exams ∧ e2 ∈ exams
         ∧ Str.toUpperCase (dept e1) ≠ "SAS" ∧ Str.toUpperCase (dept e2) ≠ "SAS"
         ∧ courseYearKey e1 = Some k ∧ courseYearKey e2 = Some k
         ∧ normSubject e1 = A ∧ normSubject e2 = B)
  ∧ (∀ x, x ∈ V4.generateExamSchedule exams rooms numDays →
       Str.toUpperCase (DEPT x) ≠ "SAS"
       ∧ ∃ exam dk sk room,
           exam ∈ exams ∧ Str.toUpperCase (dept exam) ≠ "SAS"
           ∧ x = V4.mkScheduledExam exam dk sk room)
  ∧ V4.runPhases exams rooms numDays = V4.runPhases (eligibleExams exams) rooms numDays.
Proof.
  split_and!.
  - intros x [k Hin]%values_elem.
    eapply Reachable_records in Hin as (exam & dk & sk & room & He & ->);
      [|apply runPhases_Reachable].
    apply eligibleExams_elem in He as [He Hdept]. split; [done|].
    by exists exam, dk, sk, room.
  - unfold runPhases. by rewrite eligibleExams_idemp.
  - intros k A B (e1 & e2 & [? ?]%eligibleExams_elem & [? ?]%eligibleExams_elem & Hrest)
      %buildConflictMatrix_edges.
    exists e1, e2. naive_solver.
  - intros x [k Hin]%values_elem.
    apply V4_records in Hin as (exam & dk & sk & room & He & ->).
    apply eligibleExams_elem in He as [He Hdept]. split; [done|].
    by exists exam, dk, sk, room.
  - unfold V4.runPhases. by rewrite eligibleExams_idemp.
Qed.

Lemma generateExamSchedule_excludes_SAS_witness :
  Str.toUpperCase
    (DEPT (mkScheduledExam (sampleExam "c2" "CS102" (Some "BSIT") (Some 1) "SACE" 3)
             "Day 1" "9:00-10:30" "N-1")) ≠ "SAS".
Proof.
  refine (proj1 (proj1 (generateExamSchedule_excludes_SAS
                          examsWithSAS ["N-1"; "N-2"] 1) _ _)).
  rewrite examsWithSAS_output. right. left.
Defined.

(** ** One output entry per section code and slot label *)

(** C10.  The output of every run holds at most one entry per pair of
    section code and slot label.  Records are stored under the key made of
    code, a dash and the slot label: when a section that was placed at a
    slot is placed again at the same slot index, on whatever day and in
    whatever room, the record under that key becomes the later one, the
    keys of the accumulator stay as they were, so the earlier record is
    gone unless the two are equal, and the room of the earlier placement
    is still booked in the ledger.  A run in which this happens after a
    partial group failure: section a1 is committed to room N-1 in the last
    slot by a group call that then fails, and is placed again in that slot
    by phase 4, in room N-2; the output has one entry for it and the ledger
    books both rooms.  The earlier variant keys its output the same way. *)
Theorem output_keyed_by_code_and_slot :
  (∀ exams rooms numDays,
     NoDup (codeAndSlot <$> generateExamSchedule exams rooms numDays))
  ∧ (∀ exam day day' slot room room' w b b',
       let key := scheduledKey (code exam) (slotKey slot) in
       let w1 := scheduleExam exam day slot room w b in
       let w2 := scheduleExam exam day' slot room' w1 b' in
       OMap.get key (scheduled w1)
       = Some (mkScheduledExam exam (dayKey day) (slotKey slot) room)
       ∧ OMap.get key (scheduled w2)
         = Some (mkScheduledExam exam (dayKey day') (slotKey slot) room')
       ∧ OMap.keys (scheduled w2) = OMap.keys (scheduled w1)
       ∧ (NoDup (OMap.keys (scheduled w)) →
          ∀ x, (key, x) ∈ scheduled w2 →
               x = mkScheduledExam exam (dayKey day') (slotKey slot) room')
       ∧ room ∈ occupiedRooms (state w2) (dayKey day) (slotKey slot))
  ∧ (filter (λ p, p.1.1.1 = "a1")
       (placement <$> generateExamSchedule examsPartialFailure ["N-1"; "N-2"] 1)
     = [("a1", "Day 1", "6:00-7:30", "N-2")]
     ∧ occupiedRooms (state (runPhases examsPartialFailure ["N-1"; "N-2"] 1))
         "Day 1" "6:00-7:30"
       = {["N-1"; "N-2"]})
  ∧ (∀ exams rooms numDays,
       NoDup (codeAndSlot <$> V4.generateExamSchedule exams rooms numDays))
  ∧ (∀ exam day day' slot room room' w,
       let key := scheduledKey (code exam) (slotKey slot) in
       let w1 := V4.scheduleExam exam day slot room w in
       let w2 := V4.scheduleExam exam day' slot room' w1 in
       OMap.get key (scheduled w2)
       = Some (V4.mkScheduledExam exam (dayKey day') (slotKey slot) room')
       ∧ OMap.keys (scheduled w2) = OMap.keys (scheduled w1)
       ∧ room ∈ occupiedRooms (state w2) (dayKey day) (slotKey slot)).
Proof.
  split_and!.
  - intros exams rooms numDays.
    destruct (Reachable_keys _ _ _ _ (runPhases_Reachable exams rooms numDays))
      as [Hnd Hkey].
    by apply keyed_NoDup.
  - intros exam day day' slot room room' w b b' key w1 w2.
    assert (Hin1 : key ∈ OMap.keys (scheduled w1)).
    { unfold w1. rewrite scheduled_scheduleExam, OMap_set_keys.
      case_bool_decide; [done|]. apply elem_of_app. right. left. }
    split_and!.
    + unfold w1. rewrite scheduled_scheduleExam, OMap_get_set. by rewrite decide_True.
    + unfold w2. rewrite scheduled_scheduleExam, OMap_get_set. by rewrite decide_True.
    + unfold w2. rewrite scheduled_scheduleExam, OMap_set_keys.
      by rewrite bool_decide_eq_true_2.
    + intros Hnd x Hx. apply OMap_elem_get in Hx.
      * unfold w2 in Hx. rewrite scheduled_scheduleExam, OMap_get_set in Hx.
        rewrite decide_True in Hx by done. congruence.
      * unfold w2, w1. rewrite !scheduled_scheduleExam. by do 2 apply OMap_set_NoDup.
    + unfold w2. apply occupiedRooms_scheduleExam_mono.
      apply occupiedRooms_scheduleExam_claimed.
  - destruct examsPartialFailure_run as [-> _]. vm_compute. reflexivity.
  - apply examsPartialFailure_run.
  - intros exams rooms numDays. destruct (V4_keys exams rooms numDays) as [Hnd Hkey].
    by apply keyed_NoDup.
  - intros exam day day' slot room room' w key w1 w2.
    assert (Hin1 : key ∈ OMap.keys (scheduled w1)).
    { unfold w1, V4.scheduleExam. cbn [scheduled]. rewrite OMap_set_keys.
      case_bool_decide; [done|]. apply elem_of_app. right. left. }
    split_and!.
    + unfold w2, V4.scheduleExam at 1. cbn [scheduled].
      rewrite OMap_get_set. by rewrite decide_True.
    + unfold w2, V4.scheduleExam at 1. cbn [scheduled].
      rewrite OMap_set_keys. by rewrite bool_decide_eq_true_2.
    + unfold w2, w1, V4.scheduleExam. cbn [state].
      rewrite occupiedRooms_claimRoom. case_decide as Hcell.
      * destruct Hcell as [-> _]. rewrite occupiedRooms_claimRoom.
        rewrite decide_True by done. set_solver.
      * rewrite occupiedRooms_claimRoom. rewrite decide_True by done. set_solver.
Qed.

(** ** Room identifiers and buildings *)

Lemma takeUpper_dropUpper s : Str.takeUpper s +:+ Str.dropUpper s = s.
Proof.
  induction s as [|c s IH]; [done|]. simpl.
  destruct (Str.isUpper c); [|done]. rewrite append_cons. by rewrite IH.
Qed.

Lemma takeUpper_idemp s : Str.takeUpper (Str.takeUpper s) = Str.takeUpper s.
Proof.
  induction s as [|c s IH]; [done|]. simpl.
  destruct (Str.isUpper c) eqn:Hc; [|done]. simpl. by rewrite Hc, IH.
Qed.

Lemma takeUpper_dash b rest :
  Str.takeUpper b = b → Str.takeUpper (b +:+ "-" +:+ rest) = b.
Proof.
  induction b as [|c b IH]; [done|]. simpl.
  destruct (Str.isUpper c) eqn:Hc; [|done]. intros [= Hb].
  by rewrite IH.
Qed.

Lemma dropUpper_dash b rest :
  Str.takeUpper b = b → Str.dropUpper (b +:+ "-" +:+ rest) = "-" +:+ rest.
Proof.
  induction b as [|c b IH]; [done|]. simpl.
  destruct (Str.isUpper c) eqn:Hc; [|done]. intros [= Hb].
  by rewrite IH.
Qed.

(** X1.  [getBuildingFromRoom] answers a non-empty building exactly for
    the room identifiers that are that building, a dash, and anything: the
    building is a non-empty run of capital letters, and it is the whole
    run of capitals the identifier starts with.  For every other
    identifier (no capital first, or no dash right after the capitals) the
    answer is the empty string. *)
Theorem getBuildingFromRoom_spec room b :
  b ≠ EmptyString →
  getBuildingFromRoom room = b
  ↔ Str.takeUpper b = b ∧ ∃ rest, room = b +:+ "-" +:+ rest.
Proof.
  intros Hb. unfold getBuildingFromRoom. split.
  - intros Hroom.
    pose proof (takeUpper_dropUpper room) as Hsplit.
    pose proof (takeUpper_idemp room) as Hidem.
    destruct (Str.takeUpper room) as [|c t]; [done|].
    destruct (Str.dropUpper room) as [|d rest]; [done|].
    destruct (Ascii.ascii_dec d "-") as [->|Hd].
    + subst b. split; [done|]. by exists rest.
    + exfalso. apply Hb. rewrite <- Hroom. clear -Hd.
      destruct d as [[] [] [] [] [] [] [] []]; done.
  - intros [Hupper [rest ->]].
    rewrite takeUpper_dash, dropUpper_dash by done.
    destruct b; [done|]. by rewrite append_cons.
Qed.

Lemma getBuildingFromRoom_spec_witness :
  getBuildingFromRoom "NB-204" = "NB".
Proof.
  apply (getBuildingFromRoom_spec "NB-204" "NB"); [done|].
  split; [reflexivity|]. by exists "204".
Defined.

Lemma getAvailableBuildings_campus dept subjectId b :
  b ∈ getAvailableBuildings dept subjectId →
  b ∈ ["A"; "N"; "K"; "L"; "M"; "J"; "B"; "C"].
Proof.
  unfold getAvailableBuildings.
  repeat match goal with |- context [if ?c then _ else _] => destruct c end;
    intros Hb; repeat (apply elem_of_cons in Hb as [->|Hb]; [set_solver|]);
    by apply elem_of_nil in Hb.
Qed.

Lemma getAvailableRooms_building exam day slot allRooms st consecutive r :
  r ∈ getAvailableRooms exam day slot allRooms st consecutive →
  getBuildingFromRoom r ∈ getAvailableBuildings (dept exam) (subjectId exam).
Proof.
  unfold getAvailableRooms.
  by intros [_ [? _]%list_elem_of_filter]%list_elem_of_filter.
Qed.

(** X2.  The rooms [getAvailableRooms] offers are exactly the rooms of the
    list whose building is allowed for the section's department and
    subject and that are not occupied at the day and slot; when two
    consecutive slots are asked for and the slot is not the last of the
    day, they are also not occupied in the next slot.  (In the last slot
    the next slot is not looked at.)  The rooms come in the order of the
    room list. *)
Theorem getAvailableRooms_spec exam day slot allRooms st requireConsecutive :
  (∀ r, r ∈ getAvailableRooms exam day slot allRooms st requireConsecutive
        ↔ r ∈ allRooms
          ∧ getBuildingFromRoom r ∈ getAvailableBuildings (dept exam) (subjectId exam)
          ∧ (r ∉ occupiedRooms st (dayKey day) (slotKey slot))
          ∧ (requireConsecutive = true → slot + 1 < length TIME_SLOTS →
             r ∉ occupiedRooms st (dayKey day) (slotKey (slot + 1))))
  ∧ getAvailableRooms exam day slot allRooms st requireConsecutive `sublist_of` allRooms.
Proof.
  unfold getAvailableRooms. split.
  - intros r. rewrite !list_elem_of_filter.
    destruct requireConsecutive; simpl.
    + destruct (Nat.ltb_spec slot 7) as [Hlt|Hge].
      * rewrite not_elem_of_union. split; [naive_solver|].
        intros (? & ? & ? & Hnext). split_and!; try done. apply Hnext; [done|lia].
      * split; [intros (? & ? & ?); split_and!; try done; lia|naive_solver].
    + naive_solver.
  - etrans; apply sublist_filter.
Qed.

(** ** Day and slot labels *)

Lemma ofNat_inj n m : Str.ofNat n = Str.ofNat m → n = m.
Proof.
  unfold Str.ofNat. intros Heq.
  apply (f_equal NilEmpty.uint_of_string) in Heq.
  rewrite !NilEmpty.usu in Heq. injection Heq as Heq.
  apply (f_equal Nat.of_uint) in Heq.
  by rewrite !DecimalNat.Unsigned.of_to in Heq.
Qed.

Lemma dayKey_inj d d' : dayKey d = dayKey d' → d = d'.
Proof.
  unfold dayKey. rewrite !append_cons. intros [= Heq].
  apply ofNat_inj in Heq. lia.
Qed.

(** X3.  Distinct cells of the grid have distinct labels: the day label
    determines the day index, and for slots of the table the slot label
    determines the slot index.  So the ledger, which is keyed by labels,
    never takes two cells of the grid for one. *)
Theorem cell_labels_inj day slot day' slot' :
  slot < length TIME_SLOTS → slot' < length TIME_SLOTS →
  dayKey day = dayKey day' → slotKey slot = slotKey slot' →
  day = day' ∧ slot = slot'.
Proof.
  intros Hs Hs' Hd Hk. split; [by apply dayKey_inj|by apply slotKey_inj].
Qed.

Lemma cell_labels_inj_witness : 11 = 11 ∧ 7 = 7.
Proof.
  apply (cell_labels_inj 11 7 11 7); [simpl; lia|simpl; lia|reflexivity|reflexivity].
Defined.

(** ** The conflict check read against the input *)

Lemma hasConflict_true exam day slot st cm :
  hasConflict exam day slot st cm = true
  ↔ ∃ k other, courseYearKey exam = Some k
      ∧ inMatrix cm k (normSubject exam) other
      ∧ subjectScheduled st !! other = Some (dayKey day, slotKey slot).
Proof.
  rewrite <- not_false_iff_true, hasConflict_false. split.
  - intros Hnot. destruct (hasConflict exam day slot st cm) eqn:Hc.
    + revert Hc. unfold hasConflict, inMatrix.
      destruct (courseYearKey exam) as [k|]; [|done].
      destruct (cm !! k) as [row|] eqn:Hrow; [|done].
      destruct (row !! normSubject exam) as [c|] eqn:Hsubj; [|done].
      intros (other & Hin & Hat)%existsb_exists.
      apply list_elem_of_In, elem_of_elements in Hin.
      destruct (subjectScheduled st !! other) as [[d s]|] eqn:Hother; [|done].
      apply andb_true_iff in Hat as [->%String.eqb_eq ->%String.eqb_eq].
      exists k, other. split_and!; try done. by exists row, c.
    + by apply hasConflict_false in Hc.
  - intros (k & other & Hk & Hin & Hat) Hfree. by eapply Hfree.
Qed.

(** X4.  The conflict check with the matrix built from a section list,
    read against that list: a section is refused at a day and slot exactly
    when it has a course-year key, the list holds a section of that cohort
    with its subject and another section of that cohort, with a different
    section code and a different subject, and that other subject's
    recorded placement is this day and slot. *)
Theorem hasConflict_sections exams exam day slot st :
  hasConflict exam day slot st (buildConflictMatrix exams) = true
  ↔ ∃ k e1 e2,
      courseYearKey exam = Some k
      ∧ e1 ∈ exams ∧ e2 ∈ exams
      ∧ courseYearKey e1 = Some k ∧ courseYearKey e2 = Some k
      ∧ normSubject e1 = normSubject exam
      ∧ code e1 ≠ code e2 ∧ normSubject e2 ≠ normSubject exam
      ∧ subjectScheduled st !! normSubject e2 = Some (dayKey day, slotKey slot).
Proof.
  rewrite hasConflict_true. split.
  - intros (k & other & Hk & Hin & Hat).
    apply buildConflictMatrix_edges in Hin
      as (e1 & e2 & ? & ? & ? & ? & Hs1 & <- & ? & ?).
    exists k, e1, e2. split_and!; first [done|congruence].
  - intros (k & e1 & e2 & Hk & ? & ? & ? & ? & Hs1 & ? & ? & Hat).
    exists k, (normSubject e2). split_and!; try done.
    apply buildConflictMatrix_edges. exists e1, e2.
    split_and!; first [done|congruence].
Qed.

(** X5.  Once a section has been placed at a day and slot (not as the
    second slot of a double-unit section), every section of the list that
    shares its cohort but neither its code nor its subject is refused at
    that day and slot: the conflict check answers true, a group call for
    any group that holds such a section fails and leaves the world as it
    is, and so does an individual attempt. *)
Theorem conflicting_section_refused exams e1 e2 k day slot room w :
  e1 ∈ exams → e2 ∈ exams →
  courseYearKey e1 = Some k → courseYearKey e2 = Some k →
  code e1 ≠ code e2 → normSubject e1 ≠ normSubject e2 →
  hasConflict e2 day slot (state (scheduleExam e1 day slot room w false))
    (buildConflictMatrix exams) = true
  ∧ (∀ group rooms, e2 ∈ group →
       tryScheduleGroup group day slot rooms (buildConflictMatrix exams)
         (scheduleExam e1 day slot room w false)
       = (false, scheduleExam e1 day slot room w false))
  ∧ (∀ rooms,
       tryScheduleAlone e2 rooms (buildConflictMatrix exams) day slot
         (scheduleExam e1 day slot room w false)
       = (false, scheduleExam e1 day slot room w false)).
Proof.
  intros He1 He2 Hk1 Hk2 Hcode Hsubj.
  assert (Hconf : hasConflict e2 day slot
                    (state (scheduleExam e1 day slot room w false))
                    (buildConflictMatrix exams) = true).
  { apply hasConflict_true. exists k, (normSubject e1). split_and!; try done.
    - apply buildConflictMatrix_edges. exists e2, e1.
      split_and!; first [done|congruence].
    - unfold scheduleExam. simpl. by rewrite lookup_insert_eq. }
  split_and!; [done| |].
  - intros group rooms Hin. unfold tryScheduleGroup.
    destruct group as [|first rest] eqn:Hg; [by apply elem_of_nil in Hin|].
    rewrite <- Hg in *.
    assert (existsb (λ exam, hasConflict exam day slot
                       (state (scheduleExam e1 day slot room w false))
                       (buildConflictMatrix exams)) group = true) as ->; [|done].
    apply existsb_exists. exists e2. split; [by apply list_elem_of_In|done].
  - intros rooms. unfold tryScheduleAlone. by rewrite Hconf.
Qed.

Lemma conflicting_section_refused_witness :
  hasConflict (sampleExam "c2" "CS102" (Some "BSIT") (Some 1) "SACE" 3) 0 0
    (state (scheduleExam (sampleExam "c1" "CS101" (Some "BSIT") (Some 1) "SACE" 3)
              0 0 "N-1" emptyWorld false))
    (buildConflictMatrix examsWithSAS) = true.
Proof.
  refine (proj1 (conflicting_section_refused examsWithSAS
                   (sampleExam "c1" "CS101" (Some "BSIT") (Some 1) "SACE" 3)
                   (sampleExam "c2" "CS102" (Some "BSIT") (Some 1) "SACE" 3)
                   "BSIT-1" 0 0 "N-1" emptyWorld _ _ _ _ _ _)).
  - left.
  - right. right. left.
  - vm_compute. reflexivity.
  - vm_compute. reflexivity.
  - discriminate.
  - vm_compute. discriminate.
Defined.

(** ** What a placement writes *)

Lemma subjectScheduled_scheduleExam exam day slot room w b subject :
  subjectScheduled (state (scheduleExam exam day slot room w b)) !! subject
  = if decide (b = false ∧ subject = normSubject exam)
    then Some (dayKey day, slotKey slot)
    else subjectScheduled (state w) !! subject.
Proof.
  unfold scheduleExam. simpl. destruct b.
  - by rewrite decide_False by naive_solver.
  - destruct (decide (subject = normSubject exam)) as [->|Hne].
    + by rewrite lookup_insert_eq, decide_True.
    + by rewrite lookup_insert_ne, decide_False by naive_solver.
Qed.

Lemma schedule6UnitExam_pair_of exam day slot room w :
  match schedule6UnitExam exam day slot room w with
  | (false, w') => (length TIME_SLOTS ≤ slot + 1)%nat ∧ w' = w
  | (true, w') =>
      doubleSlotPair (scheduled w') exam day slot room
      ∧ room ∈ occupiedRooms (state w') (dayKey day) (slotKey slot)
      ∧ room ∈ occupiedRooms (state w') (dayKey day) (slotKey (slot + 1))
      ∧ subjectScheduled (state w') !! normSubject exam
        = Some (dayKey day, slotKey slot)
  end.
Proof.
  unfold schedule6UnitExam.
  destruct (Nat.leb_spec (length TIME_SLOTS - 1) slot) as [Hlast|Hnotlast];
    cbn [length TIME_SLOTS] in *; [split; [lia|done]|].
  unfold doubleSlotPair. split_and!.
  - simpl. lia.
  - rewrite get_scheduleExam_other; [|simpl; lia..|right; lia].
    apply get_scheduleExam_same.
  - apply get_scheduleExam_same.
  - apply occupiedRooms_scheduleExam_mono, occupiedRooms_scheduleExam_claimed.
  - apply occupiedRooms_scheduleExam_claimed.
  - rewrite !subjectScheduled_scheduleExam.
    rewrite decide_False by naive_solver. by rewrite decide_True.
Qed.

(** X6.  [schedule6UnitExam] refuses exactly in the last slot of the day
    (and past the table), and then changes nothing.  Otherwise it writes
    the section's two records, for the slot and the next one, on the same
    day and in the same room, without the second overwriting the first;
    it books the room in both slots; it records the subject at the first
    slot; and it leaves every record of another section code or another
    slot of the table as it was. *)
Theorem schedule6UnitExam_spec exam day slot room w :
  match schedule6UnitExam exam day slot room w with
  | (false, w') => (length TIME_SLOTS ≤ slot + 1)%nat ∧ w' = w
  | (true, w') =>
      doubleSlotPair (scheduled w') exam day slot room
      ∧ room ∈ occupiedRooms (state w') (dayKey day) (slotKey slot)
      ∧ room ∈ occupiedRooms (state w') (dayKey day) (slotKey (slot + 1))
      ∧ subjectScheduled (state w') !! normSubject exam
        = Some (dayKey day, slotKey slot)
      ∧ ∀ c s, s < length TIME_SLOTS →
          code exam ≠ c ∨ (slot ≠ s ∧ slot + 1 ≠ s) →
          OMap.get (scheduledKey c (slotKey s)) (scheduled w')
          = OMap.get (scheduledKey c (slotKey s)) (scheduled w)
  end.
Proof.
  pose proof (schedule6UnitExam_pair_of exam day slot room w) as Hpair.
  unfold schedule6UnitExam in *.
  destruct (Nat.leb_spec (length TIME_SLOTS - 1) slot) as [Hlast|Hnotlast];
    cbn [length TIME_SLOTS] in *; [done|].
  destruct Hpair as (? & ? & ? & ?). split_and!; try done.
  intros c s Hs Hother.
  rewrite !get_scheduleExam_other;
    [done|simpl; lia..|naive_solver|done|simpl; lia|naive_solver].
Qed.

(** ** A group call that succeeds *)

Lemma scheduleAll_steps (P : World → Prop) group day slot avail w :
  (length group ≤ length avail)%nat →
  (∀ e room w' b, e ∈ group → room ∈ avail →
     commitSlot slot b < length TIME_SLOTS ∨ b = false →
     (b = true → is6UnitSubject e = true) →
     P w' → P (scheduleExam e day (commitSlot slot b) room w' b)) →
  P w → P (scheduleAll group day slot avail w).2.
Proof.
  revert avail w. induction group as [|e group IH]; intros avail w Hlen Hstep Hw; [done|].
  destruct avail as [|room avail]; [simpl in Hlen; lia|]. simpl in Hlen.
  assert (Hrest : ∀ w', P w' → P (scheduleAll group day slot avail w').2).
  { intros w' Hw'. apply IH; [lia| |done].
    intros e' room' w'' b He' Hroom'. apply Hstep; by right. }
  simpl. destruct (is6UnitSubject e) eqn:Hsix.
  - unfold schedule6UnitExam.
    destruct (Nat.leb_spec (length TIME_SLOTS - 1) slot) as [Hlast|Hnotlast]; [done|].
    cbn [length TIME_SLOTS] in Hnotlast.
    apply Hrest. apply (Hstep e room _ true); [left|left|left; simpl; lia|done|].
    apply (Hstep e room _ false); [left|left|by right|done|done].
  - apply Hrest. apply (Hstep e room _ false); [left|left|by right|done|done].
Qed.

Lemma scheduleAll_places_all group day slot :
  slot < length TIME_SLOTS →
  NoDup (code <$> group) →
  ∀ avail w w',
  scheduleAll group day slot avail w = (true, w') →
  (length group ≤ length avail)%nat →
  ∀ i e, group !! i = Some e →
    ∃ room, avail !! i = Some room
      ∧ OMap.get (scheduledKey (code e) (slotKey slot)) (scheduled w')
        = Some (mkScheduledExam e (dayKey day) (slotKey slot) room)
      ∧ room ∈ occupiedRooms (state w') (dayKey day) (slotKey slot)
      ∧ subjectScheduled (state w') !! normSubject e = Some (dayKey day, slotKey slot)
      ∧ (is6UnitSubject e = true →
         slot + 1 < length TIME_SLOTS
         ∧ OMap.get (scheduledKey (code e) (slotKey (slot + 1))) (scheduled w')
           = Some (mkScheduledExam e (dayKey day) (slotKey (slot + 1)) room)
         ∧ room ∈ occupiedRooms (state w') (dayKey day) (slotKey (slot + 1))).
Proof.
  intros Hslot. induction group as [|e0 group IH]; intros Hnd avail w w' Hrun Hlen i e Hi;
    [done|].
  apply NoDup_cons in Hnd as [Hfresh Hnd].
  destruct avail as [|room0 avail]; [simpl in Hlen; lia|].
  simpl in Hlen.
  destruct i as [|i].
  2:{ simpl in Hi. simpl in Hrun. destruct (is6UnitSubject e0).
      - destruct (schedule6UnitExam e0 day slot room0 w) as [[] w1]; [|done].
        apply (IH Hnd avail w1 w' Hrun ltac:(lia) i e Hi).
      - apply (IH Hnd avail _ w' Hrun ltac:(lia) i e Hi). }
  injection Hi as ->. exists room0. split; [done|].
  (* what the later members of the group leave untouched *)
  assert (Hkeep : ∀ w1 s,
    s < length TIME_SLOTS →
    (scheduleAll group day slot avail w1).2 = w' →
    OMap.get (scheduledKey (code e) (slotKey s)) (scheduled w')
    = OMap.get (scheduledKey (code e) (slotKey s)) (scheduled w1)
    ∧ (∀ dk sk r, r ∈ occupiedRooms (state w1) dk sk → r ∈ occupiedRooms (state w') dk sk)
    ∧ (subjectScheduled (state w1) !! normSubject e = Some (dayKey day, slotKey slot) →
       subjectScheduled (state w') !! normSubject e = Some (dayKey day, slotKey slot))).
  { intros w1 s Hs <-.
    apply (scheduleAll_steps
             (λ w2, OMap.get (scheduledKey (code e) (slotKey s)) (scheduled w2)
                    = OMap.get (scheduledKey (code e) (slotKey s)) (scheduled w1)
                    ∧ (∀ dk sk r, r ∈ occupiedRooms (state w1) dk sk →
                                  r ∈ occupiedRooms (state w2) dk sk)
                    ∧ (subjectScheduled (state w1) !! normSubject e
                       = Some (dayKey day, slotKey slot) →
                       subjectScheduled (state w2) !! normSubject e
                       = Some (dayKey day, slotKey slot)))).
    - lia.
    - intros e' room w2 b He' _ Hnext _ (Hget & Hocc & Hsubj). split_and!.
      + rewrite get_scheduleExam_other; [done|done| |].
        * destruct Hnext as [?| ->]; done.
        * left. intros Hc. apply Hfresh. rewrite <- Hc.
          apply list_elem_of_fmap. by exists e'.
      + intros dk sk r Hr. by apply occupiedRooms_scheduleExam_mono, Hocc.
      + intros Hat. rewrite subjectScheduled_scheduleExam.
        case_decide as Hcase; [|by apply Hsubj]. by destruct Hcase as [-> _].
    - done. }
  simpl in Hrun. destruct (is6UnitSubject e) eqn:Hsix.
  - pose proof (schedule6UnitExam_pair_of e day slot room0 w) as Hpair.
    destruct (schedule6UnitExam e day slot room0 w) as [[] w1]; [|done].
    destruct Hpair as ((Hnext & Hfst & Hsnd) & Hocc1 & Hocc2 & Hsubj).
    assert ((scheduleAll group day slot avail w1).2 = w') as Hw' by by rewrite Hrun.
    destruct (Hkeep w1 slot Hslot Hw') as (Hget1 & Hmono & Hled).
    destruct (Hkeep w1 (slot + 1) Hnext Hw') as (Hget2 & _ & _).
    split_and!; [by rewrite Hget1|by apply Hmono|by apply Hled|].
    intros _. split_and!; [done|by rewrite Hget2|by apply Hmono].
  - assert ((scheduleAll group day slot avail
               (scheduleExam e day slot room0 w false)).2 = w') as Hw' by by rewrite Hrun.
    destruct (Hkeep _ slot Hslot Hw') as (Hget1 & Hmono & Hled).
    split_and!; [| | |done].
    + rewrite Hget1. apply get_scheduleExam_same.
    + apply Hmono, occupiedRooms_scheduleExam_claimed.
    + apply Hled. rewrite subjectScheduled_scheduleExam. by rewrite decide_True.
Qed.

(** X7.  When [tryScheduleGroup] answers true for a non-empty group whose
    section codes differ, at a slot of the table, then no member had a
    conflict at the day and slot, and the member at each position got the
    room at that position among the rooms available to the first member:
    the output holds its record at the day and slot in that room, the room
    is booked there, and its subject is recorded there; a double-unit
    member also has its record in the next slot, in the same room, booked
    as well. *)
Theorem tryScheduleGroup_places_all first rest day slot rooms cm w w' :
  tryScheduleGroup (first :: rest) day slot rooms cm w = (true, w') →
  slot < length TIME_SLOTS →
  NoDup (code <$> first :: rest) →
  (∀ e, e ∈ first :: rest → hasConflict e day slot (state w) cm = false)
  ∧ ∀ i e, (first :: rest) !! i = Some e →
      ∃ room,
        getAvailableRooms first day slot rooms (state w)
          (existsb is6UnitSubject (first :: rest)) !! i = Some room
        ∧ OMap.get (scheduledKey (code e) (slotKey slot)) (scheduled w')
          = Some (mkScheduledExam e (dayKey day) (slotKey slot) room)
        ∧ room ∈ occupiedRooms (state w') (dayKey day) (slotKey slot)
        ∧ subjectScheduled (state w') !! normSubject e
          = Some (dayKey day, slotKey slot)
        ∧ (is6UnitSubject e = true →
           slot + 1 < length TIME_SLOTS
           ∧ OMap.get (scheduledKey (code e) (slotKey (slot + 1))) (scheduled w')
             = Some (mkScheduledExam e (dayKey day) (slotKey (slot + 1)) room)
           ∧ room ∈ occupiedRooms (state w') (dayKey day) (slotKey (slot + 1))).
Proof.
  unfold tryScheduleGroup. set (group := first :: rest).
  intros Hrun Hslot Hnd.
  destruct (existsb (λ exam, hasConflict exam day slot (state w) cm) group) eqn:Hconf;
    [done|].
  destruct (Nat.ltb_spec
              (length (getAvailableRooms first day slot rooms (state w)
                         (existsb is6UnitSubject group)))
              (length group)) as [Hfew|Henough]; [done|].
  split; [by apply existsb_false_elem|].
  by eapply scheduleAll_places_all.
Qed.

Lemma tryScheduleGroup_places_all_witness :
  ∃ room,
    getAvailableRooms (sampleExam "p1" "CS301" None None "SACE" 3) 0 0
      ["N-1"; "N-2"] (state emptyWorld)
      (existsb is6UnitSubject examsTwoSections) !! 1 = Some room
    ∧ OMap.get (scheduledKey "q1" (slotKey 0))
        (scheduled (tryScheduleGroup examsTwoSections 0 0 ["N-1"; "N-2"] ∅ emptyWorld).2)
      = Some (mkScheduledExam (sampleExam "q1" "CS301" None None "SACE" 3)
                (dayKey 0) (slotKey 0) room)
    ∧ room ∈ occupiedRooms
               (state (tryScheduleGroup examsTwoSections 0 0 ["N-1"; "N-2"] ∅ emptyWorld).2)
               (dayKey 0) (slotKey 0)
    ∧ subjectScheduled
        (state (tryScheduleGroup examsTwoSections 0 0 ["N-1"; "N-2"] ∅ emptyWorld).2)
        !! normSubject (sampleExam "q1" "CS301" None None "SACE" 3)
      = Some (dayKey 0, slotKey 0)
    ∧ (is6UnitSubject (sampleExam "q1" "CS301" None None "SACE" 3) = true →
       0 + 1 < length TIME_SLOTS
       ∧ OMap.get (scheduledKey "q1" (slotKey (0 + 1)))
           (scheduled (tryScheduleGroup examsTwoSections 0 0 ["N-1"; "N-2"] ∅ emptyWorld).2)
         = Some (mkScheduledExam (sampleExam "q1" "CS301" None None "SACE" 3)
                   (dayKey 0) (slotKey (0 + 1)) room)
       ∧ room ∈ occupiedRooms
                  (state (tryScheduleGroup examsTwoSections 0 0 ["N-1"; "N-2"] ∅
                            emptyWorld).2)
                  (dayKey 0) (slotKey (0 + 1))).
Proof.
  refine (proj2 (tryScheduleGroup_places_all
                   (sampleExam "p1" "CS301" None None "SACE" 3)
                   [sampleExam "q1" "CS301" None None "SACE" 3]
                   0 0 ["N-1"; "N-2"] ∅ emptyWorld _ _ _ _) 1 _ eq_refl).
  - vm_compute. reflexivity.
  - simpl. lia.
  - apply (bool_decide_unpack _). vm_compute. exact I.
Defined.

(** ** A group call that fails *)

Lemma tryScheduleGroup_false_cases group day slot rooms cm w :
  slot + 1 < length TIME_SLOTS ∨ existsb is6UnitSubject group = false →
  (tryScheduleGroup group day slot rooms cm w).1 = false →
  (tryScheduleGroup group day slot rooms cm w).2 = w
  ∧ refusedGroup group rooms cm day slot w.
Proof.
  intros Hcond Hfalse. split; [by apply tryScheduleGroup_failure_unchanged|].
  revert Hfalse. unfold tryScheduleGroup, refusedGroup.
  destruct group as [|first rest] eqn:Hg; [done|]. rewrite <- Hg in *.
  destruct (existsb (λ exam, hasConflict exam day slot (state w) cm) group) eqn:Hconf.
  - intros _. left. apply existsb_exists in Hconf as (e & He & Hc).
    exists e. split; [by apply list_elem_of_In|done].
  - destruct (Nat.ltb_spec
                (length (getAvailableRooms first day slot rooms (state w)
                           (existsb is6UnitSubject group)))
                (length group)) as [Hfew|Henough].
    + intros _. right. by exists first, rest.
    + by rewrite scheduleAll_succeeds.
Qed.

(** X8.  Before the last slot of the day, or for a group without a
    double-unit section, a group call that answers false has changed
    nothing, and it answers false for one of two reasons only: a member of
    the group has a conflict at the day and slot, or fewer rooms are
    available to the first member than the group has sections. *)
Theorem tryScheduleGroup_refusal group day slot rooms cm w :
  slot + 1 < length TIME_SLOTS ∨ existsb is6UnitSubject group = false →
  (tryScheduleGroup group day slot rooms cm w).1 = false →
  (tryScheduleGroup group day slot rooms cm w).2 = w
  ∧ ∃ first rest, group = first :: rest
      ∧ ((∃ e, e ∈ group ∧ hasConflict e day slot (state w) cm = true)
         ∨ (length (getAvailableRooms first day slot rooms (state w)
                      (existsb is6UnitSubject group))
            < length group)%nat).
Proof.
  intros Hcond Hfalse.
  destruct (tryScheduleGroup_false_cases _ _ _ _ _ _ Hcond Hfalse) as [Hw Hrefused].
  split; [done|]. destruct group as [|first rest] eqn:Hg; [done|]. rewrite <- Hg in *.
  exists first, rest. split; [done|].
  destruct Hrefused as [?|(first' & rest' & Heq & Hfew)]; [by left|right].
  rewrite Hg in Heq. by injection Heq as <- <-.
Qed.

Lemma tryScheduleGroup_refusal_witness :
  (tryScheduleGroup examsTwoSections 0 0 ["N-1"] ∅ emptyWorld).2 = emptyWorld.
Proof.
  refine (proj1 (tryScheduleGroup_refusal examsTwoSections 0 0 ["N-1"] ∅ emptyWorld _ _)).
  - left. simpl. lia.
  - vm_compute. reflexivity.
Defined.

(** ** Grouping and ordering *)

Lemma OMap_push_concat {A} k (x : A) m :
  concat (OMap.values (OMap.push k x m)) ≡ₚ x :: concat (OMap.values m).
Proof.
  induction m as [|[k' xs] m IH]; simpl; [done|].
  destruct (String.eqb k' k); simpl.
  - rewrite <- app_assoc. simpl. by rewrite Permutation_middle.
  - rewrite IH. by rewrite Permutation_middle.
Qed.

Lemma groupBy_concat {A} (key : A → option string) l :
  concat (OMap.values (OMap.groupBy key l)) ≡ₚ filter (λ x, is_Some (key x)) l.
Proof.
  induction l as [|x l IH] using rev_ind; [done|].
  rewrite groupBy_snoc, filter_app. destruct (key x) as [k|] eqn:Hk.
  - rewrite OMap_push_concat, IH, filter_cons_True by (by rewrite Hk).
    simpl. by rewrite Permutation_cons_append.
  - rewrite IH, filter_cons_False by (rewrite Hk; by intros [? ?]).
    simpl. by rewrite app_nil_r.
Qed.

Lemma groupExamsBySubject_concat exams :
  concat (OMap.values (groupExamsBySubject exams)) ≡ₚ exams.
Proof.
  unfold groupExamsBySubject. rewrite groupBy_concat.
  induction exams as [|e exams IH]; [done|].
  rewrite filter_cons_True by done. by rewrite IH.
Qed.

Lemma groupBy_keys_snoc {A} (key : A → option string) l x k :
  key x = Some k →
  OMap.keys (OMap.groupBy key (l ++ [x]))
  = if bool_decide (k ∈ OMap.keys (OMap.groupBy key l))
    then OMap.keys (OMap.groupBy key l)
    else OMap.keys (OMap.groupBy key l) ++ [k].
Proof. intros Hk. by rewrite groupBy_snoc, Hk, OMap_push_keys. Qed.

Lemma groupExamsBySubject_keys_elem exams k :
  k ∈ OMap.keys (groupExamsBySubject exams) ↔ k ∈ normSubject <$> exams.
Proof.
  unfold OMap.keys. rewrite !list_elem_of_fmap. split.
  - intros ([k' g] & -> & Hin).
    apply groupBy_elem in Hin as [-> Hne].
    destruct (filter _ exams) as [|e g] eqn:Hg; [done|].
    assert (e ∈ filter (λ x : Exam, Some (normSubject x) = Some k') exams) as He
      by (rewrite Hg; left).
    apply list_elem_of_filter in He as [[= He] Hin]. by exists e.
  - intros (e & -> & He).
    exists (normSubject e, filter (λ x, Some (normSubject x) = Some (normSubject e)) exams).
    split; [done|]. apply groupBy_elem. split; [done|].
    intros Hnil.
    assert (e ∈ filter (λ x : Exam, Some (normSubject x) = Some (normSubject e)) exams)
      as Hin by (by apply list_elem_of_filter).
    rewrite Hnil in Hin. by apply elem_of_nil in Hin.
Qed.

(** X9.  [groupExamsBySubject] partitions the sections by normalized
    subject: the keys are the normalized subjects of the sections, each
    once, in the order in which they first occur; the group under a key is
    never empty and holds exactly the sections with that normalized
    subject, in input order; and the groups together hold every section
    exactly as often as the input does. *)
Theorem groupExamsBySubject_partition exams :
  NoDup (OMap.keys (groupExamsBySubject exams))
  ∧ OMap.keys (groupExamsBySubject exams)
    = reverse (remove_dups (reverse (normSubject <$> exams)))
  ∧ (∀ k g, (k, g) ∈ groupExamsBySubject exams
            ↔ g = filter (λ e, normSubject e = k) exams ∧ g ≠ [])
  ∧ concat (OMap.values (groupExamsBySubject exams)) ≡ₚ exams.
Proof.
  split_and!.
  - apply groupBy_NoDup.
  - induction exams as [|e exams IH] using rev_ind; [done|].
    unfold groupExamsBySubject in *.
    rewrite (groupBy_keys_snoc _ _ _ (normSubject e)) by done.
    rewrite fmap_app, reverse_app. simpl.
    fold (groupExamsBySubject exams).
    destruct (decide_rel elem_of (normSubject e) (reverse (normSubject <$> exams)))
      as [Hin|Hnotin].
    + rewrite bool_decide_eq_true_2; [done|].
      apply (proj2 (groupExamsBySubject_keys_elem _ _)).
      by apply (proj1 (elem_of_reverse _ _)).
    + rewrite bool_decide_eq_false_2.
      * rewrite reverse_cons. unfold groupExamsBySubject. by rewrite IH.
      * intros Hin. apply Hnotin. apply (proj2 (elem_of_reverse _ _)).
        by apply (proj1 (groupExamsBySubject_keys_elem _ _)).
  - intros k g. unfold groupExamsBySubject. rewrite groupBy_elem.
    assert (filter (λ x : Exam, Some (normSubject x) = Some k) exams
            = filter (λ e, normSubject e = k) exams) as ->; [|done].
    apply list_filter_iff. intros e. naive_solver.
  - apply groupExamsBySubject_concat.
Qed.

Lemma filter_none {A} (P : A → Prop) `{∀ x, Decision (P x)} l :
  Forall (λ x, ¬ P x) l → filter P l = [].
Proof.
  induction 1 as [|x l Hx Hl IH]; [done|]. by rewrite filter_cons_False.
Qed.

Lemma insertBySize_perm g sorted : insertBySize g sorted ≡ₚ g :: sorted.
Proof.
  induction sorted as [|h r IH]; simpl; [done|].
  destruct (length g.2 <? length h.2)%nat; [done|].
  rewrite IH. apply Permutation_swap.
Qed.

Lemma sortBySize_perm groups : sortBySize groups ≡ₚ groups.
Proof.
  unfold sortBySize.
  assert (∀ acc, fold_left (λ sorted g, insertBySize g sorted) groups acc
                 ≡ₚ acc ++ groups) as H.
  { induction groups as [|g groups IH]; intros acc; simpl; [by rewrite app_nil_r|].
    rewrite IH, insertBySize_perm. simpl. apply Permutation_middle. }
  by rewrite H.
Qed.

Lemma insertBySize_sorted g sorted :
  Sorted.StronglySorted (λ a b : string * list Exam, (length a.2 ≤ length b.2)%nat) sorted →
  Sorted.StronglySorted (λ a b : string * list Exam, (length a.2 ≤ length b.2)%nat)
    (insertBySize g sorted).
Proof.
  induction 1 as [|h r Hr IH Hh]; simpl; [repeat constructor|].
  destruct (Nat.ltb_spec (length g.2) (length h.2)) as [Hlt|Hge].
  - constructor; [by constructor|]. constructor; [lia|].
    eapply Forall_impl; [exact Hh|]. simpl. intros x Hx. lia.
  - constructor; [done|].
    rewrite insertBySize_perm. by constructor.
Qed.

(** Inserting a group leaves the groups of every size in their order and
    puts the new one after those of its own size. *)
Lemma insertBySize_stable n g sorted :
  Sorted.StronglySorted (λ a b : string * list Exam, (length a.2 ≤ length b.2)%nat) sorted →
  filter (λ x : string * list Exam, length x.2 = n) (insertBySize g sorted)
  = filter (λ x : string * list Exam, length x.2 = n) sorted
    ++ filter (λ x : string * list Exam, length x.2 = n) [g].
Proof.
  induction 1 as [|h r Hr IH Hh]; [done|]. simpl.
  destruct (Nat.ltb_spec (length g.2) (length h.2)) as [Hlt|Hge].
  - destruct (decide (length g.2 = n)) as [Hn|Hn].
    + rewrite (filter_cons_True _ g) by done.
      rewrite (filter_cons_True _ g [] Hn).
      assert (filter (λ x : string * list Exam, length x.2 = n) (h :: r) = []) as ->;
        [|done].
      apply filter_none. apply Forall_cons. split; [lia|].
      eapply Forall_impl; [exact Hh|]. simpl. intros x Hx. lia.
    + rewrite (filter_cons_False _ g) by done.
      rewrite (filter_cons_False _ g [] Hn). by rewrite app_nil_r.
  - rewrite !(filter_cons _ h). case_decide; [|done]. simpl. by rewrite IH.
Qed.

Lemma sortBySize_fold_sorted groups acc :
  Sorted.StronglySorted (λ a b : string * list Exam, (length a.2 ≤ length b.2)%nat) acc →
  Sorted.StronglySorted (λ a b : string * list Exam, (length a.2 ≤ length b.2)%nat)
    (fold_left (λ sorted g, insertBySize g sorted) groups acc).
Proof.
  revert acc. induction groups as [|g groups IH]; intros acc Hacc; [done|].
  simpl. by apply IH, insertBySize_sorted.
Qed.

(** X10.  The ordering of the subject groups before they are placed
    ([sort] by group size): the ordered list holds the same groups as
    often, it is ascending in group size, and groups of equal size keep
    the order they had. *)
Theorem sortBySize_spec groups :
  sortBySize groups ≡ₚ groups
  ∧ Sorted.StronglySorted (λ a b : string * list Exam, (length a.2 ≤ length b.2)%nat)
      (sortBySize groups)
  ∧ ∀ n, filter (λ g : string * list Exam, length g.2 = n) (sortBySize groups)
         = filter (λ g : string * list Exam, length g.2 = n) groups.
Proof.
  split_and!.
  - apply sortBySize_perm.
  - apply sortBySize_fold_sorted. constructor.
  - intros n. unfold sortBySize.
    assert (∀ acc,
      Sorted.StronglySorted (λ a b : string * list Exam, (length a.2 ≤ length b.2)%nat) acc →
      filter (λ g : string * list Exam, length g.2 = n)
        (fold_left (λ sorted g, insertBySize g sorted) groups acc)
      = filter (λ g : string * list Exam, length g.2 = n) acc
        ++ filter (λ g : string * list Exam, length g.2 = n) groups) as H.
    { induction groups as [|g groups IH]; intros acc Hacc; simpl; [by rewrite app_nil_r|].
      rewrite IH by (by apply insertBySize_sorted).
      rewrite insertBySize_stable by done.
      rewrite <- app_assoc. f_equal.
      rewrite (filter_cons _ g groups), (filter_cons _ g []).
      by case_decide. }
    rewrite H by constructor. done.
Qed.

(** ** What every commit of a run satisfies

    Whatever holds of the world at the start and is kept by every commit
    that places an eligible section, at a cell the scan may visit, into a
    room of the list whose building is allowed for the first section of
    the group, holds of the world each phase leaves. *)

Lemma getGenEdType_blocks subjectId ty :
  getGenEdType subjectId = Some ty →
  ∃ b blocks, OMap.get ty GEN_ED_TIME_BLOCKS = Some (b :: blocks).
Proof.
  unfold getGenEdType.
  repeat match goal with |- context [if ?c then _ else _] => destruct c end;
    intros [= <-]; by eexists _, _.
Qed.

Section Commits.
Context (eligible : list Exam) (rooms : list string) (cm : ConflictMatrix).
Context (cellOK : Exam → nat → nat → Prop).
Context (P : World → Prop).
Hypothesis P_step : ∀ exam first day slot room w b,
  exam ∈ eligible → first ∈ eligible → normSubject first = normSubject exam →
  cellOK exam day slot → commitSlot slot b < length TIME_SLOTS →
  (b = true → is6UnitSubject exam = true) →
  room ∈ rooms →
  getBuildingFromRoom room ∈ getAvailableBuildings (dept first) (subjectId first) →
  P w → P (scheduleExam exam day (commitSlot slot b) room w b).

Local Abbreviation Kept acc := (P (world acc) ∧ ∀ e, e ∈ failed acc → e ∈ eligible).

Lemma tryScheduleGroup_commits subject group day slot w :
  slot < length TIME_SLOTS →
  (∀ e, e ∈ group → e ∈ eligible ∧ normSubject e = subject ∧ cellOK e day slot) →
  P w → P (tryScheduleGroup group day slot rooms cm w).2.
Proof.
  intros Hslot Hgroup Hw. unfold tryScheduleGroup.
  destruct group as [|first rest] eqn:Hg; [done|]. rewrite <- Hg in *.
  destruct (existsb _ group); [done|].
  destruct (Nat.ltb_spec
              (length (getAvailableRooms first day slot rooms (state w)
                         (existsb is6UnitSubject group)))
              (length group)) as [Hfew|Henough]; [done|].
  destruct (Hgroup first) as (Hfirst & Hsubj & _); [rewrite Hg; left|].
  apply scheduleAll_steps; [done| |done].
  intros e room w' b He Hroom Hnext Hsix Hw'.
  destruct (Hgroup e He) as (? & ? & ?).
  apply (P_step e first); try done.
  - congruence.
  - destruct Hnext as [?| ->]; done.
  - by apply getAvailableRooms_elem in Hroom as [? _].
  - by apply getAvailableRooms_building in Hroom.
Qed.

Lemma tryScheduleAlone_commits exam day slot w :
  slot < length TIME_SLOTS → exam ∈ eligible → cellOK exam day slot →
  P w → P (tryScheduleAlone exam rooms cm day slot w).2.
Proof.
  intros Hslot He Hcell Hw. unfold tryScheduleAlone.
  destruct (hasConflict exam day slot (state w) cm); [done|].
  destruct (getAvailableRooms _ _ _ _ _ _) as [|room avail] eqn:Havail; [done|].
  assert (Hroom : room ∈ getAvailableRooms exam day slot rooms (state w)
                           (is6UnitSubject exam)) by (rewrite Havail; left).
  pose proof (getAvailableRooms_building _ _ _ _ _ _ _ Hroom) as Hbuilding.
  apply getAvailableRooms_elem in Hroom as (Hin & _).
  destruct (is6UnitSubject exam) eqn:Hsix.
  - unfold schedule6UnitExam.
    destruct (Nat.leb_spec (length TIME_SLOTS - 1) slot) as [Hlast|Hnotlast]; [done|].
    cbn [length TIME_SLOTS] in Hnotlast. simpl.
    apply (P_step exam exam day slot room _ true); try done; [simpl; lia|].
    by apply (P_step exam exam day slot room _ false).
  - by apply (P_step exam exam day slot room _ false).
Qed.

Lemma placeGroup_commits cells acc group subject :
  (∀ day slot, (day, slot) ∈ cells →
     slot < length TIME_SLOTS ∧ ∀ e, e ∈ group → cellOK e day slot) →
  (∀ e, e ∈ group → e ∈ eligible ∧ normSubject e = subject) →
  Kept acc → Kept (placeGroup cells rooms cm acc group).
Proof.
  intros Hcells Hgroup [Hw Hfailed]. unfold placeGroup.
  pose proof (scanCells_preserves P
                (λ day slot, tryScheduleGroup group day slot rooms cm)
                cells (world acc)) as Hscan.
  assert (Hworld : P (scanCells (λ day slot, tryScheduleGroup group day slot rooms cm)
                        cells (world acc)).2).
  { apply Hscan; [|done]. intros day slot w' Hin Hw'.
    destruct (Hcells day slot Hin) as [Hslot Hcell].
    apply (tryScheduleGroup_commits subject); [done| |done].
    intros e He. destruct (Hgroup e He). split_and!; auto. }
  destruct (scanCells _ cells (world acc)) as [[] w']; (split; [done|]); simpl; [done|].
  intros e [?|?]%elem_of_app; [auto|]. by apply Hgroup.
Qed.

Lemma placeGroups_commits cells groups acc :
  (∀ group, group ∈ groups →
     (∃ subject, ∀ e, e ∈ group → e ∈ eligible ∧ normSubject e = subject)
     ∧ ∀ day slot, (day, slot) ∈ cells →
         slot < length TIME_SLOTS ∧ ∀ e, e ∈ group → cellOK e day slot) →
  Kept acc → Kept (fold_left (placeGroup cells rooms cm) groups acc).
Proof.
  revert acc. induction groups as [|group groups IH]; intros acc Hgroups Hacc; [done|].
  simpl. apply IH; [intros g Hg; apply Hgroups; by right|].
  destruct (Hgroups group) as [[subject Hgroup] Hcells]; [left|].
  by eapply placeGroup_commits.
Qed.

Lemma subjectGroups_commits cells exams acc :
  (∀ e, e ∈ exams → e ∈ eligible) →
  (∀ day slot, (day, slot) ∈ cells →
     slot < length TIME_SLOTS ∧ ∀ e, e ∈ exams → cellOK e day slot) →
  Kept acc →
  Kept (fold_left (placeGroup cells rooms cm)
          (OMap.values (groupExamsBySubject exams)) acc).
Proof.
  intros Hsub Hcells Hacc. apply placeGroups_commits; [|done].
  intros group [k Hin]%values_elem.
  assert (Hmem : ∀ e, e ∈ group → e ∈ exams ∧ normSubject e = k).
  { intros e He.
    apply (groupBy_member (λ exam, Some (normSubject exam)) _ _ _ _ Hin) in He as [? ?].
    split; [done|congruence]. }
  split.
  - exists k. intros e He. destruct (Hmem e He). auto.
  - intros day slot Hcell. destruct (Hcells day slot Hcell) as [? Hok].
    split; [done|]. intros e He. apply Hok. by apply Hmem.
Qed.

Lemma gridCells_elem numDays day slot :
  (day, slot) ∈ gridCells numDays ↔ day < numDays ∧ slot < length TIME_SLOTS.
Proof.
  unfold gridCells. rewrite list_elem_of_bind. split.
  - intros (d & Hin & Hd). apply list_elem_of_bind in Hin as (s & Hin & Hs).
    apply list_elem_of_singleton in Hin as [= -> ->].
    apply elem_of_seq in Hd, Hs. lia.
  - intros [Hd Hs]. exists day. split; [|apply elem_of_seq; lia].
    apply list_elem_of_bind. exists slot. split; [left|apply elem_of_seq; lia].
Qed.

Lemma scheduleGenEdTimeBlocks_commits exams numDays w :
  (∀ e, e ∈ exams → e ∈ eligible) →
  (∀ e ty blocks b, e ∈ exams → getGenEdType (subjectId e) = Some ty →
     OMap.get ty GEN_ED_TIME_BLOCKS = Some blocks → b ∈ blocks →
     blockDay b < numDays → cellOK e (blockDay b) (blockSlot b)) →
  P w → Kept (scheduleGenEdTimeBlocks exams rooms cm numDays w).
Proof.
  intros Hsub Hcell Hw. unfold scheduleGenEdTimeBlocks.
  set (byType := OMap.groupBy _ exams).
  assert (Htypes : ∀ ty g, (ty, g) ∈ byType →
            ∀ e, e ∈ g → e ∈ exams ∧ getGenEdType (subjectId e) = Some ty).
  { intros ty g Hin e He.
    by eapply (groupBy_member (λ exam, getGenEdType (subjectId exam))) in He. }
  assert (Hne : ∀ ty g, (ty, g) ∈ byType → g ≠ []).
  { intros ty g Hin. by apply groupBy_elem in Hin as [_ ?]. }
  assert (Hinit : Kept {| scheduledCount := 0; failed := []; world := w |}).
  { split; [done|]. by intros e ?%elem_of_nil. }
  revert Hinit. generalize {| scheduledCount := 0; failed := []; world := w |}.
  clearbody byType.
  induction byType as [|[ty g] byType IH]; intros acc Hacc; [done|].
  cbn [fold_left]. apply IH;
    [intros ty' g' Hin; apply (Htypes ty' g'); by right
    |intros ty' g' Hin; apply (Hne ty' g'); by right|].
  destruct g as [|e0 g0] eqn:Hg; [by destruct (Hne ty [] ltac:(left))|].
  rewrite <- Hg in *.
  assert (e0 ∈ g) as He0 by (rewrite Hg; left).
  destruct (Htypes ty g ltac:(left) e0 He0) as [_ Hty].
  destruct (getGenEdType_blocks _ _ Hty) as (b & blocks & Hblocks).
  unfold scheduleGenEdType. rewrite Hblocks. cbn [default from_option id].
  apply subjectGroups_commits; [| |done].
  - intros e He. apply Hsub. by apply (Htypes ty g ltac:(left)).
  - intros day slot Hin. split; [by eapply (blockCells_slot _ ty); rewrite Hblocks|].
    intros e He. destruct (Htypes ty g ltac:(left) e He) as [Hex Hety].
    unfold blockCells in Hin.
    apply list_elem_of_fmap in Hin as (blk & [= -> ->] & [Hday Hblk]%list_elem_of_filter).
    by eapply Hcell.
Qed.

Lemma scheduleHighPriority_commits exams numDays w :
  (∀ e, e ∈ exams → e ∈ eligible) →
  (∀ e day slot, e ∈ exams → day < numDays → slot < length TIME_SLOTS →
     cellOK e day slot) →
  P w → Kept (scheduleHighPriority exams rooms cm numDays w).
Proof.
  intros Hsub Hcell Hw. unfold scheduleHighPriority.
  apply subjectGroups_commits.
  - intros e [_ ?]%list_elem_of_filter. auto.
  - intros day slot [? ?]%gridCells_elem. split; [done|].
    intros e [_ ?]%list_elem_of_filter. auto.
  - apply subjectGroups_commits.
    + intros e [_ ?]%list_elem_of_filter. auto.
    + intros day slot [? ?]%gridCells_elem. split; [done|].
      intros e [_ ?]%list_elem_of_filter. auto.
    + split; [done|]. by intros e ?%elem_of_nil.
Qed.

Lemma scheduleMajorSubjects_commits exams numDays w :
  (∀ e, e ∈ exams → e ∈ eligible) →
  (∀ e day slot, e ∈ exams → day < numDays → slot < length TIME_SLOTS →
     cellOK e day slot) →
  P w → Kept (scheduleMajorSubjects exams rooms cm numDays w).
Proof.
  intros Hsub Hcell Hw. unfold scheduleMajorSubjects.
  apply placeGroups_commits; [|split; [done|]; by intros e ?%elem_of_nil].
  intros group [k Hin]%values_elem.
  apply (proj1 (sortBySize_elem _ _)) in Hin.
  assert (Hmem : ∀ e, e ∈ group → e ∈ exams ∧ normSubject e = k).
  { intros e He.
    apply (groupBy_member (λ exam, Some (normSubject exam)) _ _ _ _ Hin) in He as [? ?].
    split; [done|congruence]. }
  split.
  - exists k. intros e He. destruct (Hmem e He). auto.
  - intros day slot [? ?]%gridCells_elem. split; [done|].
    intros e He. apply Hcell; [by apply Hmem|done..].
Qed.

Lemma scheduleIndividually_commits exams numDays w :
  (∀ e, e ∈ exams → e ∈ eligible) →
  (∀ e day slot, e ∈ exams → day < numDays → slot < length TIME_SLOTS →
     cellOK e day slot) →
  P w → P (scheduleIndividually exams rooms cm numDays w).2.
Proof.
  intros Hsub Hcell Hw. unfold scheduleIndividually.
  change w with (0, w).2 in Hw. revert Hw. generalize (0, w).
  induction exams as [|e exams IH]; intros [n w'] Hw'; [done|].
  simpl. apply IH;
    [intros e' He'; apply Hsub; by right
    |intros e' day slot He'; apply Hcell; by right|].
  pose proof (scanCells_preserves P
                (tryScheduleAlone e rooms cm) (gridCells numDays) w') as Hscan.
  destruct (scanCells _ _ w') as [[] w'']; simpl;
    (apply Hscan; [|done]; intros day slot w3 [? ?]%gridCells_elem Hw3;
     apply tryScheduleAlone_commits;
       [done|apply Hsub; left|apply Hcell; [left|done..]|done]).
Qed.

End Commits.

(** The principle for the whole run. *)
Lemma runPhases_commits (P : World → Prop) exams rooms numDays :
  P emptyWorld →
  (∀ exam first day slot room w b,
     exam ∈ eligibleExams exams → first ∈ eligibleExams exams →
     normSubject first = normSubject exam →
     day < numDays → commitSlot slot b < length TIME_SLOTS →
     (b = true → is6UnitSubject exam = true) →
     room ∈ rooms →
     getBuildingFromRoom room ∈ getAvailableBuildings (dept first) (subjectId first) →
     P w → P (scheduleExam exam day (commitSlot slot b) room w b)) →
  P (runPhases exams rooms numDays).
Proof.
  intros Hempty Hstep. unfold runPhases. cbv zeta.
  set (eligible := eligibleExams exams).
  set (cm := buildConflictMatrix eligible).
  assert (Hfilter : ∀ (Q : Exam → Prop) `{∀ x, Decision (Q x)} e,
            e ∈ filter Q eligible → e ∈ eligible).
  { intros Q ? e [_ ?]%list_elem_of_filter. done. }
  set (p1 := scheduleGenEdTimeBlocks _ rooms cm numDays emptyWorld).
  set (p2 := scheduleHighPriority _ rooms cm numDays (world p1)).
  set (p3 := scheduleMajorSubjects _ rooms cm numDays (world p2)).
  pose (cellOK := λ (_ : Exam) (day _ : nat), day < numDays).
  assert (Hstep' : ∀ exam first day slot room w b,
    exam ∈ eligible → first ∈ eligible → normSubject first = normSubject exam →
    cellOK exam day slot → commitSlot slot b < length TIME_SLOTS →
    (b = true → is6UnitSubject exam = true) →
    room ∈ rooms →
    getBuildingFromRoom room ∈ getAvailableBuildings (dept first) (subjectId first) →
    P w → P (scheduleExam exam day (commitSlot slot b) room w b))
    by (intros; by eapply Hstep).
  assert (P (world p1) ∧ ∀ e, e ∈ failed p1 → e ∈ eligible) as [Hw1 Hf1].
  { apply (scheduleGenEdTimeBlocks_commits eligible rooms cm cellOK P Hstep');
      [apply Hfilter| |done].
    intros e ty blocks b _ _ _ _ Hday. exact Hday. }
  assert (P (world p2) ∧ ∀ e, e ∈ failed p2 → e ∈ eligible) as [Hw2 Hf2].
  { apply (scheduleHighPriority_commits eligible rooms cm cellOK P Hstep'); [| |done].
    - intros e [?|?]%elem_of_app; by eapply Hfilter.
    - by intros e day slot _ Hday _. }
  assert (P (world p3) ∧ ∀ e, e ∈ failed p3 → e ∈ eligible) as [Hw3 Hf3].
  { apply (scheduleMajorSubjects_commits eligible rooms cm cellOK P Hstep');
      [apply Hfilter| |done].
    by intros e day slot _ Hday _. }
  apply (scheduleIndividually_commits eligible rooms cm cellOK P Hstep'); [| |done].
  - intros e [?|[?|?]%elem_of_app]%elem_of_app; auto.
  - by intros e day slot _ Hday _.
Qed.

(** ** Architecture subjects and normalized subjects *)

Lemma append_assoc a b c : (a +:+ b) +:+ c = a +:+ b +:+ c.
Proof. induction a as [|x a IH]; [done|]. rewrite !append_cons. by rewrite IH. Qed.

Lemma trimStart_split s : ∃ ws, s = ws +:+ Str.trimStart s.
Proof.
  induction s as [|c s [ws IH]]; [by exists EmptyString|]. simpl.
  destruct (Str.isSpace c); [|by exists EmptyString].
  exists (String c ws). rewrite append_cons. by rewrite <- IH.
Qed.

Lemma trimEnd_split s : ∃ ws, s = Str.trimEnd s +:+ ws.
Proof.
  induction s as [|c s [ws IH]]; [by exists EmptyString|]. simpl.
  destruct (Str.trimEnd s) as [|c' r].
  - destruct (Str.isSpace c).
    + by exists (String c s).
    + exists ws. rewrite append_cons. by rewrite <- IH.
  - exists ws. rewrite append_cons. by rewrite <- IH.
Qed.

Lemma trimStart_keeps pre c post :
  Str.isSpace c = false →
  ∃ pre', Str.trimStart (pre +:+ String c post) = pre' +:+ String c post.
Proof.
  intros Hc. induction pre as [|x pre [pre' IH]].
  - exists EmptyString. simpl. by rewrite Hc.
  - rewrite append_cons. simpl. destruct (Str.isSpace x).
    + by exists pre'.
    + by exists (String x pre).
Qed.

Lemma trimEnd_cons c s :
  Str.isSpace c = false ∨ Str.trimEnd s ≠ EmptyString →
  Str.trimEnd (String c s) = String c (Str.trimEnd s).
Proof.
  simpl. intros [Hc|Hne].
  - rewrite Hc. by destruct (Str.trimEnd s).
  - by destruct (Str.trimEnd s).
Qed.

Lemma trimEnd_keeps pre c post :
  Str.isSpace c = false →
  ∃ post', Str.trimEnd (pre +:+ String c post) = pre +:+ String c post'.
Proof.
  intros Hc. induction pre as [|x pre [post' IH]].
  - exists (Str.trimEnd post). apply trimEnd_cons. by left.
  - exists post'. rewrite !append_cons, trimEnd_cons; [by rewrite IH|].
    right. rewrite IH. by destruct pre.
Qed.

(** Trimming keeps every occurrence of a word that ends in a character
    other than white space and starts with one. *)
Lemma includes_trim s c p d :
  Str.isSpace c = false → Str.isSpace d = false →
  Str.includes (Str.trim s) (String c p +:+ String d EmptyString)
  = Str.includes s (String c p +:+ String d EmptyString).
Proof.
  intros Hc Hd. apply eq_true_iff_eq. rewrite !includes_spec. unfold Str.trim. split.
  - intros (pre & post & Heq).
    destruct (trimStart_split s) as [ws1 Hs].
    destruct (trimEnd_split (Str.trimStart s)) as [ws2 Ht].
    exists (ws1 +:+ pre), (post +:+ ws2).
    rewrite Hs at 1. rewrite Ht at 1. rewrite Heq.
    by rewrite !append_assoc.
  - intros (pre & post & ->).
    assert (pre +:+ (String c p +:+ String d EmptyString) +:+ post
            = pre +:+ String c (p +:+ String d post)) as ->.
    { f_equal. rewrite append_assoc. by rewrite !append_cons. }
    destruct (trimStart_keeps pre c (p +:+ String d post) Hc) as [pre' ->].
    assert (pre' +:+ String c (p +:+ String d post)
            = (pre' +:+ String c p) +:+ String d post) as ->.
    { rewrite append_assoc. by rewrite !append_cons. }
    destruct (trimEnd_keeps (pre' +:+ String c p) d post Hd) as [post' ->].
    exists pre', post'. rewrite !append_assoc. by f_equal.
Qed.

Lemma isArchSubject_normSubject exam :
  isArchSubject (subjectId exam) = Str.includes (normSubject exam) "ARCH".
Proof.
  unfold isArchSubject, normSubject. symmetry.
  by apply (includes_trim _ "A" "RC" "H").
Qed.

Lemma getAvailableBuildings_normSubject d e f :
  normSubject e = normSubject f →
  getAvailableBuildings d (subjectId e) = getAvailableBuildings d (subjectId f).
Proof.
  intros Heq. unfold getAvailableBuildings.
  by rewrite !isArchSubject_normSubject, Heq.
Qed.

(** ** Where a run places sections *)

(** Every record of a run is the record of an eligible section at a day
    of the schedule and a slot of the table, in a room of the list whose
    building is allowed for an eligible section of the same normalized
    subject. *)
Lemma runPhases_placements exams rooms numDays k x :
  (k, x) ∈ scheduled (runPhases exams rooms numDays) →
  ∃ exam first day slot room,
    x = mkScheduledExam exam (dayKey day) (slotKey slot) room
    ∧ exam ∈ eligibleExams exams ∧ first ∈ eligibleExams exams
    ∧ normSubject first = normSubject exam
    ∧ day < numDays ∧ slot < length TIME_SLOTS ∧ room ∈ rooms
    ∧ getBuildingFromRoom room ∈ getAvailableBuildings (dept first) (subjectId first).
Proof.
  revert k x. apply runPhases_commits.
  - by intros k x ?%elem_of_nil.
  - intros exam first day slot room w b He Hf Hsubj Hday Hslot _ Hroom Hbuilding IH k x
      [[_ ->]|Hin]%OMap_set_elem; [|by eauto].
    exists exam, first, day, (commitSlot slot b), room. by split_and!.
Qed.

Lemma examsWithSAS_first_entry :
  mkScheduledExam (sampleExam "c1" "CS101" (Some "BSIT") (Some 1) "SACE" 3)
    "Day 1" "7:30-9:00" "N-1"
  ∈ generateExamSchedule examsWithSAS ["N-1"; "N-2"] 1.
Proof. rewrite examsWithSAS_output. left. Qed.

(** X11.  Every entry of the output lies inside the schedule: its day label
    is that of a day below the day count, its slot label is one of the
    eight of the table (never the label of a missing slot), its room is a
    room of the room list, and the room's identifier starts with one of
    the eight campus buildings and a dash. *)
Theorem generateExamSchedule_within_grid exams rooms numDays x :
  x ∈ generateExamSchedule exams rooms numDays →
  (∃ day slot, DAY x = dayKey day ∧ SLOT x = slotKey slot
               ∧ day < numDays ∧ slot < length TIME_SLOTS)
  ∧ ROOM x ∈ rooms
  ∧ getBuildingFromRoom (ROOM x) ∈ ["A"; "N"; "K"; "L"; "M"; "J"; "B"; "C"].
Proof.
  intros [k Hin]%values_elem.
  apply runPhases_placements in Hin
    as (exam & first & day & slot & room & -> & _ & _ & _ & Hday & Hslot & Hroom & Hb).
  split_and!; [by exists day, slot|done|by eapply getAvailableBuildings_campus].
Qed.

Lemma generateExamSchedule_within_grid_witness :
  (∃ day slot, "Day 1" = dayKey day ∧ "7:30-9:00" = slotKey slot
               ∧ day < 1 ∧ slot < length TIME_SLOTS)
  ∧ "N-1" ∈ ["N-1"; "N-2"]
  ∧ getBuildingFromRoom "N-1" ∈ ["A"; "N"; "K"; "L"; "M"; "J"; "B"; "C"].
Proof.
  exact (generateExamSchedule_within_grid examsWithSAS ["N-1"; "N-2"] 1 _
           examsWithSAS_first_entry).
Defined.

(** X12.  The building of every output entry's room is allowed for the
    entry's subject and the department of some eligible section with the
    same normalized subject (in the group phases: the first section of the
    group, which need not be the entry's own).  So when all eligible
    sections of that subject carry the entry's department, up to letter
    case, the room's building is allowed for the entry's own department. *)
Theorem generateExamSchedule_building_rule exams rooms numDays x :
  x ∈ generateExamSchedule exams rooms numDays →
  (∃ first, first ∈ eligibleExams exams
      ∧ normSubject first = recordSubject x
      ∧ getBuildingFromRoom (ROOM x)
        ∈ getAvailableBuildings (dept first) (SUBJECT_ID x))
  ∧ ((∀ e, e ∈ eligibleExams exams → normSubject e = recordSubject x →
           Str.toUpperCase (dept e) = Str.toUpperCase (DEPT x)) →
     getBuildingFromRoom (ROOM x) ∈ getAvailableBuildings (DEPT x) (SUBJECT_ID x)).
Proof.
  intros [k Hin]%values_elem.
  apply runPhases_placements in Hin
    as (exam & first & day & slot & room & -> & He & Hf & Hsubj & _ & _ & _ & Hb).
  rewrite (getAvailableBuildings_normSubject _ first exam Hsubj) in Hb.
  split.
  - by exists first.
  - intros Hdept. specialize (Hdept first Hf Hsubj). simpl in *.
    revert Hb. unfold getAvailableBuildings. by rewrite Hdept.
Qed.

Lemma generateExamSchedule_building_rule_witness :
  getBuildingFromRoom "N-1" ∈ getAvailableBuildings "SACE" "CS101".
Proof.
  refine (proj2 (generateExamSchedule_building_rule examsWithSAS ["N-1"; "N-2"] 1 _
                   examsWithSAS_first_entry) _).
  intros e He _.
  assert (Helig : eligibleExams examsWithSAS
                  = [ sampleExam "c1" "CS101" (Some "BSIT") (Some 1) "SACE" 3;
                      sampleExam "c2" "CS102" (Some "BSIT") (Some 1) "SACE" 3 ])
    by (vm_compute; reflexivity).
  rewrite Helig in He.
  apply elem_of_cons in He as [->|He]; [reflexivity|].
  apply elem_of_cons in He as [->|He]; [reflexivity|].
  by apply elem_of_nil in He.
Defined.

Lemma examsArchitecture_output :
  generateExamSchedule examsArchitecture roomsArchitecture 1
  = [ mkScheduledExam (sampleExam "a1" "arch101" (Some "BSAR") (Some 1) "SACE" 3)
        "Day 1" "7:30-9:00" "C-1" ].
Proof. vm_compute. reflexivity. Qed.

(** X13.  An output entry of an architecture subject (its subject
    identifier contains ARCH, in any letter case) sits in a room of
    building C or of building K, whatever the departments of the sections
    of its subject. *)
Theorem generateExamSchedule_arch_rooms exams rooms numDays x :
  x ∈ generateExamSchedule exams rooms numDays →
  isArchSubject (SUBJECT_ID x) = true →
  getBuildingFromRoom (ROOM x) = "C" ∨ getBuildingFromRoom (ROOM x) = "K".
Proof.
  intros [k Hin]%values_elem Harch.
  apply runPhases_placements in Hin
    as (exam & first & day & slot & room & -> & He & Hf & Hsubj & _ & _ & _ & Hb).
  rewrite (getAvailableBuildings_normSubject _ first exam Hsubj) in Hb.
  simpl in *. unfold getAvailableBuildings in Hb. rewrite Harch in Hb.
  apply elem_of_cons in Hb as [?|Hb]; [by left|].
  apply elem_of_cons in Hb as [?|Hb]; [by right|].
  by apply elem_of_nil in Hb.
Qed.

Lemma generateExamSchedule_arch_rooms_witness :
  getBuildingFromRoom "C-1" = "C" ∨ getBuildingFromRoom "C-1" = "K".
Proof.
  refine (generateExamSchedule_arch_rooms examsArchitecture roomsArchitecture 1
            (mkScheduledExam
               (sampleExam "a1" "arch101" (Some "BSAR") (Some 1) "SACE" 3)
               "Day 1" "7:30-9:00" "C-1") _ _).
  - rewrite examsArchitecture_output. left.
  - vm_compute. reflexivity.
Defined.

(** X14.  Without rooms, without days or without an eligible section (an
    empty input, or student-affairs sections only) the run changes
    nothing: the ledger stays empty and the output is the empty list. *)
Theorem generateExamSchedule_nothing_to_do exams rooms numDays :
  rooms = [] ∨ numDays = 0 ∨ eligibleExams exams = [] →
  runPhases exams rooms numDays = emptyWorld
  ∧ generateExamSchedule exams rooms numDays = [].
Proof.
  intros Hnothing.
  assert (runPhases exams rooms numDays = emptyWorld) as Hrun.
  { apply (runPhases_commits (λ w, w = emptyWorld)); [done|].
    intros exam first day slot room w b He _ _ Hday _ _ Hroom _ _. exfalso.
    destruct Hnothing as [->|[->|Hnone]].
    - by apply elem_of_nil in Hroom.
    - lia.
    - rewrite Hnone in He. by apply elem_of_nil in He. }
  split; [done|]. unfold generateExamSchedule. by rewrite Hrun.
Qed.

Lemma generateExamSchedule_nothing_to_do_witness :
  runPhases examsWithSAS [] 3 = emptyWorld
  ∧ generateExamSchedule examsWithSAS [] 3 = [].
Proof.
  apply (generateExamSchedule_nothing_to_do examsWithSAS [] 3). by left.
Defined.

(** ** Phase 1 and the time blocks *)

(** X15.  Phase 1 writes records into time blocks only.  Every record in
    the output accumulator after [scheduleGenEdTimeBlocks] was there
    before the phase, or it is the record of a section with a
    general-education type, on the day of one of that type's blocks (a day
    below the day count) and in that block's slot, or in the slot after it
    when the section is a double-unit one.  Every type [getGenEdType] can
    answer has blocks, so the free scan of the grid that the phase holds
    ready for a type without blocks is never taken. *)
Theorem scheduleGenEdTimeBlocks_pinned exams rooms cm numDays w k x :
  (k, x) ∈ scheduled (world (scheduleGenEdTimeBlocks exams rooms cm numDays w)) →
  (k, x) ∈ scheduled w ∨ inTimeBlock numDays x.
Proof.
  revert k x.
  pose (cellOK := λ (e : Exam) (day slot : nat),
          ∃ ty blocks b,
            getGenEdType (subjectId e) = Some ty
            ∧ OMap.get ty GEN_ED_TIME_BLOCKS = Some blocks
            ∧ b ∈ blocks ∧ blockDay b < numDays
            ∧ day = blockDay b ∧ slot = blockSlot b).
  apply (scheduleGenEdTimeBlocks_commits exams rooms cm cellOK
           (λ w', ∀ k x, (k, x) ∈ scheduled w' → (k, x) ∈ scheduled w ∨ inTimeBlock numDays x)).
  - intros exam first day slot room w' b _ _ _
      (ty & blocks & blk & Hty & Hblocks & Hblk & Hday & -> & ->) _ Hsix _ _ IH k x
      [[_ ->]|Hin]%OMap_set_elem; [|by apply IH].
    right. exists ty, blocks, blk. split_and!; try done.
    destruct b; [right|by left]. split; [|done].
    specialize (Hsix eq_refl). unfold is6UnitSubject in Hsix.
    by apply Nat.eqb_eq in Hsix.
  - done.
  - intros e ty blocks b _ Hty Hblocks Hb Hday. by exists ty, blocks, b.
  - intros k x Hin. by left.
Qed.

Lemma examEthics_phase1 :
  scheduled (world (scheduleGenEdTimeBlocks [examEthics] ["N-1"] ∅ 3 emptyWorld))
  = [ ("e1-7:30-9:00", mkScheduledExam examEthics "Day 1" "7:30-9:00" "N-1") ].
Proof. vm_compute. reflexivity. Qed.

Lemma scheduleGenEdTimeBlocks_pinned_witness :
  ("e1-7:30-9:00", mkScheduledExam examEthics "Day 1" "7:30-9:00" "N-1")
  ∈ scheduled emptyWorld
  ∨ inTimeBlock 3 (mkScheduledExam examEthics "Day 1" "7:30-9:00" "N-1").
Proof.
  apply (scheduleGenEdTimeBlocks_pinned [examEthics] ["N-1"] ∅ 3 emptyWorld).
  rewrite examEthics_phase1. left.
Defined.

(** ** What the phases account for *)

Lemma concat_perm {A} (l l' : list (list A)) : l ≡ₚ l' → concat l ≡ₚ concat l'.
Proof.
  induction 1 as [|x l l' _ IH|x y l|l1 l2 l3 _ IH1 _ IH2]; simpl.
  - done.
  - by rewrite IH.
  - rewrite !app_assoc. f_equiv. apply Permutation_app_comm.
  - by etrans.
Qed.

Section Accounting.
Context (allRooms : list string) (conflictMatrix : ConflictMatrix).

Lemma placeGroup_accounts cells acc group given :
  accountsFor acc given →
  accountsFor (placeGroup cells allRooms conflictMatrix acc group) (given ++ group).
Proof.
  intros (placed & Hcount & Hperm). unfold placeGroup.
  destruct (scanCells _ cells (world acc)) as [[] w'].
  - exists (placed ++ group). simpl. split; [rewrite length_app; lia|].
    rewrite <- Hperm, <- !app_assoc. f_equiv. apply Permutation_app_comm.
  - exists placed. simpl. split; [done|]. by rewrite <- Hperm, app_assoc.
Qed.

Lemma placeGroups_accounts cells groups acc given :
  accountsFor acc given →
  accountsFor (fold_left (placeGroup cells allRooms conflictMatrix) groups acc)
    (given ++ concat groups).
Proof.
  revert acc given.
  induction groups as [|group groups IH]; intros acc given Hacc; simpl.
  - by rewrite app_nil_r.
  - rewrite app_assoc. by apply IH, placeGroup_accounts.
Qed.

Lemma accountsFor_perm acc given given' :
  given ≡ₚ given' → accountsFor acc given → accountsFor acc given'.
Proof. intros Hperm (placed & ? & ?). exists placed. split; [done|by etrans]. Qed.

Lemma accountsFor_start w :
  accountsFor {| scheduledCount := 0; failed := []; world := w |} [].
Proof. by exists []. Qed.

Lemma scheduleGenEdType_accounts numDays acc given ty g :
  accountsFor acc given →
  accountsFor (scheduleGenEdType allRooms conflictMatrix numDays acc (ty, g)) (given ++ g).
Proof.
  intros Hacc. unfold scheduleGenEdType.
  eapply accountsFor_perm; [|by apply placeGroups_accounts].
  f_equiv. apply groupExamsBySubject_concat.
Qed.

Lemma accountsFor_length result given :
  accountsFor result given →
  scheduledCount result + length (failed result) = length given.
Proof.
  intros (placed & -> & Hperm).
  apply Permutation_length in Hperm. by rewrite length_app in Hperm.
Qed.

Lemma scheduleGenEdTimeBlocks_accountsFor exams numDays w :
  accountsFor (scheduleGenEdTimeBlocks exams allRooms conflictMatrix numDays w)
    (filter (λ e, isGenEdSubject (subjectId e)) exams).
Proof.
  unfold scheduleGenEdTimeBlocks.
  assert (Hfold : ∀ byType acc given,
    accountsFor acc given →
    accountsFor
      (fold_left (scheduleGenEdType allRooms conflictMatrix numDays) byType acc)
      (given ++ concat (OMap.values byType))).
  { induction byType as [|[ty g] byType IH]; intros acc given Hacc; simpl.
    - by rewrite app_nil_r.
    - rewrite app_assoc. by apply IH, scheduleGenEdType_accounts. }
  eapply accountsFor_perm; [|apply Hfold, accountsFor_start].
  simpl. rewrite groupBy_concat.
  erewrite list_filter_iff; [done|].
  intros e. unfold isGenEdSubject. destruct (getGenEdType (subjectId e)).
  - split; [done|by eexists].
  - split; [by intros [? ?]|done].
Qed.

Lemma scheduleHighPriority_accountsFor exams numDays w :
  accountsFor (scheduleHighPriority exams allRooms conflictMatrix numDays w)
    (filter (λ e, isMathSubject e) exams
     ++ filter (λ e, isArchSubject (subjectId e)) exams).
Proof.
  unfold scheduleHighPriority.
  eapply accountsFor_perm; [|apply placeGroups_accounts, placeGroups_accounts,
                              accountsFor_start].
  simpl. by rewrite !groupExamsBySubject_concat.
Qed.

Lemma scheduleMajorSubjects_accountsFor exams numDays w :
  accountsFor (scheduleMajorSubjects exams allRooms conflictMatrix numDays w) exams.
Proof.
  unfold scheduleMajorSubjects.
  eapply accountsFor_perm; [|apply placeGroups_accounts, accountsFor_start].
  simpl. rewrite <- (groupExamsBySubject_concat exams) at 2.
  apply concat_perm. unfold OMap.values.
  apply fmap_Permutation, sortBySize_perm.
Qed.

(** X16.  Phase 1 accounts for every section with a general-education
    type that it is given, and for no other: the sections it counts as
    scheduled and the sections it defers are together those sections, each
    once, so the counter and the number of deferred sections add up to
    their number.  Sections without a general-education type are neither
    counted nor deferred. *)
Theorem scheduleGenEdTimeBlocks_accounts exams numDays w :
  accountsFor (scheduleGenEdTimeBlocks exams allRooms conflictMatrix numDays w)
    (filter (λ e, isGenEdSubject (subjectId e)) exams)
  ∧ scheduledCount (scheduleGenEdTimeBlocks exams allRooms conflictMatrix numDays w)
    + length (failed (scheduleGenEdTimeBlocks exams allRooms conflictMatrix numDays w))
    = length (filter (λ e, isGenEdSubject (subjectId e)) exams).
Proof.
  split; [|apply accountsFor_length]; apply scheduleGenEdTimeBlocks_accountsFor.
Qed.

(** X17.  Phase 2 accounts for the mathematics sections and for the
    architecture sections it is given: what it counts and what it defers
    are together the mathematics sections followed by the architecture
    sections, so a section that is both is accounted for twice. *)
Theorem scheduleHighPriority_accounts exams numDays w :
  accountsFor (scheduleHighPriority exams allRooms conflictMatrix numDays w)
    (filter (λ e, isMathSubject e) exams
     ++ filter (λ e, isArchSubject (subjectId e)) exams)
  ∧ scheduledCount (scheduleHighPriority exams allRooms conflictMatrix numDays w)
    + length (failed (scheduleHighPriority exams allRooms conflictMatrix numDays w))
    = length (filter (λ e, isMathSubject e) exams)
      + length (filter (λ e, isArchSubject (subjectId e)) exams).
Proof.
  split; [apply scheduleHighPriority_accountsFor|].
  rewrite <- length_app. apply accountsFor_length, scheduleHighPriority_accountsFor.
Qed.

(** X18.  Phase 3 accounts for every section it is given: what it counts
    and what it defers are together the sections given, each once. *)
Theorem scheduleMajorSubjects_accounts exams numDays w :
  accountsFor (scheduleMajorSubjects exams allRooms conflictMatrix numDays w) exams
  ∧ scheduledCount (scheduleMajorSubjects exams allRooms conflictMatrix numDays w)
    + length (failed (scheduleMajorSubjects exams allRooms conflictMatrix numDays w))
    = length exams.
Proof.
  split; [|apply accountsFor_length]; apply scheduleMajorSubjects_accountsFor.
Qed.

Lemma scheduleIndividually_count exams numDays w :
  ((scheduleIndividually exams allRooms conflictMatrix numDays w).1 ≤ length exams)%nat.
Proof.
  unfold scheduleIndividually.
  assert (∀ acc : nat * World,
            ((fold_left
                (λ '(scheduledCount, w) exam,
                   match scanCells (tryScheduleAlone exam allRooms conflictMatrix)
                           (gridCells numDays) w with
                   | (true, w') => (scheduledCount + 1, w')
                   | (false, w') => (scheduledCount, w')
                   end) exams acc).1 ≤ acc.1 + length exams)%nat) as H.
  { induction exams as [|e exams IH]; intros [n w']; simpl; [lia|].
    etrans; [apply IH|].
    destruct (scanCells _ _ w') as [[] w'']; simpl; lia. }
  apply (H (0, w)).
Qed.

End Accounting.

Lemma filter_idemp {A} (P : A → Prop) `{∀ x, Decision (P x)} (l : list A) :
  filter P (filter P l) = filter P l.
Proof.
  induction l as [|x l IH]; [done|]. rewrite (filter_cons P x l).
  case_decide; [|done]. by rewrite filter_cons_True, IH.
Qed.

Lemma filter_filter_none {A} (P Q : A → Prop)
    `{∀ x, Decision (P x)} `{∀ x, Decision (Q x)} (l : list A) :
  (∀ x, x ∈ l → P x → Q x → False) → filter P (filter Q l) = [].
Proof.
  intros Hdisj. apply filter_none. apply Forall_forall.
  intros x [HQ Hin]%list_elem_of_filter HP. by eapply Hdisj.
Qed.

(** With categories that do not overlap, the four category lists of
    [generateExamSchedule] split the eligible sections. *)
Lemma categories_split (eligible : list Exam) :
  (∀ e, e ∈ eligible →
     (isGenEdSubject (subjectId e) = true →
        isMathSubject e = false ∧ isArchSubject (subjectId e) = false)
     ∧ (isMathSubject e = true → isArchSubject (subjectId e) = false)) →
  length (filter (λ e, isGenEdSubject (subjectId e)) eligible)
  + length (filter (λ e, isMathSubject e) eligible)
  + length (filter (λ e, isArchSubject (subjectId e)) eligible)
  + length (filter (λ e, negb (isGenEdSubject (subjectId e)) && negb (isMathSubject e)
                         && negb (isArchSubject (subjectId e))) eligible)
  = length eligible.
Proof.
  induction eligible as [|e eligible IH]; intros Hdisj; [done|].
  rewrite !(filter_cons _ e eligible).
  assert (∀ e', e' ∈ eligible →
            (isGenEdSubject (subjectId e') = true →
               isMathSubject e' = false ∧ isArchSubject (subjectId e') = false)
            ∧ (isMathSubject e' = true → isArchSubject (subjectId e') = false)) as Hrest
    by (intros e' He'; apply Hdisj; by right).
  specialize (IH Hrest).
  destruct (Hdisj e) as [Hgen Hmath]; [left|].
  destruct (isGenEdSubject (subjectId e)), (isMathSubject e),
    (isArchSubject (subjectId e)); simpl in *;
    try (by destruct Hgen); try (by specialize (Hmath eq_refl));
    repeat case_decide; simpl; try done; lia.
Qed.

(** X19.  When no eligible section falls into two of the categories
    general education, mathematics and architecture, the total that
    [generateExamSchedule] reports as scheduled is at most the number of
    eligible sections. *)
Theorem totalScheduled_bound exams rooms numDays :
  (∀ e, e ∈ eligibleExams exams →
     (isGenEdSubject (subjectId e) = true →
        isMathSubject e = false ∧ isArchSubject (subjectId e) = false)
     ∧ (isMathSubject e = true → isArchSubject (subjectId e) = false)) →
  (totalScheduled exams rooms numDays ≤ length (eligibleExams exams))%nat.
Proof.
  intros Hdisj. unfold totalScheduled. cbv zeta.
  set (eligible := eligibleExams exams) in *.
  set (cm := buildConflictMatrix eligible).
  set (genEds := filter (λ e, isGenEdSubject (subjectId e)) eligible).
  set (mathSubjects := filter (λ e, isMathSubject e) eligible).
  set (archSubjects := filter (λ e, isArchSubject (subjectId e)) eligible).
  set (majorSubjects := filter _ eligible).
  set (p1 := scheduleGenEdTimeBlocks genEds rooms cm numDays emptyWorld).
  set (p2 := scheduleHighPriority _ rooms cm numDays (world p1)).
  set (p3 := scheduleMajorSubjects _ rooms cm numDays (world p2)).
  pose proof (accountsFor_length _ _
                (scheduleGenEdTimeBlocks_accountsFor rooms cm genEds numDays emptyWorld))
    as H1.
  pose proof (accountsFor_length _ _
                (scheduleHighPriority_accountsFor rooms cm
                   (mathSubjects ++ archSubjects) numDays (world p1))) as H2.
  pose proof (accountsFor_length _ _
                (scheduleMajorSubjects_accountsFor rooms cm
                   majorSubjects numDays (world p2))) as H3.
  pose proof (scheduleIndividually_count rooms cm
                (failed p1 ++ failed p2 ++ failed p3) numDays (world p3)) as H4.
  fold p1 in H1. fold p2 in H2. fold p3 in H3.
  assert (Hg : filter (λ e, isGenEdSubject (subjectId e)) genEds = genEds)
    by apply filter_idemp.
  assert (Hmm : filter (λ e, isMathSubject e) mathSubjects = mathSubjects)
    by apply filter_idemp.
  assert (Haa : filter (λ e, isArchSubject (subjectId e)) archSubjects = archSubjects)
    by apply filter_idemp.
  assert (Hma : filter (λ e, isMathSubject e) archSubjects = []).
  { apply filter_filter_none. intros e He Hm Ha. destruct (Hdisj e He) as [_ Hno].
    apply Is_true_true in Hm, Ha. rewrite (Hno Hm) in Ha. done. }
  assert (Ham : filter (λ e, isArchSubject (subjectId e)) mathSubjects = []).
  { apply filter_filter_none. intros e He Ha Hm. destruct (Hdisj e He) as [_ Hno].
    apply Is_true_true in Hm, Ha. rewrite (Hno Hm) in Ha. done. }
  rewrite Hg in H1. rewrite !filter_app, Hmm, Haa, Hma, Ham in H2.
  rewrite !length_app in H2, H4. simpl in H2.
  pose proof (categories_split eligible Hdisj) as Hsplit.
  fold genEds mathSubjects archSubjects majorSubjects in Hsplit.
  simpl. lia.
Qed.

Lemma totalScheduled_bound_witness :
  (totalScheduled examsWithSAS ["N-1"; "N-2"] 1 ≤ length (eligibleExams examsWithSAS))%nat.
Proof.
  apply (totalScheduled_bound examsWithSAS ["N-1"; "N-2"] 1).
  intros e He.
  assert (Helig : eligibleExams examsWithSAS
                  = [ sampleExam "c1" "CS101" (Some "BSIT") (Some 1) "SACE" 3;
                      sampleExam "c2" "CS102" (Some "BSIT") (Some 1) "SACE" 3 ])
    by (vm_compute; reflexivity).
  rewrite Helig in He.
  apply elem_of_cons in He as [->|He]; [split; intros Hc; vm_compute in Hc; discriminate Hc|].
  apply elem_of_cons in He as [->|He]; [split; intros Hc; vm_compute in Hc; discriminate Hc|].
  by apply elem_of_nil in He.
Defined.

(** ** The earlier variant: batches *)

Lemma batches_concat_take {A} (l : list A) k n :
  concat (map (λ j, take k (drop (j * k) l)) (seq 0 n)) = take (n * k) l.
Proof.
  induction n as [|n IH]; [done|].
  rewrite seq_S, map_app, concat_app, IH. simpl.
  rewrite app_nil_r, take_take_drop. f_equal. lia.
Qed.

(** X20.  The batches into which the earlier variant cuts a large group
    are the group cut into consecutive pieces: put end to end they give
    the group back, section by section; no batch is empty, none has more
    than 35 sections, and every batch but the last has exactly 35. *)
Theorem V4_batches_spec examGroup :
  concat (V4.batches examGroup) = examGroup
  ∧ Forall (λ batch, (1 ≤ length batch ≤ V4.maxBatchSize)%nat) (V4.batches examGroup)
  ∧ ∀ i batch, V4.batches examGroup !! i = Some batch →
      S i < length (V4.batches examGroup) → length batch = V4.maxBatchSize.
Proof.
  unfold V4.batches, V4.maxBatchSize.
  set (n := (length examGroup + (35 - 1)) / 35).
  assert (Hn : (length examGroup ≤ n * 35 ∧ n * 35 < length examGroup + 35)%nat).
  { unfold n. pose proof (Nat.div_mod_eq (length examGroup + (35 - 1)) 35) as Hdiv.
    pose proof (Nat.mod_upper_bound (length examGroup + (35 - 1)) 35) as Hmod. lia. }
  split_and!.
  - rewrite batches_concat_take. apply take_ge. lia.
  - apply Forall_forall. intros batch (j & -> & Hj%elem_of_seq)%list_elem_of_fmap.
    rewrite length_take, length_drop. lia.
  - intros i batch Hi Hlast. rewrite length_map, length_seq in Hlast.
    rewrite list_lookup_fmap in Hi.
    destruct (seq 0 n !! i) as [j|] eqn:Hj; [|done].
    apply lookup_seq in Hj as [-> _]. injection Hi as <-.
    rewrite length_take, length_drop. lia.
Qed.

(** ** The earlier variant: what every commit satisfies *)

Lemma V4_state_scheduleExam exam day slot room w :
  state (V4.scheduleExam exam day slot room w)
  = state (scheduleExam exam day slot room w false).
Proof. done. Qed.

Lemma V4_scheduled_scheduleExam exam day slot room w :
  scheduled (V4.scheduleExam exam day slot room w)
  = OMap.set (scheduledKey (code exam) (slotKey slot))
      (V4.mkScheduledExam exam (dayKey day) (slotKey slot) room) (scheduled w).
Proof. done. Qed.

Lemma V4_getAvailableRooms_eq exam day slot allRooms st :
  V4.getAvailableRooms exam day slot allRooms st
  = filter (λ room, room ∉ occupiedRooms st (dayKey day) (slotKey slot))
      (filter (λ room, getBuildingFromRoom room
                       ∈ V4.getAvailableBuildings (dept exam) (subjectId exam))
         allRooms).
Proof. done. Qed.

Lemma V4_getAvailableRooms_elem exam day slot allRooms st r :
  r ∈ V4.getAvailableRooms exam day slot allRooms st
  ↔ r ∈ allRooms
    ∧ getBuildingFromRoom r ∈ V4.getAvailableBuildings (dept exam) (subjectId exam)
    ∧ r ∉ occupiedRooms st (dayKey day) (slotKey slot).
Proof.
  rewrite V4_getAvailableRooms_eq, !list_elem_of_filter. naive_solver.
Qed.

Section V4Commits.
Context (eligible : list Exam) (rooms : list string) (cm : ConflictMatrix).
Context (numDays : nat) (P : World → Prop).
Hypothesis P_step : ∀ exam first day slot room w,
  exam ∈ eligible → first ∈ eligible → normSubject first = normSubject exam →
  day < numDays → slot < length TIME_SLOTS → room ∈ rooms →
  getBuildingFromRoom room ∈ V4.getAvailableBuildings (dept first) (subjectId first) →
  (NoDup rooms → room ∉ occupiedRooms (state w) (dayKey day) (slotKey slot)) →
  P w → P (V4.scheduleExam exam day slot room w).

Lemma V4_scheduleAll_commits first day slot group :
  ∀ avail w,
  first ∈ eligible → day < numDays → slot < length TIME_SLOTS →
  (∀ e, e ∈ group → e ∈ eligible ∧ normSubject first = normSubject e) →
  (length group ≤ length avail)%nat →
  (∀ r, r ∈ avail →
     r ∈ rooms
     ∧ getBuildingFromRoom r ∈ V4.getAvailableBuildings (dept first) (subjectId first)) →
  (NoDup rooms →
   NoDup avail
   ∧ ∀ r, r ∈ avail → r ∉ occupiedRooms (state w) (dayKey day) (slotKey slot)) →
  P w → P (V4.scheduleAll group day slot avail w).
Proof.
  induction group as [|e group IH];
    intros avail w Hfirst Hday Hslot Hgroup Hlen Hrooms Hfree Hw; [done|].
  destruct avail as [|room avail]; [simpl in Hlen; lia|]. simpl in Hlen. simpl.
  destruct (Hgroup e) as [He Hsubj]; [left|].
  destruct (Hrooms room) as [Hroom Hbuilding]; [left|].
  apply IH; try done.
  - intros e' He'. apply Hgroup. by right.
  - lia.
  - intros r Hr. apply Hrooms. by right.
  - intros Hnd. destruct (Hfree Hnd) as [[Hnotin Hnd']%NoDup_cons Hf].
    split; [done|]. intros r Hr.
    rewrite V4_state_scheduleExam.
    apply occupiedRooms_scheduleExam_other; [by intros ->|]. apply Hf. by right.
  - apply (P_step e first); try done.
    intros Hnd. destruct (Hfree Hnd) as [_ Hf]. apply Hf. left.
Qed.

Lemma V4_tryScheduleGroup_commits subject group day slot w :
  day < numDays → slot < length TIME_SLOTS →
  (∀ e, e ∈ group → e ∈ eligible ∧ normSubject e = subject) →
  P w → P (V4.tryScheduleGroup group day slot rooms cm w).2.
Proof.
  intros Hday Hslot Hgroup Hw. unfold V4.tryScheduleGroup.
  destruct group as [|first rest] eqn:Hg; [done|]. rewrite <- Hg in *.
  destruct (existsb _ group); [done|].
  destruct (Nat.ltb_spec
              (length (V4.getAvailableRooms first day slot rooms (state w)))
              (length group)) as [Hfew|Henough]; [done|].
  destruct (Hgroup first) as [Hfirst Hsubj]; [rewrite Hg; left|].
  apply (V4_scheduleAll_commits first); try done.
  - intros e He. destruct (Hgroup e He). split; [done|congruence].
  - intros r Hr%V4_getAvailableRooms_elem. naive_solver.
  - intros Hnd. split.
    + rewrite V4_getAvailableRooms_eq. by do 2 apply NoDup_filter.
    + intros r Hr%V4_getAvailableRooms_elem. naive_solver.
Qed.

Lemma V4_tryScheduleGroupAnywhere_commits subject group w :
  (∀ e, e ∈ group → e ∈ eligible ∧ normSubject e = subject) →
  P w → P (V4.tryScheduleGroupAnywhere group rooms cm numDays w).2.
Proof.
  intros Hgroup Hw. unfold V4.tryScheduleGroupAnywhere.
  destruct (_ <=? _)%nat.
  - apply scanCells_preserves; [|done].
    intros day slot w' [? ?]%gridCells_elem Hw'.
    by apply (V4_tryScheduleGroup_commits subject).
  - assert (Hbatches : ∀ batch, batch ∈ V4.batches group →
                         ∀ e, e ∈ batch → e ∈ eligible ∧ normSubject e = subject).
    { intros batch Hb e He. apply Hgroup. by eapply V4_batches_elem. }
    change w with (true, w).2 in Hw. revert Hw Hbatches.
    generalize (true, w). generalize (V4.batches group).
    intros bs. induction bs as [|batch bs IH]; intros [ok w'] Hw' Hbs; [done|].
    simpl. apply IH; [|intros b Hb; apply Hbs; by right].
    pose proof (scanCells_preserves P
                  (λ day slot, V4.tryScheduleGroup batch day slot rooms cm)
                  (gridCells numDays) w') as Hscan.
    destruct (scanCells _ _ w') as [[] w'']; simpl;
      (apply Hscan; [|done]; intros day slot w3 [? ?]%gridCells_elem Hw3;
       apply (V4_tryScheduleGroup_commits subject); [done|done| |done];
       apply Hbs; left).
Qed.

Lemma V4_tryScheduleExam_commits exam w :
  exam ∈ eligible → P w → P (V4.tryScheduleExam exam rooms cm numDays w).2.
Proof.
  intros He Hw. unfold V4.tryScheduleExam. apply scanCells_preserves; [|done].
  intros day slot w' [? ?]%gridCells_elem Hw'. unfold V4.tryScheduleExamAt.
  destruct (hasConflict _ _ _ _ _); [done|].
  destruct (V4.getAvailableRooms _ _ _ _ _) as [|room avail] eqn:Havail; [done|].
  assert (Hroom : room ∈ V4.getAvailableRooms exam day slot rooms (state w'))
    by (rewrite Havail; left).
  apply V4_getAvailableRooms_elem in Hroom as (? & ? & ?).
  by apply (P_step exam exam).
Qed.

End V4Commits.

Lemma V4_runPhases_commits (P : World → Prop) exams rooms numDays :
  P emptyWorld →
  (∀ exam first day slot room w,
     exam ∈ eligibleExams exams → first ∈ eligibleExams exams →
     normSubject first = normSubject exam →
     day < numDays → slot < length TIME_SLOTS → room ∈ rooms →
     getBuildingFromRoom room ∈ V4.getAvailableBuildings (dept first) (subjectId first) →
     (NoDup rooms → room ∉ occupiedRooms (state w) (dayKey day) (slotKey slot)) →
     P w → P (V4.scheduleExam exam day slot room w)) →
  P (V4.runPhases exams rooms numDays).
Proof.
  intros Hempty Hstep. unfold V4.runPhases. cbv zeta.
  set (eligible := eligibleExams exams).
  set (cm := V4.buildConflictMatrix eligible).
  assert (Hgroups : ∀ group, group ∈ OMap.values (sortBySize (groupExamsBySubject eligible)) →
                      ∃ subject, ∀ e, e ∈ group → e ∈ eligible ∧ normSubject e = subject).
  { intros group [k Hin]%values_elem. exists k. intros e He.
    apply (proj1 (sortBySize_elem _ _)) in Hin.
    apply (groupBy_member (λ exam, Some (normSubject exam)) _ _ _ _ Hin) in He as [? ?].
    split; [done|congruence]. }
  revert Hgroups. generalize (OMap.values (sortBySize (groupExamsBySubject eligible))).
  intros groups Hgroups.
  assert (Hphase1 : ∀ acc : list Exam * World,
            (∀ e, e ∈ acc.1 → e ∈ eligible) → P acc.2 →
            let phase1 :=
              fold_left
                (λ '(phase1Fail, w) examGroup,
                   match V4.tryScheduleGroupAnywhere examGroup rooms cm numDays w with
                   | (true, w') => (phase1Fail, w')
                   | (false, w') => (phase1Fail ++ examGroup, w')
                   end) groups acc in
            (∀ e, e ∈ phase1.1 → e ∈ eligible) ∧ P phase1.2).
  { induction groups as [|group groups IH]; intros [fails w] Hfails Hw; [done|].
    destruct (Hgroups group ltac:(left)) as [subject Hgroup].
    simpl. apply IH; [intros g Hg; apply Hgroups; by right|..];
      pose proof (V4_tryScheduleGroupAnywhere_commits eligible rooms cm numDays P Hstep
                    subject group w Hgroup Hw) as Hany;
      destruct (V4.tryScheduleGroupAnywhere group rooms cm numDays w) as [[] w'];
      simpl in *; try done.
    intros e [?|?]%elem_of_app; [auto|]. by apply Hgroup. }
  destruct (Hphase1 ([], emptyWorld)) as [Hfails Hw1];
    [by intros e ?%elem_of_nil|done|].
  revert Hfails Hw1. cbv zeta.
  generalize (fold_left
                (λ '(phase1Fail, w) examGroup,
                   match V4.tryScheduleGroupAnywhere examGroup rooms cm numDays w with
                   | (true, w') => (phase1Fail, w')
                   | (false, w') => (phase1Fail ++ examGroup, w')
                   end) groups ([], emptyWorld)).
  intros [fails w1]. simpl. clear Hphase1. revert w1.
  induction fails as [|e fails IH]; intros w1 Hfails Hw1; [done|].
  simpl. apply IH; [intros e' He'; apply Hfails; by right|].
  apply (V4_tryScheduleExam_commits eligible rooms cm numDays P Hstep);
    [apply Hfails; left|done].
Qed.

Lemma V4_getAvailableBuildings_campus dept subjectId b :
  b ∈ V4.getAvailableBuildings dept subjectId →
  b ∈ ["A"; "N"; "K"; "L"; "M"; "J"; "B"; "C"].
Proof.
  unfold V4.getAvailableBuildings.
  repeat match goal with |- context [if ?c then _ else _] => destruct c end;
    intros Hb; repeat (apply elem_of_cons in Hb as [->|Hb]; [set_solver|]);
    by apply elem_of_nil in Hb.
Qed.

Lemma V4_getAvailableBuildings_normSubject d e f :
  normSubject e = normSubject f →
  V4.getAvailableBuildings d (subjectId e) = V4.getAvailableBuildings d (subjectId f).
Proof.
  intros Heq. unfold V4.getAvailableBuildings.
  pose proof (isArchSubject_normSubject e) as He.
  pose proof (isArchSubject_normSubject f) as Hf.
  unfold isArchSubject in He, Hf. by rewrite He, Hf, Heq.
Qed.

Lemma V4_runPhases_placements exams rooms numDays k x :
  (k, x) ∈ scheduled (V4.runPhases exams rooms numDays) →
  ∃ exam first day slot room,
    x = V4.mkScheduledExam exam (dayKey day) (slotKey slot) room
    ∧ exam ∈ eligibleExams exams ∧ first ∈ eligibleExams exams
    ∧ normSubject first = normSubject exam
    ∧ day < numDays ∧ slot < length TIME_SLOTS ∧ room ∈ rooms
    ∧ getBuildingFromRoom room ∈ V4.getAvailableBuildings (dept first) (subjectId first).
Proof.
  revert k x. apply V4_runPhases_commits.
  - by intros k x ?%elem_of_nil.
  - intros exam first day slot room w He Hf Hsubj Hday Hslot Hroom Hbuilding _ IH k x
      [[_ ->]|Hin]%OMap_set_elem; [|by eauto].
    exists exam, first, day, slot, room. by split_and!.
Qed.

Lemma examsTwoSections_output_V4 :
  V4.generateExamSchedule examsTwoSections ["N-1"; "N-2"] 1 = examsTwoSectionsOutputV4.
Proof. vm_compute. reflexivity. Qed.

(** X21.  The earlier variant books no room twice: with a room list in
    which no identifier occurs twice, no two distinct entries of its
    output share day label, slot label and room. *)
Theorem V4_generateExamSchedule_no_double_booking exams rooms numDays :
  NoDup rooms →
  noDoubleBooking (V4.generateExamSchedule exams rooms numDays).
Proof.
  intros Hrooms.
  assert (Hinv :
    (∀ k x, (k, x) ∈ scheduled (V4.runPhases exams rooms numDays) →
       ROOM x ∈ occupiedRooms (state (V4.runPhases exams rooms numDays)) (DAY x) (SLOT x))
    ∧ NoDup (booking <$> OMap.values (scheduled (V4.runPhases exams rooms numDays)))).
  { apply (V4_runPhases_commits
             (λ w, (∀ k x, (k, x) ∈ scheduled w →
                      ROOM x ∈ occupiedRooms (state w) (DAY x) (SLOT x))
                   ∧ NoDup (booking <$> OMap.values (scheduled w)))).
    - split; [by intros k x ?%elem_of_nil|constructor].
    - intros exam first day slot room w _ _ _ _ _ _ _ Hfree [Hbooked Hnd].
      specialize (Hfree Hrooms). rewrite V4_state_scheduleExam. split.
      + intros k x [[_ ->]|Hin]%OMap_set_elem.
        * apply occupiedRooms_scheduleExam_claimed.
        * apply occupiedRooms_scheduleExam_mono. by eapply Hbooked.
      + rewrite V4_scheduled_scheduleExam.
        apply OMap_set_NoDup_image; [done|].
        intros (x & Hx & [k Hin]%values_elem)%list_elem_of_fmap.
        apply Hfree. apply Hbooked in Hin.
        unfold booking in Hx. simpl in Hx. injection Hx as Hd Hs Hr.
        by rewrite Hd, Hs, Hr. }
  destruct Hinv as [_ Hnd].
  intros i j x y Hij Hx Hy Heq. apply Hij.
  eapply NoDup_lookup; [exact Hnd| |].
  - unfold V4.generateExamSchedule in Hx. by rewrite list_lookup_fmap, Hx.
  - unfold V4.generateExamSchedule in Hy. by rewrite list_lookup_fmap, Hy, Heq.
Qed.

Lemma V4_generateExamSchedule_no_double_booking_witness :
  noDoubleBooking (V4.generateExamSchedule examsTwoSections ["N-1"; "N-2"] 1).
Proof.
  apply (V4_generateExamSchedule_no_double_booking examsTwoSections ["N-1"; "N-2"] 1).
  apply (bool_decide_unpack _). vm_compute. exact I.
Defined.

(** X22.  Every entry of the output of the earlier variant lies inside the
    schedule: a day below the day count, a slot of the table, a room of
    the room list.  The room's building is allowed, by the building table
    of the earlier variant, for the entry's subject and the department of
    an eligible section with the same normalized subject; for an
    architecture subject it is building C or building K. *)
Theorem V4_generateExamSchedule_placements exams rooms numDays x :
  x ∈ V4.generateExamSchedule exams rooms numDays →
  (∃ day slot, DAY x = dayKey day ∧ SLOT x = slotKey slot
               ∧ day < numDays ∧ slot < length TIME_SLOTS)
  ∧ ROOM x ∈ rooms
  ∧ (∃ first, first ∈ eligibleExams exams
        ∧ normSubject first = recordSubject x
        ∧ getBuildingFromRoom (ROOM x)
          ∈ V4.getAvailableBuildings (dept first) (SUBJECT_ID x))
  ∧ (isArchSubject (SUBJECT_ID x) = true →
     getBuildingFromRoom (ROOM x) = "C" ∨ getBuildingFromRoom (ROOM x) = "K").
Proof.
  intros [k Hin]%values_elem.
  apply V4_runPhases_placements in Hin
    as (exam & first & day & slot & room & -> & He & Hf & Hsubj & Hday & Hslot
        & Hroom & Hb).
  rewrite (V4_getAvailableBuildings_normSubject _ first exam Hsubj) in Hb.
  split_and!; [by exists day, slot|done|by exists first|].
  simpl. intros Harch. unfold V4.getAvailableBuildings in Hb.
  unfold isArchSubject in Harch. rewrite Harch in Hb.
  apply elem_of_cons in Hb as [?|Hb]; [by left|].
  apply elem_of_cons in Hb as [?|Hb]; [by right|].
  by apply elem_of_nil in Hb.
Qed.

Lemma V4_generateExamSchedule_placements_witness :
  (∃ day slot, "Day 1" = dayKey day ∧ "7:30-9:00" = slotKey slot
               ∧ day < 1 ∧ slot < length TIME_SLOTS)
  ∧ "N-2" ∈ ["N-1"; "N-2"].
Proof.
  pose proof (V4_generateExamSchedule_placements examsTwoSections ["N-1"; "N-2"] 1
                (V4.mkScheduledExam (sampleExam "q1" "CS301" None None "SACE" 3)
                   "Day 1" "7:30-9:00" "N-2")) as H.
  destruct H as (Hcell & Hroom & _).
  - rewrite examsTwoSections_output_V4. right. left.
  - exact (conj Hcell Hroom).
Defined.

(** ** The earlier variant: group calls *)

(** X23.  In the earlier variant a group call that answers false has
    changed nothing, at every slot and for every group: all checks come
    before the first commit, and a commit cannot fail.  It answers false
    only because a member has a conflict at the day and slot, or because
    fewer rooms are available to the first member than the group has
    sections. *)
Theorem V4_tryScheduleGroup_atomic group day slot rooms cm w :
  (V4.tryScheduleGroup group day slot rooms cm w).1 = false →
  (V4.tryScheduleGroup group day slot rooms cm w).2 = w
  ∧ ∃ first rest, group = first :: rest
      ∧ ((∃ e, e ∈ group ∧ hasConflict e day slot (state w) cm = true)
         ∨ (length (V4.getAvailableRooms first day slot rooms (state w))
            < length group)%nat).
Proof.
  unfold V4.tryScheduleGroup.
  destruct group as [|first rest] eqn:Hg; [done|]. rewrite <- Hg in *.
  destruct (existsb (λ exam, hasConflict exam day slot (state w) cm) group) eqn:Hconf.
  - intros _. split; [done|]. exists first, rest. split; [done|]. left.
    apply existsb_exists in Hconf as (e & He & Hc).
    exists e. split; [by apply list_elem_of_In|done].
  - destruct (Nat.ltb_spec
                (length (V4.getAvailableRooms first day slot rooms (state w)))
                (length group)) as [Hfew|Henough]; [|done].
    intros _. split; [done|]. exists first, rest. split; [done|]. by right.
Qed.

Lemma V4_tryScheduleGroup_atomic_witness :
  (V4.tryScheduleGroup examsTwoSections 0 7 ["N-1"] ∅ emptyWorld).2 = emptyWorld.
Proof.
  refine (proj1 (V4_tryScheduleGroup_atomic examsTwoSections 0 7 ["N-1"] ∅ emptyWorld _)).
  vm_compute. reflexivity.
Defined.

(** X24.  The general-education test of the earlier variant accepts what
    the test of the enhanced algorithm accepts, and besides only subject
    identifiers that start with RESM, in any letter case. *)
Theorem V4_isGenEdSubject_spec subjectId :
  V4.isGenEdSubject subjectId
  = isGenEdSubject subjectId || Str.startsWith (Str.toUpperCase subjectId) "RESM".
Proof.
  unfold V4.isGenEdSubject, isGenEdSubject, getGenEdType.
  destruct subjectId as [|c s]; [done|].
  cbn [Str.truthy negb existsb].
  generalize (Str.toUpperCase (String c s)). intros upper.
  destruct (Str.startsWith upper "ETHC"); [by rewrite !orb_true_r|].
  destruct (Str.startsWith upper "ENGL"); [by rewrite !orb_true_r|].
  destruct (Str.startsWith upper "PHED"); [by rewrite !orb_true_r|].
  destruct (Str.startsWith upper "CFED"); [done|].
  destruct (Str.startsWith upper "CONW"); [done|].
  destruct (Str.startsWith upper "LANG"); [done|].
  destruct (Str.startsWith upper "JAPN"); [done|].
  destruct (Str.startsWith upper "CHIN"); [done|].
  destruct (Str.startsWith upper "SPAN"); [done|].
  destruct (Str.startsWith upper "LITR"); [done|].
  simpl. by rewrite orb_false_r.
Qed.

(** ** Scans stop at the earliest cell *)

(** A scan whose failed attempts change nothing: every attempt is made on
    the world the scan started in, and the scan stops at the first cell
    where the attempt succeeds. *)
Lemma scanCells_first attempt cells w :
  (∀ day slot, (day, slot) ∈ cells →
     (attempt day slot w).1 = false → (attempt day slot w).2 = w) →
  match scanCells attempt cells w with
  | (true, w') =>
      ∃ pre day slot post,
        cells = pre ++ (day, slot) :: post
        ∧ attempt day slot w = (true, w')
        ∧ ∀ d s, (d, s) ∈ pre → (attempt d s w).1 = false
  | (false, w') =>
      w' = w ∧ ∀ d s, (d, s) ∈ cells → (attempt d s w).1 = false
  end.
Proof.
  induction cells as [|[day slot] cells IH]; intros Hatomic; simpl.
  - split; [done|]. by intros d s ?%elem_of_nil.
  - specialize (Hatomic day slot ltac:(left)) as Hnow.
    destruct (attempt day slot w) as [[] w1] eqn:Hattempt.
    + exists [], day, slot, cells. split_and!; [done|done|].
      by intros d s ?%elem_of_nil.
    + simpl in Hnow. rewrite (Hnow eq_refl).
      assert (Hrest : ∀ d s, (d, s) ∈ cells →
                (attempt d s w).1 = false → (attempt d s w).2 = w)
        by (intros d s Hin; apply Hatomic; by right).
      specialize (IH Hrest).
      assert (Hhere : ∀ d s, (d, s) = (day, slot) → (attempt d s w).1 = false)
        by (intros d s [= -> ->]; by rewrite Hattempt).
      destruct (scanCells attempt cells w) as [[] w2].
      * destruct IH as (pre & d0 & s0 & post & -> & Hsucc & Hpre).
        exists ((day, slot) :: pre), d0, s0, post. split_and!; [done|done|].
        intros d s [?|?]%elem_of_cons; [by apply Hhere|by apply Hpre].
      * destruct IH as [-> Hall]. split; [done|].
        intros d s [?|?]%elem_of_cons; [by apply Hhere|by apply Hall].
Qed.

Lemma gridRow_elem (a d s : nat) :
  (d, s) ∈ [(a, 0); (a, 1); (a, 2); (a, 3); (a, 4); (a, 5); (a, 6); (a, 7)]
  ↔ d = a ∧ s < 8.
Proof.
  rewrite !elem_of_cons, elem_of_nil. split.
  - intros H. repeat (destruct H as [[= -> ->]|H]; [split; [done|lia]|]). done.
  - intros [-> Hs]. do 8 (destruct s as [|s]; [naive_solver|]). lia.
Qed.

Lemma gridCells_from_earlier n : ∀ (a : nat) pre (day slot : nat) post,
  (seq a n ≫= λ d, seq 0 (length TIME_SLOTS) ≫= λ s, [(d, s)])
  = pre ++ (day, slot) :: post →
  (a ≤ day < a + n)%nat ∧ slot < length TIME_SLOTS
  ∧ ∀ d s, (d, s) ∈ pre
           ↔ s < length TIME_SLOTS ∧ (a ≤ d)%nat ∧ (d < day ∨ (d = day ∧ s < slot)).
Proof.
  induction n as [|n IH]; intros a pre day slot post Heq.
  - by destruct pre.
  - cbn [seq] in Heq. rewrite bind_cons in Heq.
    change (seq 0 (length TIME_SLOTS) ≫= λ s, [(a, s)])
      with [(a, 0); (a, 1); (a, 2); (a, 3); (a, 4); (a, 5); (a, 6); (a, 7)] in Heq.
    cbn [length TIME_SLOTS].
    do 8 (destruct pre as [|? pre];
          [injection Heq as <- <- _; split_and!; [lia..|];
           intros d s; rewrite ?elem_of_cons, elem_of_nil; split;
           [intros H; repeat (destruct H as [[= -> ->]|H]; [lia|]); done
           |intros (Hs & Ha & [Hd|[-> Hlt]]); [lia|];
            do 8 (destruct s as [|s]; [naive_solver lia|]); lia]
          |injection Heq as <- Heq]).
    apply IH in Heq as (Hday & Hslot & Hpre). cbn [length TIME_SLOTS] in *.
    split_and!; [lia..|].
    intros d s.
    change ((a, 0) :: (a, 1) :: (a, 2) :: (a, 3) :: (a, 4) :: (a, 5) :: (a, 6)
            :: (a, 7) :: pre)
      with ([(a, 0); (a, 1); (a, 2); (a, 3); (a, 4); (a, 5); (a, 6); (a, 7)] ++ pre).
    rewrite elem_of_app, gridRow_elem, Hpre. lia.
Qed.

(** The cells before a cell in the scan of the grid are the cells of the
    earlier days and the earlier slots of its day. *)
Lemma gridCells_earlier numDays pre day slot post :
  gridCells numDays = pre ++ (day, slot) :: post →
  day < numDays ∧ slot < length TIME_SLOTS
  ∧ ∀ d s, (d, s) ∈ pre ↔ s < length TIME_SLOTS ∧ (d < day ∨ (d = day ∧ s < slot)).
Proof.
  intros Heq. apply gridCells_from_earlier in Heq as (Hday & Hslot & Hpre).
  split_and!; [lia|done|]. intros d s. rewrite Hpre. lia.
Qed.

Lemma tryScheduleAlone_cases exam rooms cm day slot w :
  match tryScheduleAlone exam rooms cm day slot w with
  | (true, w') =>
      ∃ room rest,
        hasConflict exam day slot (state w) cm = false
        ∧ getAvailableRooms exam day slot rooms (state w) (is6UnitSubject exam)
          = room :: rest
        ∧ (is6UnitSubject exam = true → slot + 1 < length TIME_SLOTS)
        ∧ w' = if is6UnitSubject exam
               then scheduleExam exam day (slot + 1) room
                      (scheduleExam exam day slot room w false) true
               else scheduleExam exam day slot room w false
  | (false, w') => w' = w ∧ refusedAlone exam rooms cm day slot w
  end.
Proof.
  unfold tryScheduleAlone, refusedAlone.
  destruct (hasConflict exam day slot (state w) cm) eqn:Hconf; [by auto|].
  destruct (getAvailableRooms _ _ _ _ _ _) as [|room rest] eqn:Havail; [by auto|].
  destruct (is6UnitSubject exam) eqn:Hsix.
  - unfold schedule6UnitExam.
    destruct (Nat.leb_spec (length TIME_SLOTS - 1) slot) as [Hlast|Hnotlast];
      cbn [length TIME_SLOTS] in *.
    + split; [done|]. right. right. split; [done|lia].
    + exists room, rest. split_and!; try done. intros _. simpl. lia.
  - exists room, rest. by split_and!.
Qed.

(** X25.  One section in the individual phase.  The scan of the grid, day
    by day and slot by slot, places the section at the earliest cell at
    which it has no conflict and an allowed room is free (for a double-unit
    section: free in this and the next slot, and the cell is not in the
    last slot), in the first such room of the room list; at every earlier
    cell the attempt was refused for one of those reasons, and refused
    attempts change nothing.  When no cell of the grid will do, the world
    is left as it was. *)
Theorem scheduleIndividually_earliest exam rooms cm numDays w :
  match scanCells (tryScheduleAlone exam rooms cm) (gridCells numDays) w with
  | (true, w') =>
      ∃ day slot room rest,
        day < numDays ∧ slot < length TIME_SLOTS
        ∧ hasConflict exam day slot (state w) cm = false
        ∧ getAvailableRooms exam day slot rooms (state w) (is6UnitSubject exam)
          = room :: rest
        ∧ (is6UnitSubject exam = true → slot + 1 < length TIME_SLOTS)
        ∧ w' = (if is6UnitSubject exam
                then scheduleExam exam day (slot + 1) room
                       (scheduleExam exam day slot room w false) true
                else scheduleExam exam day slot room w false)
        ∧ ∀ d s, earlierCell d s day slot → refusedAlone exam rooms cm d s w
  | (false, w') =>
      w' = w
      ∧ ∀ d s, d < numDays → s < length TIME_SLOTS → refusedAlone exam rooms cm d s w
  end.
Proof.
  assert (Hfalse : ∀ d s, (tryScheduleAlone exam rooms cm d s w).1 = false →
            (tryScheduleAlone exam rooms cm d s w).2 = w
            ∧ refusedAlone exam rooms cm d s w).
  { intros d s. pose proof (tryScheduleAlone_cases exam rooms cm d s w) as Hcases.
    by destruct (tryScheduleAlone exam rooms cm d s w) as [[] w1]. }
  pose proof (scanCells_first (tryScheduleAlone exam rooms cm) (gridCells numDays) w)
    as Hscan.
  destruct (scanCells _ _ w) as [[] w'].
  - destruct Hscan as (pre & day & slot & post & Hcells & Hsucc & Hpre);
      [intros d s _ Hf; by apply Hfalse|].
    apply gridCells_earlier in Hcells as (Hday & Hslot & Hearlier).
    pose proof (tryScheduleAlone_cases exam rooms cm day slot w) as Hcases.
    rewrite Hsucc in Hcases. destruct Hcases as (room & rest & ? & ? & ? & ?).
    exists day, slot, room, rest. split_and!; try done.
    intros d s Hcell. apply Hfalse, Hpre, Hearlier. apply Hcell.
  - destruct Hscan as [-> Hall]; [intros d s _ Hf; by apply Hfalse|].
    split; [done|]. intros d s Hd Hs. apply Hfalse, Hall, gridCells_elem. done.
Qed.

(** X26.  One subject group without a double-unit section in the scans of
    phases 2 and 3.  Either the group is placed at the earliest cell of the
    grid, day by day and slot by slot, at which the group call succeeds,
    every earlier cell having been refused (a member's conflict, or too few
    rooms) without any change, and the counter grows by the size of the
    group; or every cell of the grid refuses, the world is left as it was
    and the sections of the group are deferred. *)
Theorem placeGroup_earliest group rooms cm numDays acc :
  existsb is6UnitSubject group = false →
  (∃ day slot w',
     day < numDays ∧ slot < length TIME_SLOTS
     ∧ tryScheduleGroup group day slot rooms cm (world acc) = (true, w')
     ∧ (∀ d s, earlierCell d s day slot → refusedGroup group rooms cm d s (world acc))
     ∧ placeGroup (gridCells numDays) rooms cm acc group
       = {| scheduledCount := scheduledCount acc + length group;
            failed := failed acc; world := w' |})
  ∨ ((∀ d s, d < numDays → s < length TIME_SLOTS →
             refusedGroup group rooms cm d s (world acc))
     ∧ placeGroup (gridCells numDays) rooms cm acc group
       = {| scheduledCount := scheduledCount acc;
            failed := failed acc ++ group; world := world acc |}).
Proof.
  intros Hsix.
  assert (Hfalse : ∀ d s, (tryScheduleGroup group d s rooms cm (world acc)).1 = false →
            (tryScheduleGroup group d s rooms cm (world acc)).2 = world acc
            ∧ refusedGroup group rooms cm d s (world acc)).
  { intros d s. apply tryScheduleGroup_false_cases. by right. }
  pose proof (scanCells_first (λ d s, tryScheduleGroup group d s rooms cm)
                (gridCells numDays) (world acc)) as Hscan.
  unfold placeGroup.
  destruct (scanCells _ _ (world acc)) as [[] w'].
  - left. destruct Hscan as (pre & day & slot & post & Hcells & Hsucc & Hpre);
      [intros d s _ Hf; by apply Hfalse|].
    apply gridCells_earlier in Hcells as (Hday & Hslot & Hearlier).
    exists day, slot, w'. split_and!; try done.
    intros d s Hcell. apply Hfalse, Hpre, Hearlier. apply Hcell.
  - right. destruct Hscan as [-> Hall]; [intros d s _ Hf; by apply Hfalse|].
    split; [|done]. intros d s Hd Hs. apply Hfalse, Hall, gridCells_elem. done.
Qed.

Lemma placeGroup_earliest_witness :
  scheduledCount
    (placeGroup (gridCells 1) ["N-1"; "N-2"] ∅
       {| scheduledCount := 0; failed := []; world := emptyWorld |} examsTwoSections)
  + length
      (failed
         (placeGroup (gridCells 1) ["N-1"; "N-2"] ∅
            {| scheduledCount := 0; failed := []; world := emptyWorld |}
            examsTwoSections))
  = 2.
Proof.
  destruct (placeGroup_earliest examsTwoSections ["N-1"; "N-2"] ∅ 1
              {| scheduledCount := 0; failed := []; world := emptyWorld |} eq_refl)
    as [(day & slot & w' & _ & _ & _ & _ & ->)|[_ ->]]; reflexivity.
Defined.

(** ** The earlier variant: scans *)

Lemma V4_tryScheduleExamAt_cases exam rooms cm day slot w :
  match V4.tryScheduleExamAt exam rooms cm day slot w with
  | (true, w') =>
      ∃ room rest,
        hasConflict exam day slot (state w) cm = false
        ∧ V4.getAvailableRooms exam day slot rooms (state w) = room :: rest
        ∧ w' = V4.scheduleExam exam day slot room w
  | (false, w') => w' = w ∧ refusedAloneV4 exam rooms cm day slot w
  end.
Proof.
  unfold V4.tryScheduleExamAt, refusedAloneV4.
  destruct (hasConflict exam day slot (state w) cm) eqn:Hconf; [by auto|].
  destruct (V4.getAvailableRooms _ _ _ _ _) as [|room rest] eqn:Havail; [by auto|].
  by exists room, rest.
Qed.

(** X27.  [tryScheduleExam] of the earlier variant places the section at
    the earliest cell of the grid, day by day and slot by slot, at which it
    has no conflict and an allowed room is free, in the first such room of
    the room list; every earlier cell was refused for one of these two
    reasons.  When it answers false, every cell of the grid refuses and
    nothing has changed. *)
Theorem V4_tryScheduleExam_earliest exam rooms cm numDays w :
  match V4.tryScheduleExam exam rooms cm numDays w with
  | (true, w') =>
      ∃ day slot room rest,
        day < numDays ∧ slot < length TIME_SLOTS
        ∧ hasConflict exam day slot (state w) cm = false
        ∧ V4.getAvailableRooms exam day slot rooms (state w) = room :: rest
        ∧ w' = V4.scheduleExam exam day slot room w
        ∧ ∀ d s, earlierCell d s day slot → refusedAloneV4 exam rooms cm d s w
  | (false, w') =>
      w' = w
      ∧ ∀ d s, d < numDays → s < length TIME_SLOTS → refusedAloneV4 exam rooms cm d s w
  end.
Proof.
  assert (Hfalse : ∀ d s, (V4.tryScheduleExamAt exam rooms cm d s w).1 = false →
            (V4.tryScheduleExamAt exam rooms cm d s w).2 = w
            ∧ refusedAloneV4 exam rooms cm d s w).
  { intros d s. pose proof (V4_tryScheduleExamAt_cases exam rooms cm d s w) as Hcases.
    by destruct (V4.tryScheduleExamAt exam rooms cm d s w) as [[] w1]. }
  unfold V4.tryScheduleExam.
  pose proof (scanCells_first (V4.tryScheduleExamAt exam rooms cm) (gridCells numDays) w)
    as Hscan.
  destruct (scanCells _ _ w) as [[] w'].
  - destruct Hscan as (pre & day & slot & post & Hcells & Hsucc & Hpre);
      [intros d s _ Hf; by apply Hfalse|].
    apply gridCells_earlier in Hcells as (Hday & Hslot & Hearlier).
    pose proof (V4_tryScheduleExamAt_cases exam rooms cm day slot w) as Hcases.
    rewrite Hsucc in Hcases. destruct Hcases as (room & rest & ? & ? & ?).
    exists day, slot, room, rest. split_and!; try done.
    intros d s Hcell. apply Hfalse, Hpre, Hearlier. apply Hcell.
  - destruct Hscan as [-> Hall]; [intros d s _ Hf; by apply Hfalse|].
    split; [done|]. intros d s Hd Hs. apply Hfalse, Hall, gridCells_elem. done.
Qed.

Lemma V4_tryScheduleGroup_false_cases group day slot rooms cm w :
  (V4.tryScheduleGroup group day slot rooms cm w).1 = false →
  (V4.tryScheduleGroup group day slot rooms cm w).2 = w
  ∧ refusedGroupV4 group rooms cm day slot w.
Proof.
  unfold V4.tryScheduleGroup, refusedGroupV4.
  destruct group as [|first rest] eqn:Hg; [done|]. rewrite <- Hg in *.
  destruct (existsb (λ exam, hasConflict exam day slot (state w) cm) group) eqn:Hconf.
  - intros _. split; [done|]. left.
    apply existsb_exists in Hconf as (e & He & Hc).
    exists e. split; [by apply list_elem_of_In|done].
  - destruct (Nat.ltb_spec
                (length (V4.getAvailableRooms first day slot rooms (state w)))
                (length group)) as [Hfew|Henough]; [|done].
    intros _. split; [done|]. right. by exists first, rest.
Qed.

(** X28.  A group of at most 35 sections in the earlier variant is placed
    as a whole at the earliest cell of the grid at which the group call
    succeeds, every earlier cell having been refused (a member's conflict,
    or too few rooms) without any change; when
    [tryScheduleGroupAnywhere] answers false for it, every cell of the
    grid refuses and nothing has changed. *)
Theorem V4_tryScheduleGroupAnywhere_earliest group rooms cm numDays w :
  (length group ≤ V4.maxBatchSize)%nat →
  match V4.tryScheduleGroupAnywhere group rooms cm numDays w with
  | (true, w') =>
      ∃ day slot,
        day < numDays ∧ slot < length TIME_SLOTS
        ∧ V4.tryScheduleGroup group day slot rooms cm w = (true, w')
        ∧ ∀ d s, earlierCell d s day slot → refusedGroupV4 group rooms cm d s w
  | (false, w') =>
      w' = w
      ∧ ∀ d s, d < numDays → s < length TIME_SLOTS → refusedGroupV4 group rooms cm d s w
  end.
Proof.
  intros Hsmall. unfold V4.tryScheduleGroupAnywhere.
  destruct (Nat.leb_spec (length group) V4.maxBatchSize) as [_|Hlarge]; [|lia].
  pose proof (scanCells_first (λ d s, V4.tryScheduleGroup group d s rooms cm)
                (gridCells numDays) w) as Hscan.
  destruct (scanCells _ _ w) as [[] w'].
  - destruct Hscan as (pre & day & slot & post & Hcells & Hsucc & Hpre);
      [intros d s _ Hf; by apply V4_tryScheduleGroup_false_cases|].
    apply gridCells_earlier in Hcells as (Hday & Hslot & Hearlier).
    exists day, slot. split_and!; try done.
    intros d s Hcell. apply V4_tryScheduleGroup_false_cases, Hpre, Hearlier. apply Hcell.
  - destruct Hscan as [-> Hall];
      [intros d s _ Hf; by apply V4_tryScheduleGroup_false_cases|].
    split; [done|]. intros d s Hd Hs.
    apply V4_tryScheduleGroup_false_cases, Hall, gridCells_elem. done.
Qed.

Lemma V4_tryScheduleGroupAnywhere_earliest_witness :
  ∃ day slot,
    day < 1 ∧ slot < length TIME_SLOTS
    ∧ V4.tryScheduleGroup examsTwoSections day slot ["N-1"; "N-2"] ∅ emptyWorld
      = (true, (V4.tryScheduleGroupAnywhere examsTwoSections ["N-1"; "N-2"] ∅ 1
                  emptyWorld).2)
    ∧ ∀ d s, earlierCell d s day slot →
             refusedGroupV4 examsTwoSections ["N-1"; "N-2"] ∅ d s emptyWorld.
Proof.
  pose proof (V4_tryScheduleGroupAnywhere_earliest examsTwoSections ["N-1"; "N-2"] ∅ 1
                emptyWorld ltac:(simpl; unfold V4.maxBatchSize; lia)) as H.
  assert (Hrun : (V4.tryScheduleGroupAnywhere examsTwoSections ["N-1"; "N-2"] ∅ 1
                    emptyWorld).1 = true) by (vm_compute; reflexivity).
  destruct (V4.tryScheduleGroupAnywhere examsTwoSections ["N-1"; "N-2"] ∅ 1 emptyWorld)
    as [[] w']; [exact H|discriminate Hrun].
Defined.

(** ** Phases only add *)

Lemma extends_refl w : extends w w.
Proof. by split_and!. Qed.

Lemma extends_scheduleExam w exam day slot room w' b :
  extends w w' → extends w (scheduleExam exam day slot room w' b).
Proof.
  intros (Hkeys & Hrooms & Hsubjects). split_and!.
  - rewrite scheduled_scheduleExam, OMap_set_keys.
    case_bool_decide; [done|]. by apply prefix_app_r.
  - intros dk sk r Hr. by apply occupiedRooms_scheduleExam_mono, Hrooms.
  - intros subject Hs. rewrite subjectScheduled_scheduleExam.
    case_decide; [by eexists|by apply Hsubjects].
Qed.

(** X30.  No phase takes anything back.  In the world a phase leaves, the
    output accumulator still has every key it had when the phase began, in
    the same order and ahead of the keys the phase added (the record under
    a key may have been rewritten); every room that was booked is still
    booked; and every subject that had a recorded placement still has
    one. *)
Theorem phases_extend exams rooms cm numDays w :
  extends w (world (scheduleGenEdTimeBlocks exams rooms cm numDays w))
  ∧ extends w (world (scheduleHighPriority exams rooms cm numDays w))
  ∧ extends w (world (scheduleMajorSubjects exams rooms cm numDays w))
  ∧ extends w (scheduleIndividually exams rooms cm numDays w).2.
Proof.
  assert (Hstep : ∀ exam first day slot room w' b,
    exam ∈ exams → first ∈ exams → normSubject first = normSubject exam →
    True → commitSlot slot b < length TIME_SLOTS →
    (b = true → is6UnitSubject exam = true) →
    room ∈ rooms →
    getBuildingFromRoom room ∈ getAvailableBuildings (dept first) (subjectId first) →
    extends w w' → extends w (scheduleExam exam day (commitSlot slot b) room w' b))
    by (intros; by apply extends_scheduleExam).
  split_and!.
  - apply (scheduleGenEdTimeBlocks_commits exams rooms cm (λ _ _ _, True)
             (extends w) Hstep); [done|done|apply extends_refl].
  - apply (scheduleHighPriority_commits exams rooms cm (λ _ _ _, True)
             (extends w) Hstep); [done|done|apply extends_refl].
  - apply (scheduleMajorSubjects_commits exams rooms cm (λ _ _ _, True)
             (extends w) Hstep); [done|done|apply extends_refl].
  - apply (scheduleIndividually_commits exams rooms cm (λ _ _ _, True)
             (extends w) Hstep); [done|done|apply extends_refl].
Qed.
